(** * Object-storage helpers: result envelope, transfer service and prefix
    migration.

    A shallow embedding of [error_helper.py], [minio_bc.py] and
    [move_minio.py].  Python strings are [string], byte strings are
    [list byte], unbounded non-negative counters are [nat].  Code that talks
    to the object store is written in a small monad that threads a world
    (store state, history of observable events, local variables) and the
    way a block of statements finished (normally, by [return], by a raised
    exception, or by a generator being closed). *)

From Stdlib Require Import String Ascii List Bool Arith NArith Lia.
From Stdlib Require Import Strings.Byte.
Import ListNotations.
Local Open Scope list_scope.
Local Open Scope string_scope.

Set Implicit Arguments.

(** ** Python string primitives *)

Module PyStr.

Definition sep : ascii := "/"%char.

Definition is_sep (c : ascii) : bool := Ascii.eqb c sep.

(** [bool(s)]: a string is truthy when it is not empty. *)
Definition truthy (s : string) : bool :=
  match s with
  | EmptyString => false
  | String _ _ => true
  end.

(** [s.lstrip("/")]. *)
Fixpoint lstrip (s : string) : string :=
  match s with
  | EmptyString => EmptyString
  | String c s' => if is_sep c then lstrip s' else s
  end.

(** [s.rstrip("/")]. *)
Fixpoint rstrip (s : string) : string :=
  match s with
  | EmptyString => EmptyString
  | String c s' =>
      match rstrip s' with
      | EmptyString => if is_sep c then EmptyString else String c EmptyString
      | r => String c r
      end
  end.

(** [s.strip("/")]: every leading and every trailing separator goes. *)
Definition strip (s : string) : string := rstrip (lstrip s).

(** [s.endswith(suf)]. *)
Fixpoint endswith (s suf : string) : bool :=
  String.eqb s suf ||
  match s with
  | EmptyString => false
  | String _ s' => endswith s' suf
  end.

(** [s.startswith(p)]. *)
Definition startswith (s p : string) : bool := String.prefix p s.

(** [s[n:]]. *)
Fixpoint drop (n : nat) (s : string) : string :=
  match n, s with
  | O, _ => s
  | S _, EmptyString => EmptyString
  | S n', String _ s' => drop n' s'
  end.

(** The first character is a separator. *)
Definition leading_sep (s : string) : bool :=
  match s with
  | EmptyString => false
  | String c _ => is_sep c
  end.

End PyStr.

(** ** Key normalisation *)

(** [MinIOService._build_object_name] (minio_bc.py). *)
Definition _build_object_name (directory filename : string) : string :=
  let directory := PyStr.strip directory in
  if PyStr.truthy directory then directory ++ "/" ++ filename
  else filename.

(** [normalize_prefix] (move_minio.py). *)
Definition normalize_prefix (p : string) : string :=
  if negb (PyStr.truthy p) then ""
  else if PyStr.endswith p "/" then p else p ++ "/".

(** The specification's reading of the object key: the directory is
    normalised by removing the separators around it, and [join] puts one
    separator between a non-empty directory and the file name. *)
Module KeySpec.

Definition normalize (directory : string) : string := PyStr.strip directory.

Definition join (directory filename : string) : string :=
  match directory with
  | EmptyString => filename
  | _ => directory ++ "/" ++ filename
  end.

(** A prefix "ends in exactly one separator". *)
Definition one_trailing_sep (p : string) : Prop :=
  PyStr.endswith p "/" = true /\ PyStr.endswith p "//" = false.

End KeySpec.

(** ** Result envelope (error_helper.py) *)

Inductive ErrorCode : Type :=
| NOT_FOUND
| UPLOAD_FAILED
| STREAM_FAILED
| DELETE_FAILED
| PRESIGN_FAILED
| BUCKET_ACCESS
| UNKNOWN.

Record Error : Type := mkError {
  code : ErrorCode;
  message : string;
  retryable : bool
}.

Record Result (T : Type) : Type := mkResult {
  ok : bool;
  value : option T;
  error : option Error
}.

(** The value [Err(code, msg)] builds from a message that is a [str]:
    [value] and [retryable] keep their defaults.  What a call of [Err]
    does with any argument is [return_Err] below. *)
Definition Err {T : Type} (c : ErrorCode) (msg : string) : Result T :=
  {| ok := false;
     value := None;
     error := Some {| code := c; message := msg; retryable := false |} |}.

(** ** Exceptions and Python values *)

(** The subclasses of [Exception] that the code raises or catches.
    [S3Error] carries the store's error code and its text;
    [ValidationError] is what a pydantic model raises when a field refuses
    the value given for it, and carries the field's name; [OtherError] is
    any other subclass of [Exception] (a transport failure, say). *)
Inductive exn : Type :=
| S3Error (s3code : string) (text : string)
| ValueError (text : string)
| RuntimeError (text : string)
| UnboundLocalError (variable : string)
| ValidationError (field : string)
| OtherError (text : string).

(** [isinstance(e, S3Error)]. *)
Definition is_S3Error (e : exn) : bool :=
  match e with
  | S3Error _ _ => true
  | _ => false
  end.

Definition newline : string := String (Ascii.ascii_of_nat 10) EmptyString.

(** [str(e)]; for an unbound local the interpreter's own wording, for a
    refused field the wording of pydantic 1.x (the version that has
    [pydantic.generics.GenericModel]). *)
Definition str_of_exn (e : exn) : string :=
  match e with
  | S3Error _ t | ValueError t | RuntimeError t | OtherError t => t
  | UnboundLocalError v =>
      "cannot access local variable '" ++ v ++
      "' where it is not associated with a value"
  | ValidationError f =>
      "1 validation error for Error" ++ newline ++ f ++ newline ++
      "  str type expected (type=type_error.str)"
  end.

(** What a call site hands to [Err] as [msg]: a string ([str(e)], an
    f-string, a literal) or the exception object itself ([e]). *)
Inductive MessageArg : Type :=
| Text (s : string)
| ExceptionObject (e : exn).

Definition bytes : Type := list byte.

(** What the functions of the transfer service hand back.  Their
    annotations say [str], [bool] or [Iterator[bytes]]; the bodies also
    return [Result] values, so the embedding keeps the dynamic type. *)
Inductive value_ : Type :=
| VNone
| VBool (b : bool)
| VStr (s : string)
| VResult (r : Result string).

(** How a block of statements (or a whole call) finishes.  [Closed] is a
    [GeneratorExit] in flight: it is not an [Exception], so no [except]
    clause of this code catches it, while [finally] clauses still run. *)
Inductive completion (A : Type) : Type :=
| Normal (a : A)
| Returned (v : value_)
| Raised (e : exn)
| Closed.

Arguments Returned {A} v.
Arguments Raised {A} e.
Arguments Closed {A}.

(** ** Computations

    A computation started in a world either finishes ([Done]) or, inside a
    generator, suspends at a [yield] with a chunk ([Yield]); the consumer
    resumes it with [next()] or ends it with [close()], which raises
    [GeneratorExit] at the suspended [yield]. *)

Inductive signal : Type := Next | Close.

Inductive Gen (W A : Type) : Type :=
| Done (c : completion A) (w : W)
| Yield (chunk : bytes) (w : W) (k : signal -> W -> Gen W A).

Arguments Done {W A} c w.
Arguments Yield {W A} chunk w k.

Definition M (W A : Type) : Type := W -> Gen W A.

Module Py.
Section Monad.
Context {W : Type}.

Definition ret {A} (a : A) : M W A := fun w => Done (Normal a) w.

(** [return v]. *)
Definition return_ {A} (v : value_) : M W A := fun w => Done (Returned v) w.

(** [raise e]. *)
Definition raise {A} (e : exn) : M W A := fun w => Done (Raised e) w.

Fixpoint gbind {A B} (g : Gen W A) (f : A -> M W B) : Gen W B :=
  match g with
  | Done (Normal a) w => f a w
  | Done (Returned v) w => Done (Returned v) w
  | Done (Raised e) w => Done (Raised e) w
  | Done Closed w => Done Closed w
  | Yield c w k => Yield c w (fun s w' => gbind (k s w') f)
  end.

(** Sequencing of statements. *)
Definition bind {A B} (m : M W A) (f : A -> M W B) : M W B :=
  fun w => gbind (m w) f.

(** [try: body / except ...: handler]: [handler e] is [Some h] when one
    of the [except] clauses matches [e]; what the handler raises is not
    caught again. *)
Fixpoint gexcept {A} (g : Gen W A) (handler : exn -> option (M W A))
  : Gen W A :=
  match g with
  | Done (Raised e) w =>
      match handler e with
      | Some h => h w
      | None => Done (Raised e) w
      end
  | Done c w => Done c w
  | Yield c w k => Yield c w (fun s w' => gexcept (k s w') handler)
  end.

Definition try_except {A} (body : M W A) (handler : exn -> option (M W A))
  : M W A :=
  fun w => gexcept (body w) handler.

(** [try: body / finally: fin]: [fin] runs however [body] finished; when
    [fin] itself finishes by [return], by raising or by being closed,
    that outcome replaces the body's. *)
Fixpoint gfinally {A} (g : Gen W A) (fin : M W unit) : Gen W A :=
  match g with
  | Done c w =>
      gbind (fin w) (fun _ w' => Done c w')
  | Yield ch w k => Yield ch w (fun s w' => gfinally (k s w') fin)
  end.

Definition try_finally {A} (body : M W A) (fin : M W unit) : M W A :=
  fun w => gfinally (body w) fin.

(** [yield chunk]. *)
Definition yield_ (chunk : bytes) : M W unit :=
  fun w => Yield chunk w
    (fun s w' => match s with
                 | Next => Done (Normal tt) w'
                 | Close => Done Closed w'
                 end).

(** [return Err(code, msg)].  [Err] builds [Error(code=code, message=msg)]
    and the field is declared [message: str]: a string is taken as it is,
    an exception object is refused by the model's validation, so that
    [ValidationError] is raised where the [return] statement stands and
    nothing is returned. *)
Definition return_Err {A} (c : ErrorCode) (msg : MessageArg) : M W A :=
  match msg with
  | Text s => return_ (VResult (Err c s))
  | ExceptionObject _ => raise (ValidationError "message")
  end.

Definition get : M W W := fun w => Done (Normal w) w.
Definition modify (f : W -> W) : M W unit := fun w => Done (Normal tt) (f w).

End Monad.
End Py.

Declare Scope py_scope.
Delimit Scope py_scope with py.
Notation "x <- m ;; k" := (Py.bind m (fun x => k))
  (at level 61, m at next level, right associativity) : py_scope.
Notation "m ;; k" := (Py.bind m (fun _ => k))
  (at level 61, right associativity) : py_scope.

(** ** The backing store (external collaborator) *)

(** What a call to the store gives back. *)
Inductive outcome (A : Type) : Type :=
| Success (a : A)
| Failure (e : exn).

Arguments Failure {A} e.

(** One [response.read(chunk_size)]. *)
Inductive ReadResult : Type :=
| ReadBytes (chunk : bytes)
| ReadFails (e : exn).

(** The response object of [get_object]: an identity, what its successive
    [read] calls will give (past the end of the list [read] gives the empty
    byte string), and its truth value in [if response:]. *)
Record Response : Type := mkResponse {
  rid : nat;
  reads : list ReadResult;
  resp_truthy : bool
}.

(** The [data: BinaryIO] argument of [upload_stream]. *)
Record BinaryIO : Type := mkBinaryIO {
  payload : bytes;
  closable : bool;            (* hasattr(data, 'close') and callable(data.close) *)
  close_fails : option exn    (* what data.close() raises, if anything *)
}.

(** The calls the code makes on the client, on a response and on the
    input stream. *)
Inductive Call : Type :=
| CBucketExists (bucket : string)
| CMakeBucket (bucket : string)
| CListObjects (bucket prefix : string)
| CStatObject (bucket key : string)
| CCopyObject (dest_bucket dest_key src_bucket src_key : string)
| CRemoveObject (bucket key : string)
| CPutObject (bucket key content_type : string) (part_size : N)
| CGetObject (bucket key : string)
| CPresignedUrl (method bucket key : string) (expires_seconds : N)
| CRead (response_id : nat) (size : N)
| CClose (response_id : nat)
| CReleaseConn (response_id : nat)
| CDataClose.

(** The lines [move_minio_prefix] prints. *)
Inductive Line : Type :=
| LSkip (dest_bucket dest_key : string)
| LCopy (src_bucket key dest_bucket dest_key : string)
| LDelete (src_bucket key : string)
| LError (key : string) (e : exn)
| LSummary (moved copied skipped errors : nat).

(** Observable events: a call with whether it returned ([true]) or raised
    ([false]), an object handed out by the listing, a printed line. *)
Inductive Event : Type :=
| ECall (c : Call) (returned : bool)
| EListed (key : string)
| EPrint (l : Line).

(** The client, over a store state [S].  [list_objects] is a lazy
    listing: it hands out the keys in order and then either stops or
    raises. *)
Record Minio (S : Type) : Type := mkMinio {
  bucket_exists : string -> S -> outcome bool * S;
  make_bucket : string -> S -> outcome unit * S;
  list_objects : string -> string -> S -> (list string * option exn) * S;
  stat_object : string -> string -> S -> outcome unit * S;
  copy_object : string -> string -> string -> string -> S -> outcome unit * S;
  remove_object : string -> string -> S -> outcome unit * S;
  put_object : string -> string -> bytes -> string -> N -> S -> outcome unit * S;
  get_object : string -> string -> S -> outcome Response * S;
  presigned_url : string -> string -> string -> N -> S -> outcome string * S
}.

(** The world a computation runs in.  [history] has the most recent event
    first; [trace] is the same in the order of time. *)
Record World (S L : Type) : Type := mkWorld {
  backend : S;
  history : list Event;
  locals : L
}.

Definition trace {S L} (w : World S L) : list Event := rev (history w).

Section Effects.
Context {S L : Type}.

Definition log (e : Event) : M (World S L) unit :=
  Py.modify (fun w => {| backend := backend w;
                         history := e :: history w;
                         locals := locals w |}).

(** A call on the store: the store moves on, the call is recorded, and an
    exception of the call is raised in the caller. *)
Definition call {A} (c : Call) (f : S -> outcome A * S) : M (World S L) A :=
  fun w =>
    let '(r, s') := f (backend w) in
    match r with
    | Success a =>
        Done (Normal a)
             {| backend := s'; history := ECall c true :: history w;
                locals := locals w |}
    | Failure e =>
        Done (Raised e)
             {| backend := s'; history := ECall c false :: history w;
                locals := locals w |}
    end.

(** A call that touches no store state and cannot fail. *)
Definition effect (c : Call) : M (World S L) unit := log (ECall c true).

Definition print (l : Line) : M (World S L) unit := log (EPrint l).

(** Assignment to local variables. *)
Definition assign (f : L -> L) : M (World S L) unit :=
  Py.modify (fun w => {| backend := backend w;
                         history := history w;
                         locals := f (locals w) |}).

(** Reading a local variable that may not be bound yet. *)
Definition read_local {A} (name : string) (field : L -> option A) : M (World S L) A :=
  fun w =>
    match field (locals w) with
    | Some a => Done (Normal a) w
    | None => Done (Raised (UnboundLocalError name)) w
    end.

End Effects.

(** ** Transfer service (minio_bc.py, class [MinIOService]) *)

(** The local variables of the methods that a handler or a [finally]
    clause reads back; [None] is "not bound yet". *)
Record TransferLocals : Type := mkTransferLocals {
  object_name : option string;
  response : option Response
}.

Definition unbound : TransferLocals :=
  {| object_name := None; response := None |}.

Definition default_part_size : N := 5 * 1024 * 1024.
Definition chunk_size : N := 8192.
Definition default_expiry_seconds : N := 3600.

Section TransferService.
Variable S : Type.
Variable client : Minio S.
Variable bucket_name : string.          (* self.bucket_name *)

Local Open Scope py_scope.

(** Entering a method: none of its local variables is bound. *)
Definition enter : M (World S TransferLocals) unit :=
  assign (fun _ => unbound).

Definition set_object_name (name : string) : M (World S TransferLocals) unit :=
  assign (fun l => {| object_name := Some name; response := response l |}).

Definition set_response (r : Response) : M (World S TransferLocals) unit :=
  assign (fun l => {| object_name := object_name l; response := Some r |}).

(** [_ensure_bucket_exists]. *)
Definition _ensure_bucket_exists : M (World S TransferLocals) unit :=
  enter;;
  Py.try_except
    (found <- call (CBucketExists bucket_name)
                   (bucket_exists client bucket_name);;
     if negb found
     then call (CMakeBucket bucket_name) (make_bucket client bucket_name)
     else Py.ret tt)
    (fun e =>
       if is_S3Error e
       then Some (Py.return_Err BUCKET_ACCESS (Text (str_of_exn e)))
       else Some (Py.return_Err UNKNOWN (ExceptionObject e))).

(** [data.close()]. *)
Definition data_close (data : BinaryIO) : M (World S TransferLocals) unit :=
  fun w =>
    match close_fails data with
    | None => log (ECall CDataClose true) w
    | Some e => Py.bind (log (ECall CDataClose false)) (fun _ => Py.raise e) w
    end.

(** [upload_stream].  [length=-1] is a constant of the call and is left
    out of the recorded event. *)
Definition upload_stream (data : BinaryIO) (directory filename : string)
           (content_type : option string) (part_size : N)
  : M (World S TransferLocals) unit :=
  enter;;
  Py.try_finally
    (Py.try_except
       ((if negb (PyStr.truthy filename)
         then Py.raise (ValueError "Filename must be provided")
         else Py.ret tt);;
        let name := _build_object_name directory filename in
        set_object_name name;;
        let ct := match content_type with
                  | Some c => if PyStr.truthy c then c
                              else "application/octet-stream"
                  | None => "application/octet-stream"
                  end in
        call (CPutObject bucket_name name ct part_size)
             (put_object client bucket_name name (payload data) ct part_size);;
        Py.return_ (VStr name))
       (fun e =>
          if is_S3Error e
          then Some (Py.return_Err UPLOAD_FAILED (Text (str_of_exn e)))
          else Some (name <- read_local "object_name" object_name;;
                     Py.return_Err UNKNOWN
                       (Text ("Upload error for '" ++ name ++ "': "
                              ++ str_of_exn e)))))
    (if closable data
     then Py.try_except (data_close data) (fun _ => Some (Py.ret tt))
     else Py.ret tt).

(** [response.close(); response.release_conn()]. *)
Definition close_and_release (r : Response) : M (World S TransferLocals) unit :=
  effect (CClose (rid r));;
  effect (CReleaseConn (rid r)).

(** The [while True] loop of [stream_file], by recursion on what the
    response still has to give: a failing [read] raises, an empty chunk
    (also the answer past the end of the data) breaks out of the loop,
    any other chunk is yielded. *)
Fixpoint read_loop (r : nat) (script : list ReadResult)
  : M (World S TransferLocals) unit :=
  match script with
  | [] => effect (CRead r chunk_size)
  | ReadFails e :: _ => log (ECall (CRead r chunk_size) false);; Py.raise e
  | ReadBytes [] :: _ => effect (CRead r chunk_size)
  | ReadBytes chunk :: rest =>
      effect (CRead r chunk_size);;
      Py.yield_ chunk;;
      read_loop r rest
  end.

(** The [except] clauses of [stream_file]. *)
Definition stream_handlers (e : exn)
  : option (M (World S TransferLocals) unit) :=
  match e with
  | S3Error c _ =>
      if String.eqb c "NoSuchKey"
      then Some (name <- read_local "object_name" object_name;;
                 Py.return_Err NOT_FOUND
                   (Text ("Object not found: '" ++ name ++ "'")))
      else Some (Py.return_Err STREAM_FAILED
                   (Text ("Failed to open stream: " ++ str_of_exn e)))
  | _ => Some (Py.return_Err UNKNOWN (ExceptionObject e))
  end.

(** The outer [finally] clause of [stream_file]. *)
Definition stream_finally : M (World S TransferLocals) unit :=
  resp <- read_local "response" response;;
  if resp_truthy resp then close_and_release resp else Py.ret tt.

(** The two [try] statements of [stream_file] around the read loop, once
    the response is there. *)
Definition guarded_reads (resp : Response) (reading : Gen (World S TransferLocals) unit)
  : Gen (World S TransferLocals) unit :=
  Py.gfinally
    (Py.gexcept (Py.gfinally reading (close_and_release resp)) stream_handlers)
    stream_finally.

(** [stream_file]: the body of the generator, that is what runs from the
    first [next()] on.  Creating the generator runs nothing. *)
Definition stream_file (directory filename : string)
  : M (World S TransferLocals) unit :=
  enter;;
  Py.try_finally
    (Py.try_except
       (let name := _build_object_name directory filename in
        set_object_name name;;
        resp <- call (CGetObject bucket_name name)
                     (get_object client bucket_name name);;
        set_response resp;;
        Py.try_finally
          (read_loop (rid resp) (reads resp))
          (close_and_release resp))
       stream_handlers)
    stream_finally.

(** [delete_file]. *)
Definition delete_file (directory filename : string)
  : M (World S TransferLocals) unit :=
  enter;;
  Py.try_except
    (let name := _build_object_name directory filename in
     set_object_name name;;
     call (CRemoveObject bucket_name name)
          (remove_object client bucket_name name);;
     Py.return_ (VBool true))
    (fun e =>
       match e with
       | S3Error c _ =>
           if String.eqb c "NoSuchKey"
           then Some (Py.return_ (VBool false))
           else Some (Py.return_Err UNKNOWN (ExceptionObject e))
       | _ => Some (Py.return_Err UNKNOWN (ExceptionObject e))
       end).

(** [generate_presigned_url]; [expiry] in seconds. *)
Definition generate_presigned_url (directory filename : string)
           (expiry : N) (method : string)
  : M (World S TransferLocals) unit :=
  enter;;
  Py.try_except
    (let name := _build_object_name directory filename in
     set_object_name name;;
     url <- call (CPresignedUrl method bucket_name name expiry)
                 (presigned_url client method bucket_name name expiry);;
     Py.return_ (VStr url))
    (fun e =>
       if is_S3Error e
       then Some (name <- read_local "object_name" object_name;;
                  Py.return_Err PRESIGN_FAILED
                    (Text ("Failed to presign '" ++ name ++ "': "
                           ++ str_of_exn e)))
       else Some (Py.return_Err UNKNOWN (ExceptionObject e))).

End TransferService.

(** ** Prefix migration (move_minio.py) *)

(** The four counters of [move_minio_prefix], its mutable locals. *)
Record Counters : Type := mkCounters {
  moved : nat;
  copied : nat;
  skipped : nat;
  errors : nat
}.

(** [f"moved={moved}, copied={copied}, skipped={skipped}, errors={errors}"]. *)
Definition summary_line (c : Counters) : Line :=
  LSummary (moved c) (copied c) (skipped c) (errors c).

Section Migration.
Variable S : Type.
Variable client : Minio S.

Local Open Scope py_scope.

Definition incr_moved : M (World S Counters) unit :=
  assign (fun c => {| moved := moved c + 1; copied := copied c;
                      skipped := skipped c; errors := errors c |}).
Definition incr_copied : M (World S Counters) unit :=
  assign (fun c => {| moved := moved c; copied := copied c + 1;
                      skipped := skipped c; errors := errors c |}).
Definition incr_skipped : M (World S Counters) unit :=
  assign (fun c => {| moved := moved c; copied := copied c;
                      skipped := skipped c + 1; errors := errors c |}).
Definition incr_errors : M (World S Counters) unit :=
  assign (fun c => {| moved := moved c; copied := copied c;
                      skipped := skipped c; errors := errors c + 1 |}).

(** [ensure_bucket]. *)
Definition ensure_bucket (bucket : string) : M (World S Counters) unit :=
  found <- call (CBucketExists bucket) (bucket_exists client bucket);;
  if negb found
  then call (CMakeBucket bucket) (make_bucket client bucket)
  else Py.ret tt.

(** [key[len(src_prefix):] if src_prefix and key.startswith(src_prefix)
    else key]. *)
Definition tail_of (src_prefix key : string) : string :=
  if PyStr.truthy src_prefix && PyStr.startswith key src_prefix
  then PyStr.drop (String.length src_prefix) key
  else key.

(** [e.code not in ("NoSuchKey", "NotFound")]. *)
Definition not_found_code (c : string) : bool :=
  String.eqb c "NoSuchKey" || String.eqb c "NotFound".

(** The conflict check of one iteration; [true] stands for the
    [continue] of the skip branch. *)
Definition conflict_check (dest_bucket dest_key : string) (overwrite : bool)
  : M (World S Counters) bool :=
  if negb overwrite
  then
    Py.try_except
      (call (CStatObject dest_bucket dest_key)
            (stat_object client dest_bucket dest_key);;
       print (LSkip dest_bucket dest_key);;
       incr_skipped;;
       Py.ret true)
      (fun e =>
         match e with
         | S3Error c _ =>
             Some (if negb (not_found_code c)
                   then Py.raise e
                   else Py.ret false)
         | _ => None
         end)
  else Py.ret false.

(** The body of the [for] loop, for the listed object [key]. *)
Definition process_object (src_bucket src_prefix dest_bucket dest_prefix : string)
           (overwrite : bool) (key : string) : M (World S Counters) unit :=
  let tail := tail_of src_prefix key in
  let dest_key := dest_prefix ++ tail in
  skip <- conflict_check dest_bucket dest_key overwrite;;
  if (skip : bool) then Py.ret tt
  else
    print (LCopy src_bucket key dest_bucket dest_key);;
    Py.try_except
      (call (CCopyObject dest_bucket dest_key src_bucket key)
            (copy_object client dest_bucket dest_key src_bucket key);;
       incr_copied;;
       call (CRemoveObject src_bucket key)
            (remove_object client src_bucket key);;
       incr_moved;;
       print (LDelete src_bucket key))
      (fun e => Some (incr_errors;; print (LError key e))).

(** The [for] loop over what the listing hands out: [keys] in order,
    then the end of the listing, or the exception [failing] it raises. *)
Fixpoint for_each_object
         (src_bucket src_prefix dest_bucket dest_prefix : string)
         (overwrite : bool) (keys : list string) (failing : option exn)
  : M (World S Counters) unit :=
  match keys with
  | [] =>
      match failing with
      | None => Py.ret tt
      | Some e =>
          log (ECall (CListObjects src_bucket src_prefix) false);;
          Py.raise e
      end
  | key :: rest =>
      log (EListed key);;
      process_object src_bucket src_prefix dest_bucket dest_prefix
                     overwrite key;;
      for_each_object src_bucket src_prefix dest_bucket dest_prefix
                      overwrite rest failing
  end.

(** Creating the listing: the store is asked once, the keys come out one
    by one in the loop. *)
Definition start_listing (bucket prefix : string)
  : M (World S Counters) (list string * option exn) :=
  fun w =>
    let '(r, s') := list_objects client bucket prefix (backend w) in
    Done (Normal r)
         {| backend := s';
            history := ECall (CListObjects bucket prefix) true :: history w;
            locals := locals w |}.

(** [move_minio_prefix]. *)
Definition move_minio_prefix
           (src_bucket src_prefix dest_bucket dest_prefix : string)
           (overwrite : bool) : M (World S Counters) unit :=
  let src_prefix := normalize_prefix src_prefix in
  let dest_prefix := normalize_prefix dest_prefix in
  found <- call (CBucketExists src_bucket) (bucket_exists client src_bucket);;
  (if negb found
   then Py.raise (RuntimeError ("Source bucket does not exist: " ++ src_bucket))
   else Py.ret tt);;
  ensure_bucket dest_bucket;;
  assign (fun _ => {| moved := 0; copied := 0; skipped := 0; errors := 0 |});;
  listing <- start_listing src_bucket src_prefix;;
  for_each_object src_bucket src_prefix dest_bucket dest_prefix overwrite
                  (fst listing) (snd listing);;
  w <- Py.get;;
  print (summary_line (locals w)).

End Migration.

(** The last statement of [move_minio_prefix], run in the world the loop
    left: the summary line is printed. *)
Definition finish_run {S : Type} (w : World S Counters)
  : Gen (World S Counters) unit :=
  Done (Normal tt)
       {| backend := backend w;
          history := EPrint (summary_line (locals w)) :: history w;
          locals := locals w |}.

(** ** Observations on a history

    All of them read a history, most recent event first. *)

(** The per-object state machine of the migration. *)
Inductive ObjectState : Type :=
| Pending
| Skipped
| CopyFailed
| Copied
| DeleteFailed
| Moved.

Definition ObjectState_eqb (a b : ObjectState) : bool :=
  match a, b with
  | Pending, Pending | Skipped, Skipped | CopyFailed, CopyFailed
  | Copied, Copied | DeleteFailed, DeleteFailed | Moved, Moved => true
  | _, _ => false
  end.

Definition terminal (s : ObjectState) : bool :=
  match s with
  | Skipped | CopyFailed | DeleteFailed | Moved => true
  | Pending | Copied => false
  end.

(** The transitions: a destination probe that finds the object skips it,
    a copy fails or succeeds, a delete after the copy fails or succeeds. *)
Definition step_state (s : ObjectState) (e : Event) : ObjectState :=
  match s, e with
  | Pending, ECall (CStatObject _ _) true => Skipped
  | Pending, ECall (CCopyObject _ _ _ _) false => CopyFailed
  | Pending, ECall (CCopyObject _ _ _ _) true => Copied
  | Copied, ECall (CRemoveObject _ _) true => Moved
  | Copied, ECall (CRemoveObject _ _) false => DeleteFailed
  | _, _ => s
  end.

(** Every object the listing handed out, with the state its events led
    to; most recently listed first. *)
Fixpoint objects (h : list Event) : list (string * ObjectState) :=
  match h with
  | [] => []
  | EListed k :: h' => (k, Pending) :: objects h'
  | e :: h' =>
      match objects h' with
      | (k, s) :: rest => (k, step_state s e) :: rest
      | [] => []
      end
  end.

(** The same in listing order. *)
Definition classification {S L} (w : World S L) : list (string * ObjectState) :=
  rev (objects (history w)).

Definition count (s : ObjectState) (l : list (string * ObjectState)) : nat :=
  length (filter (fun p => ObjectState_eqb s (snd p)) l).

(** Every [remove_object] is on a key of [src_bucket] and comes right
    after a [copy_object] that returned, from that very key to the key
    [dest_key_of] gives for it in [dest_bucket]; nothing else is
    removed. *)
Fixpoint copy_before_delete (src_bucket dest_bucket : string)
         (dest_key_of : string -> string) (h : list Event) : bool :=
  match h with
  | [] => true
  | ECall (CRemoveObject b k) _ :: h' =>
      String.eqb b src_bucket &&
      match h' with
      | ECall (CCopyObject db dk sb sk) true :: _ =>
          String.eqb db dest_bucket && String.eqb dk (dest_key_of k)
          && String.eqb sb src_bucket && String.eqb sk k
      | _ => false
      end &&
      copy_before_delete src_bucket dest_bucket dest_key_of h'
  | _ :: h' => copy_before_delete src_bucket dest_bucket dest_key_of h'
  end.

(** The events of the statements before the loop. *)
Definition is_prelude_event (e : Event) : bool :=
  match e with
  | ECall (CBucketExists _) _ | ECall (CMakeBucket _) _
  | ECall (CListObjects _ _) true => true
  | _ => false
  end.

(** Every object is in a terminal state. *)
Definition all_terminal (os : list (string * ObjectState)) : bool :=
  forallb (fun p => terminal (snd p)) os.

(** The counters are the numbers of objects in the states they stand
    for. *)
Definition counters_agree (c : Counters) (os : list (string * ObjectState))
  : Prop :=
  moved c = count Moved os /\
  copied c = count Moved os + count DeleteFailed os /\
  skipped c = count Skipped os /\
  errors c = count CopyFailed os + count DeleteFailed os.

Definition is_summary (e : Event) : bool :=
  match e with
  | EPrint (LSummary _ _ _ _) => true
  | _ => false
  end.

(** How many summary lines were printed. *)
Definition summaries (h : list Event) : nat := length (filter is_summary h).

Definition is_call (p : Call -> bool) (e : Event) : bool :=
  match e with
  | ECall c _ => p c
  | _ => false
  end.

(** How many calls satisfying [p] were made. *)
Definition calls (p : Call -> bool) (h : list Event) : nat :=
  length (filter (is_call p) h).

Definition is_release (r : nat) (c : Call) : bool :=
  match c with
  | CReleaseConn r' => Nat.eqb r r'
  | _ => false
  end.

Definition is_close (r : nat) (c : Call) : bool :=
  match c with
  | CClose r' => Nat.eqb r r'
  | _ => false
  end.

(** Calls that go to the store over the network. *)
Definition is_network (c : Call) : bool :=
  match c with
  | CRead _ _ | CClose _ | CReleaseConn _ | CDataClose => false
  | _ => true
  end.

(** The keys the listing handed out, most recent first, and in listing
    order. *)
Fixpoint listed_keys (h : list Event) : list string :=
  match h with
  | [] => []
  | EListed k :: h' => k :: listed_keys h'
  | _ :: h' => listed_keys h'
  end.

Definition listing {S L} (w : World S L) : list string :=
  rev (listed_keys (history w)).

(** The failures of the destination probe that the conflict check does
    not absorb: an [S3Error] whose code is not one of the two not-found
    codes, and every exception that is not an [S3Error]. *)
Definition fatal_probe (e : exn) : bool :=
  match e with
  | S3Error c _ => negb (String.eqb c "NoSuchKey" || String.eqb c "NotFound")
  | _ => true
  end.

(** ** Consumers of a generator *)

Section Consumers.
Context {W A : Type}.

(** [for chunk in gen]: read until the generator finishes. *)
Fixpoint drain (g : Gen W A) : completion A * W * list bytes :=
  match g with
  | Done c w => (c, w, [])
  | Yield chunk w k =>
      let '(c, w', chunks) := drain (k Next w) in (c, w', chunk :: chunks)
  end.

(** Take the chunk the generator is suspended with, ask for at most [n]
    more, then [close()] the generator.  A generator that yields again
    when closed makes [close()] raise [RuntimeError]. *)
Fixpoint abandon_after (n : nat) (g : Gen W A)
  : completion A * W * list bytes :=
  match g with
  | Done c w => (c, w, [])
  | Yield chunk w k =>
      match n with
      | O =>
          match k Close w with
          | Done c w' => (c, w', [chunk])
          | Yield _ w' _ =>
              (Raised (RuntimeError "generator ignored GeneratorExit"),
               w', [chunk])
          end
      | S n' =>
          let '(c, w', chunks) := abandon_after n' (k Next w) in
          (c, w', chunk :: chunks)
      end
  end.

(** The values a computation can [return], whatever the consumer does
    and whatever the world looks like when it is resumed. *)
Inductive may_return : Gen W A -> value_ -> Prop :=
| may_return_done : forall v w, may_return (Done (Returned v) w) v
| may_return_resumed : forall chunk w k s w' v,
    may_return (k s w') v -> may_return (Yield chunk w k) v.

End Consumers.

(** How the [except] clauses of [stream_file] end for an exception,
    [name] being the object name: a failed [Result] is returned for an
    [S3Error], and for any other exception the call of [Err] with the
    exception object raises. *)
Definition stream_failure (name : string) (e : exn) : completion unit :=
  match e with
  | S3Error c _ =>
      if String.eqb c "NoSuchKey"
      then Returned (VResult (Err NOT_FOUND
                                ("Object not found: '" ++ name ++ "'")))
      else Returned (VResult (Err STREAM_FAILED
                                ("Failed to open stream: " ++ str_of_exn e)))
  | _ => Raised (ValidationError "message")
  end.

(** The three outcomes of a deletion, and the outcome a value returned by
    [delete_file] stands for. *)
Inductive DeleteOutcome : Type :=
| Deleted
| NotFound
| Failed (e : Error).

Definition delete_outcome (v : value_) : option DeleteOutcome :=
  match v with
  | VBool true => Some Deleted
  | VBool false => Some NotFound
  | VResult r =>
      match ok r, error r with
      | false, Some e => Some (Failed e)
      | _, _ => None
      end
  | _ => None
  end.

(** A value that is a [Result]. *)
Definition is_result (v : value_) : bool :=
  match v with
  | VResult _ => true
  | _ => false
  end.

(** The error code a returned value carries, if it is a failed [Result]. *)
Definition error_code (v : value_) : option ErrorCode :=
  match v with
  | VResult r =>
      match error r with
      | Some e => Some (code e)
      | None => None
      end
  | _ => None
  end.

(** ** An in-memory store

    A small store to run the code on: buckets, objects, a plan of injected
    failures, and the way a response delivers the bytes of an object.  An
    operation on an absent key reports [NoSuchKey]. *)

Module Mem.

Record Store : Type := mkStore {
  buckets : list string;
  contents : list (string * string * bytes);   (* bucket, key, bytes *)
  faults : Call -> option exn;
  delivery : bytes -> list ReadResult;
  next_rid : nat
}.

Definition no_faults : Call -> option exn := fun _ => None.

Definition one_chunk (b : bytes) : list ReadResult :=
  match b with
  | [] => []
  | _ => [ReadBytes b]
  end.

Definition same (b k : string) (o : string * string * bytes) : bool :=
  let '(b', k', _) := o in String.eqb b b' && String.eqb k k'.

Definition lookup (b k : string) (s : Store) : option bytes :=
  match find (same b k) (contents s) with
  | Some (_, _, c) => Some c
  | None => None
  end.

Definition with_contents (s : Store) (c : list (string * string * bytes))
  : Store :=
  {| buckets := buckets s; contents := c; faults := faults s;
     delivery := delivery s; next_rid := next_rid s |}.

Definition store_object (b k : string) (c : bytes) (s : Store) : Store :=
  with_contents s
    (filter (fun o => negb (same b k o)) (contents s) ++ [(b, k, c)])%list.

Definition drop_object (b k : string) (s : Store) : Store :=
  with_contents s (filter (fun o => negb (same b k o)) (contents s)).

Definition no_such_key (k : string) : exn :=
  S3Error "NoSuchKey" ("The specified key does not exist: " ++ k).

(** An injected failure comes first; otherwise the operation runs. *)
Definition guarded {A} (c : Call) (s : Store) (run : outcome A * Store)
  : outcome A * Store :=
  match faults s c with
  | Some e => (Failure e, s)
  | None => run
  end.

(** The response for an object with bytes [c], and the store once it
    has handed the response out. *)
Definition response_for (c : bytes) (s : Store) : Response :=
  {| rid := next_rid s; reads := delivery s c; resp_truthy := true |}.

Definition opened (s : Store) : Store :=
  {| buckets := buckets s; contents := contents s; faults := faults s;
     delivery := delivery s; next_rid := Datatypes.S (next_rid s) |}.

Definition keys_under (b p : string) (s : Store) : list string :=
  map (fun o => snd (fst o))
      (filter (fun o => String.eqb b (fst (fst o))
                        && String.prefix p (snd (fst o)))
              (contents s)).

Definition client : Minio Store :=
  {| bucket_exists b s :=
       guarded (CBucketExists b) s
               (Success (existsb (String.eqb b) (buckets s)), s);
     make_bucket b s :=
       guarded (CMakeBucket b) s
               (Success tt,
                {| buckets := b :: buckets s; contents := contents s;
                   faults := faults s; delivery := delivery s;
                   next_rid := next_rid s |});
     list_objects b p s :=
       match faults s (CListObjects b p) with
       | Some e => (([], Some e), s)
       | None => ((keys_under b p s, None), s)
       end;
     stat_object b k s :=
       guarded (CStatObject b k) s
               (match lookup b k s with
                | Some _ => (Success tt, s)
                | None => (Failure (no_such_key k), s)
                end);
     copy_object db dk sb sk s :=
       guarded (CCopyObject db dk sb sk) s
               (match lookup sb sk s with
                | Some c => (Success tt, store_object db dk c s)
                | None => (Failure (no_such_key sk), s)
                end);
     remove_object b k s :=
       guarded (CRemoveObject b k) s
               (match lookup b k s with
                | Some _ => (Success tt, drop_object b k s)
                | None => (Failure (no_such_key k), s)
                end);
     put_object b k data ct ps s :=
       guarded (CPutObject b k ct ps) s
               (Success tt, store_object b k data s);
     get_object b k s :=
       guarded (CGetObject b k) s
               (match lookup b k s with
                | Some c =>
                    (Success (response_for c s), opened s)
                | None => (Failure (no_such_key k), s)
                end);
     presigned_url method b k expiry s :=
       guarded (CPresignedUrl method b k expiry) s
               (Success ("http://localhost:9000/" ++ b ++ "/" ++ k), s)
  |}.

(** What [get_object] answers. *)
Definition get_object_of (b k : string) (s : Store) : outcome Response :=
  fst (get_object client b k s).

(** The keys of a bucket. *)
Definition keys_of (b : string) (s : Store) : list string :=
  keys_under b "" s.

Definition bytes_of_string (t : string) : bytes := list_byte_of_string t.

End Mem.

(** The world a call starts in: no event yet.  The local variables of
    the transfer service start unbound, the counters are reset by
    [move_minio_prefix] itself. *)
Definition transfer_world {S : Type} (s : S) : World S TransferLocals :=
  {| backend := s; history := []; locals := unbound |}.

Definition migration_world {S : Type} (s : S) : World S Counters :=
  {| backend := s; history := [];
     locals := {| moved := 0; copied := 0; skipped := 0; errors := 0 |} |}.

(** The store of the scenario of the specification: bucket [hello] with
    two objects under [hello5/hello2/], bucket [hello2] empty. *)
Definition scenario_store : Mem.Store :=
  {| Mem.buckets := ["hello"; "hello2"];
     Mem.contents :=
       [("hello", "hello5/hello2/a.txt", Mem.bytes_of_string "A");
        ("hello", "hello5/hello2/b/c.txt", Mem.bytes_of_string "C")];
     Mem.faults := Mem.no_faults;
     Mem.delivery := Mem.one_chunk;
     Mem.next_rid := 0 |}.

(** Stores that refuse some calls. *)
Definition access_denied : exn := S3Error "AccessDenied" "Access Denied.".

Definition refusing (p : Call -> bool) (s : Mem.Store) : Mem.Store :=
  {| Mem.buckets := Mem.buckets s;
     Mem.contents := Mem.contents s;
     Mem.faults := fun c => if p c then Some access_denied else None;
     Mem.delivery := Mem.delivery s;
     Mem.next_rid := Mem.next_rid s |}.

Definition is_stat (c : Call) : bool :=
  match c with CStatObject _ _ => true | _ => false end.
Definition is_copy (c : Call) : bool :=
  match c with CCopyObject _ _ _ _ => true | _ => false end.
Definition is_remove (c : Call) : bool :=
  match c with CRemoveObject _ _ => true | _ => false end.
Definition is_put (c : Call) : bool :=
  match c with CPutObject _ _ _ _ => true | _ => false end.
(** The scenario store without its source bucket. *)
Definition no_source_store : Mem.Store :=
  {| Mem.buckets := ["hello2"];
     Mem.contents := [];
     Mem.faults := Mem.no_faults;
     Mem.delivery := Mem.one_chunk;
     Mem.next_rid := 0 |}.

(** The world a computation stopped in. *)
Definition world_of {W A} (g : Gen W A) : W :=
  match g with
  | Done _ w => w
  | Yield _ w _ => w
  end.

(** ** Construction of the service (minio_bc.py) *)

(** [MinIOSettings]: the fields; their values come from the environment
    or from the defaults of the class. *)
Record MinIOSettings : Type := mkMinIOSettings {
  minio_endpoint : string;
  minio_access_key : string;
  minio_secret_key : string;
  minio_secure : bool;
  minio_bucket_name : string
}.

Section Construction.
Variable S : Type.

(** Calling a method as a statement or in an expression: what it
    returns is the value of the call, [None] when it falls off its end;
    its exceptions go on to the caller; the caller has its own local
    variables [frame] back afterwards. *)
Definition back_in {L : Type} (frame : L) (w : World S L) : World S L :=
  {| backend := backend w; history := history w; locals := frame |}.

Fixpoint invoke {L : Type} (frame : L) (g : Gen (World S L) unit)
  : Gen (World S L) value_ :=
  match g with
  | Done (Normal _) w => Done (Normal VNone) (back_in frame w)
  | Done (Returned v) w => Done (Normal v) (back_in frame w)
  | Done (Raised e) w => Done (Raised e) (back_in frame w)
  | Done Closed w => Done Closed (back_in frame w)
  | Yield chunk w k => Yield chunk w (fun s w' => invoke frame (k s w'))
  end.

(** [MinIOService.__init__]: [client] is the [Minio] object built from the
    settings (building it calls nothing); the result of
    [_ensure_bucket_exists] is not looked at. *)
Definition __init__ (client : Minio S) (settings : MinIOSettings)
  : M (World S TransferLocals) unit :=
  Py.bind (fun w => invoke (locals w)
                           (_ensure_bucket_exists client
                              (minio_bucket_name settings) w))
          (fun _ => Py.ret tt).

End Construction.

(** The calls that went to the store, most recent first. *)
Definition store_calls (h : list Event) : list Event :=
  filter (is_call is_network) h.

Definition is_make_bucket (c : Call) : bool :=
  match c with CMakeBucket _ => true | _ => false end.
Definition is_data_close (c : Call) : bool :=
  match c with CDataClose => true | _ => false end.
Definition is_read (c : Call) : bool :=
  match c with CRead _ _ => true | _ => false end.
Definition is_transfer (c : Call) : bool :=
  match c with
  | CStatObject _ _ | CCopyObject _ _ _ _ | CRemoveObject _ _ => true
  | _ => false
  end.

(** [content_type or "application/octet-stream"]. *)
Definition content_type_or_default (content_type : option string) : string :=
  match content_type with
  | Some c => if PyStr.truthy c then c else "application/octet-stream"
  | None => "application/octet-stream"
  end.

(** A returned value that is a [Result] is a failure with the defaults of
    [Err]: not ok, no value, an error that is not retryable. *)
Definition failure_envelope (v : value_) : Prop :=
  match v with
  | VResult r =>
      ok r = false /\ value r = None /\
      exists e, error r = Some e /\ retryable e = false
  | _ => True
  end.

(** A store that delivers an object in two chunks and an empty one. *)
Definition two_chunk_store : Mem.Store :=
  {| Mem.buckets := Mem.buckets scenario_store;
     Mem.contents := Mem.contents scenario_store;
     Mem.faults := Mem.no_faults;
     Mem.delivery :=
       fun c => [ReadBytes c; ReadBytes c; ReadBytes []; ReadBytes c];
     Mem.next_rid := 0 |}.


(** ** What the migration expects of a store

    [content s b k] is what the store in state [s] holds in bucket [b]
    under key [k].  The questions to the store change nothing; a listing
    under a prefix hands out keys that start with it; a copy that returns
    had a source, has written it to the destination and nothing else; a
    copy that raises has changed nothing; a delete that returns has
    removed its key and nothing else; a delete that raises has changed
    nothing. *)
Record StoreContract (S : Type) (client : Minio S)
       (content : S -> string -> string -> option bytes) : Prop :=
  mkStoreContract {
  asks_bucket_exists : forall b s b' k,
    content (snd (bucket_exists client b s)) b' k = content s b' k;
  asks_make_bucket : forall b s b' k,
    content (snd (make_bucket client b s)) b' k = content s b' k;
  asks_list_objects : forall b p s b' k,
    content (snd (list_objects client b p s)) b' k = content s b' k;
  lists_under_prefix : forall b p s,
    Forall (fun key => PyStr.startswith key p = true)
           (fst (fst (list_objects client b p s)));
  asks_stat_object : forall b k s b' k',
    content (snd (stat_object client b k s)) b' k' = content s b' k';
  copy_returned : forall db dk sb sk s s',
    copy_object client db dk sb sk s = (Success tt, s') ->
    content s sb sk <> None /\
    content s' db dk = content s sb sk /\
    forall b k, b <> db \/ k <> dk -> content s' b k = content s b k;
  copy_raised : forall db dk sb sk s e s',
    copy_object client db dk sb sk s = (Failure e, s') ->
    forall b k, content s' b k = content s b k;
  remove_returned : forall b k s s',
    remove_object client b k s = (Success tt, s') ->
    content s' b k = None /\
    forall b' k', b' <> b \/ k' <> k -> content s' b' k' = content s b' k';
  remove_raised : forall b k s e s',
    remove_object client b k s = (Failure e, s') ->
    forall b' k', content s' b' k' = content s b' k'
}.

(** An object of the source bucket that the store held at the start is
    still there, or is at its destination, with the same bytes; and the
    source bucket holds nothing it did not hold at the start. *)
Definition nothing_lost {S : Type}
           (content : S -> string -> string -> option bytes)
           (src_bucket src_prefix dest_bucket dest_prefix : string)
           (start now : S) : Prop :=
  (forall k v,
      content start src_bucket k = Some v ->
      content now src_bucket k = Some v \/
      (PyStr.startswith k src_prefix = true /\
       content now dest_bucket (dest_prefix ++ tail_of src_prefix k) = Some v))
  /\
  (forall k,
      content now src_bucket k = content start src_bucket k \/
      content now src_bucket k = None).

(** * Properties *)

(** ** Key normalisation *)

Section StringFacts.

Lemma truthy_empty (s : string) : PyStr.truthy s = false <-> s = "".
Proof. destruct s; simpl; split; congruence. Qed.

Lemma truthy_app_sep (p : string) : PyStr.truthy (p ++ "/") = true.
Proof. destruct p; reflexivity. Qed.

Lemma endswith_app_sep (p : string) : PyStr.endswith (p ++ "/") "/" = true.
Proof.
  induction p as [|c p IH]; [reflexivity|].
  simpl PyStr.endswith. simpl append. rewrite IH. apply orb_true_r.
Qed.

Lemma eqb_app_sep (p : string) : String.eqb (p ++ "/") "/" = String.eqb p "".
Proof.
  destruct p as [|a p]; [reflexivity|].
  simpl. destruct p; simpl; apply andb_false_r.
Qed.

Lemma endswith_two_app_sep (p : string) :
  PyStr.endswith (p ++ "/") "//" = PyStr.endswith p "/".
Proof.
  induction p as [|c p IH]; [reflexivity|].
  change (PyStr.endswith (String c p ++ "/") "//")
    with (String.eqb (String c (p ++ "/")) "//"
          || PyStr.endswith (p ++ "/") "//").
  change (PyStr.endswith (String c p) "/")
    with (String.eqb (String c p) "/" || PyStr.endswith p "/").
  rewrite IH. f_equal.
  change (String.eqb (String c (p ++ "/")) "//")
    with (Ascii.eqb c "/" && String.eqb (p ++ "/") "/").
  change (String.eqb (String c p) "/")
    with (Ascii.eqb c "/" && String.eqb p "").
  now rewrite eqb_app_sep.
Qed.

Lemma endswith_two_one (p : string) :
  PyStr.endswith p "//" = true -> PyStr.endswith p "/" = true.
Proof.
  induction p as [|c p IH]; [discriminate|].
  intros H.
  change (String.eqb (String c p) "//" || PyStr.endswith p "//" = true) in H.
  change (String.eqb (String c p) "/" || PyStr.endswith p "/" = true).
  apply orb_true_iff in H. destruct H as [H|H].
  - apply String.eqb_eq in H. inversion H; subst. reflexivity.
  - rewrite (IH H). apply orb_true_r.
Qed.

Lemma lstrip_no_leading_sep (s : string) :
  PyStr.leading_sep (PyStr.lstrip s) = false.
Proof.
  induction s as [|c s IH]; [reflexivity|].
  simpl. destruct (PyStr.is_sep c) eqn:E; [exact IH|].
  simpl. exact E.
Qed.

Lemma rstrip_leading_sep (s : string) :
  PyStr.leading_sep s = false -> PyStr.leading_sep (PyStr.rstrip s) = false.
Proof.
  destruct s as [|c s]; [reflexivity|].
  simpl. intros E. rewrite E.
  destruct (PyStr.rstrip s); simpl; exact E.
Qed.

Lemma strip_no_leading_sep (s : string) :
  PyStr.leading_sep (PyStr.strip s) = false.
Proof. apply rstrip_leading_sep, lstrip_no_leading_sep. Qed.

Lemma leading_sep_app (a b : string) :
  PyStr.truthy a = true -> PyStr.leading_sep (a ++ b) = PyStr.leading_sep a.
Proof. destruct a; [discriminate|reflexivity]. Qed.

End StringFacts.

(** The object key is the join of the stripped directory and the file
    name. *)
Lemma build_object_name_join (directory filename : string) :
  _build_object_name directory filename
  = KeySpec.join (KeySpec.normalize directory) filename.
Proof.
  unfold _build_object_name, KeySpec.join, KeySpec.normalize.
  destruct (PyStr.strip directory); reflexivity.
Qed.

(** When the key starts with a separator. *)
Lemma build_object_name_leading_sep (directory filename : string) :
  PyStr.leading_sep (_build_object_name directory filename)
  = negb (PyStr.truthy (PyStr.strip directory)) && PyStr.leading_sep filename.
Proof.
  unfold _build_object_name.
  destruct (PyStr.truthy (PyStr.strip directory)) eqn:E; simpl; [|reflexivity].
  rewrite leading_sep_app by exact E. apply strip_no_leading_sep.
Qed.

(** C8, as the specification states it, fails: with a directory that
    holds no name and a file name that begins with a separator the key
    begins with a separator. *)
Lemma object_key_leading_separator_counterexample :
  _build_object_name "" "/a.txt" = "/a.txt" /\
  ~ (forall directory filename,
        PyStr.leading_sep (_build_object_name directory filename) = false).
Proof.
  split; [reflexivity|].
  intros H. specialize (H "" "/a.txt"). discriminate H.
Qed.

(** C8 (amended): for every (directory, filename) the object key is
    [join(normalize(directory), filename)], it is determined by the pair,
    and it begins with a separator exactly when the directory strips to
    the empty string and the file name itself begins with a separator; so
    it never does when the file name does not.  The key of ("", "a.txt")
    is "a.txt" and the key of ("/dir/", "a.txt") is "dir/a.txt". *)
Theorem object_key_normalisation :
  (forall directory filename,
      _build_object_name directory filename
      = KeySpec.join (KeySpec.normalize directory) filename) /\
  (forall d1 f1 d2 f2,
      d1 = d2 -> f1 = f2 -> _build_object_name d1 f1 = _build_object_name d2 f2) /\
  (forall directory filename,
      PyStr.leading_sep (_build_object_name directory filename) = true <->
      (PyStr.strip directory = "" /\ PyStr.leading_sep filename = true)) /\
  (forall directory filename,
      PyStr.leading_sep filename = false ->
      PyStr.leading_sep (_build_object_name directory filename) = false) /\
  _build_object_name "" "a.txt" = "a.txt" /\
  _build_object_name "/dir/" "a.txt" = "dir/a.txt".
Proof.
  split; [exact build_object_name_join|].
  split; [intros; subst; reflexivity|].
  split.
  { intros d f. rewrite build_object_name_leading_sep.
    rewrite andb_true_iff, negb_true_iff, truthy_empty. tauto. }
  split; [|split; reflexivity].
  intros d f H. rewrite build_object_name_leading_sep, H. apply andb_false_r.
Qed.

(** [normalize_prefix] applied twice is [normalize_prefix] applied once. *)
Lemma normalize_prefix_idempotent_all (p : string) :
  normalize_prefix (normalize_prefix p) = normalize_prefix p.
Proof.
  unfold normalize_prefix.
  destruct (PyStr.truthy p) eqn:T; simpl; [|reflexivity].
  destruct (PyStr.endswith p "/") eqn:E.
  - rewrite T, E. reflexivity.
  - rewrite truthy_app_sep, endswith_app_sep. reflexivity.
Qed.

(** C9, as the specification states it, fails: a prefix that already ends
    in two separators is returned as it is. *)
Lemma normalize_prefix_two_separators_counterexample :
  normalize_prefix "a//" = "a//" /\
  ~ (normalize_prefix "a//" = "" \/
     KeySpec.one_trailing_sep (normalize_prefix "a//")).
Proof.
  split; [reflexivity|].
  intros [H|[_ H]]; discriminate H.
Qed.

(** C9 (amended): for every string p, [normalize_prefix p] is empty or
    ends in a separator; trailing separators are not collapsed, the result
    ends in two separators exactly when p does, so it ends in exactly one
    whenever p does not end in two; [normalize_prefix] is idempotent; and
    "" gives "", "a" gives "a/", "a/" gives "a/". *)
Theorem normalize_prefix_shape :
  (forall p, normalize_prefix p = "" \/
             PyStr.endswith (normalize_prefix p) "/" = true) /\
  (forall p, PyStr.endswith (normalize_prefix p) "//" = PyStr.endswith p "//") /\
  (forall p, PyStr.endswith p "//" = false ->
             normalize_prefix p = "" \/
             KeySpec.one_trailing_sep (normalize_prefix p)) /\
  (forall p, normalize_prefix (normalize_prefix p) = normalize_prefix p) /\
  normalize_prefix "" = "" /\
  normalize_prefix "a" = "a/" /\
  normalize_prefix "a/" = "a/".
Proof.
  assert (shape : forall p, normalize_prefix p = "" \/
                            PyStr.endswith (normalize_prefix p) "/" = true).
  { intros p. unfold normalize_prefix.
    destruct (PyStr.truthy p); simpl; [|now left].
    destruct (PyStr.endswith p "/") eqn:E; right;
      [exact E | apply endswith_app_sep]. }
  assert (two : forall p, PyStr.endswith (normalize_prefix p) "//"
                          = PyStr.endswith p "//").
  { intros p. unfold normalize_prefix.
    destruct (PyStr.truthy p) eqn:T; simpl.
    - destruct (PyStr.endswith p "/") eqn:E; [reflexivity|].
      rewrite endswith_two_app_sep, E.
      destruct (PyStr.endswith p "//") eqn:E2; [|reflexivity].
      apply endswith_two_one in E2. congruence.
    - apply truthy_empty in T. subst p. reflexivity. }
  split; [exact shape|]. split; [exact two|].
  split.
  { intros p H. destruct (shape p) as [E|E]; [now left|right].
    split; [exact E|]. rewrite two. exact H. }
  split; [exact normalize_prefix_idempotent_all|].
  repeat split.
Qed.

(** A prefix that does not end in two separators. *)
Lemma normalize_prefix_shape_witness :
  PyStr.endswith "hello5/hello2" "//" = false /\
  (normalize_prefix "hello5/hello2" = "" \/
   KeySpec.one_trailing_sep (normalize_prefix "hello5/hello2")).
Proof.
  split; [reflexivity|].
  exact (proj1 (proj2 (proj2 normalize_prefix_shape)) "hello5/hello2" eq_refl).
Defined.

(** A file name that does not begin with a separator. *)
Lemma object_key_normalisation_witness :
  PyStr.leading_sep "a.txt" = false /\
  PyStr.leading_sep (_build_object_name "//" "a.txt") = false.
Proof.
  split; [reflexivity|].
  exact (proj1 (proj2 (proj2 (proj2 object_key_normalisation)))
               "//" "a.txt" eq_refl).
Defined.

(** ** Migration *)

(** Symbolic execution of the loop body: unfold it and split on what the
    store answers. *)
Ltac run_object :=
  unfold process_object, conflict_check, Py.bind, Py.try_except, call, print, log,
    incr_skipped, incr_copied, incr_moved, incr_errors, assign, Py.modify,
    Py.ret, Py.raise;
  cbn [Py.gbind Py.gexcept backend history locals negb];
  repeat (match goal with
          | |- context [stat_object ?c ?b ?k (backend ?w)] =>
              destruct (stat_object c b k (backend w)) as [[[]|?e] ?st] eqn:?Hstat
          | |- context [copy_object ?c ?a ?b ?d ?k ?x] =>
              destruct (copy_object c a b d k x) as [[[]|?e] ?st] eqn:?Hcopy
          | |- context [remove_object ?c ?b ?k ?x] =>
              destruct (remove_object c b k x) as [[[]|?e] ?st] eqn:?Hrem
          | |- context [match ?e with S3Error _ _ => _ | _ => _ end] => destruct e
          | |- context [if negb (not_found_code ?c) then _ else _] =>
              destruct (not_found_code c) eqn:?Hnf
          end; cbn [Py.gbind Py.gexcept backend history locals negb]).

Section HistoryFacts.
Variables src_bucket dest_bucket : string.
Variable dest_key_of : string -> string.

Lemma gbind_done {W A B} (c : completion A) (w : W) (f : A -> M W B) :
  Py.gbind (Done c w) f =
  match c with
  | Normal a => f a w
  | Returned v => Done (Returned v) w
  | Raised e => Done (Raised e) w
  | Closed => Done Closed w
  end.
Proof. destruct c; reflexivity. Qed.

Lemma guard_tail e h :
  copy_before_delete src_bucket dest_bucket dest_key_of (e :: h) = true ->
  copy_before_delete src_bucket dest_bucket dest_key_of h = true.
Proof.
  destruct e as [[] r| |]; cbn [copy_before_delete]; try tauto.
  intros H. apply andb_true_iff in H. tauto.
Qed.

Lemma guard_sound newer b k r older :
  copy_before_delete src_bucket dest_bucket dest_key_of
    (newer ++ ECall (CRemoveObject b k) r :: older)%list = true ->
  b = src_bucket /\
  exists older',
    older = ECall (CCopyObject dest_bucket (dest_key_of k) src_bucket k) true
            :: older'.
Proof.
  induction newer as [|e newer IH]; intros H.
  - cbn [app copy_before_delete] in H.
    apply andb_true_iff in H. destruct H as [H _].
    apply andb_true_iff in H. destruct H as [Hb H].
    apply String.eqb_eq in Hb. split; [exact Hb|].
    destruct older as [|[[] [] | |] older']; try discriminate H.
    apply andb_true_iff in H. destruct H as [H H4].
    apply andb_true_iff in H. destruct H as [H H3].
    apply andb_true_iff in H. destruct H as [H1 H2].
    apply String.eqb_eq in H1, H2, H3, H4. subst. eauto.
  - apply IH. eapply guard_tail. exact H.
Qed.

Lemma prelude_guard h :
  forallb is_prelude_event h = true ->
  copy_before_delete src_bucket dest_bucket dest_key_of h = true.
Proof.
  induction h as [|e h IH]; [reflexivity|].
  cbn [forallb]. intros H. apply andb_true_iff in H. destruct H as [He Hh].
  destruct e as [[] r| |]; try discriminate He; cbn [copy_before_delete]; auto.
Qed.

Lemma prelude_summaries h :
  forallb is_prelude_event h = true -> summaries h = 0.
Proof.
  induction h as [|e h IH]; [reflexivity|].
  cbn [forallb]. intros H. apply andb_true_iff in H. destruct H as [He Hh].
  destruct e as [[] r| |]; try discriminate He; apply IH; exact Hh.
Qed.

Lemma prelude_objects h :
  forallb is_prelude_event h = true -> objects h = [].
Proof.
  induction h as [|e h IH]; [reflexivity|].
  cbn [forallb]. intros H. apply andb_true_iff in H. destruct H as [He Hh].
  destruct e as [[] r| |]; try discriminate He;
    cbn [objects]; rewrite (IH Hh); reflexivity.
Qed.

Lemma objects_keys h : map fst (objects h) = listed_keys h.
Proof.
  induction h as [|e h IH]; [reflexivity|].
  destruct e as [c r|k|l]; cbn [objects listed_keys].
  - rewrite <- IH. destruct (objects h) as [|[k s] rest]; reflexivity.
  - cbn [map fst]. now rewrite IH.
  - rewrite <- IH. destruct (objects h) as [|[k s] rest]; reflexivity.
Qed.

Lemma count_cons s k st os :
  count s ((k, st) :: os)
  = (if ObjectState_eqb s st then 1 else 0) + count s os.
Proof.
  unfold count. cbn [filter snd].
  destruct (ObjectState_eqb s st); reflexivity.
Qed.

Lemma count_rev s os : count s (rev os) = count s os.
Proof.
  induction os as [|[k st] os IH]; [reflexivity|].
  rewrite count_cons. cbn [rev]. unfold count in *.
  rewrite filter_app, length_app, IH. cbn [filter snd].
  destruct (ObjectState_eqb s st); cbn [length]; lia.
Qed.

Lemma terminal_counts os :
  all_terminal os = true ->
  count Skipped os + count Moved os + count CopyFailed os
  + count DeleteFailed os = length os.
Proof.
  induction os as [|[k st] os IH]; [reflexivity|].
  unfold all_terminal. cbn [forallb snd]. intros H.
  apply andb_true_iff in H. destruct H as [Ht Hos].
  specialize (IH Hos). rewrite !count_cons. cbn [length].
  destruct st; try discriminate Ht; cbn [ObjectState_eqb]; lia.
Qed.

End HistoryFacts.

Section MigrationFacts.
Variable S : Type.
Variable client : Minio S.
Variables src_bucket src_prefix dest_bucket dest_prefix : string.
Variable overwrite : bool.

Let body := process_object client src_bucket src_prefix dest_bucket dest_prefix.
Let loop := for_each_object client src_bucket src_prefix dest_bucket dest_prefix.


(** One step of the loop. *)
Lemma for_each_object_cons ov key rest failing (w : World S Counters) :
  loop ov (key :: rest) failing w =
  Py.gbind (body ov key {| backend := backend w;
                           history := EListed key :: history w;
                           locals := locals w |})
           (fun _ => loop ov rest failing).
Proof. reflexivity. Qed.

Lemma body_guard ov key (w : World S Counters) :
  let dest_key_of k := dest_prefix ++ tail_of src_prefix k in
  copy_before_delete src_bucket dest_bucket dest_key_of (history w) = true ->
  exists c w',
    body ov key w = Done c w' /\
    copy_before_delete src_bucket dest_bucket dest_key_of (history w') = true.
Proof.
  intros dest_key_of G. unfold body. destruct ov; run_object.
  all: do 2 eexists; split; [reflexivity|];
    cbn [history copy_before_delete]; unfold dest_key_of at 1;
    rewrite ?String.eqb_refl; exact G.
Qed.

Lemma body_summaries ov key (w : World S Counters) :
  exists c w',
    body ov key w = Done c w' /\
    summaries (history w') = summaries (history w).
Proof.
  unfold body. destruct ov; run_object.
  all: do 2 eexists; split; reflexivity.
Qed.

(** What every object preserves, the loop preserves. *)
Lemma for_each_preserves (P : list Event -> Prop) ov :
  (forall k h, P h -> P (EListed k :: h)) ->
  (forall b p h, P h -> P (ECall (CListObjects b p) false :: h)) ->
  (forall key w, P (history w) ->
      exists c w', body ov key w = Done c w' /\ P (history w')) ->
  forall keys failing w, P (history w) ->
    exists c w', loop ov keys failing w = Done c w' /\ P (history w').
Proof.
  intros Hl Hf Hb keys failing.
  induction keys as [|key rest IH]; intros w Pw.
  - destruct failing as [e|]; do 2 eexists; (split; [reflexivity|]);
      cbn [history]; auto.
  - rewrite for_each_object_cons.
    destruct (Hb key {| backend := backend w;
                        history := EListed key :: history w;
                        locals := locals w |}) as (c & w1 & E & P1).
    { cbn [history]. auto. }
    rewrite E, gbind_done. destruct c; eauto.
Qed.

(** One listed object, processed to the end of the loop body, ends in
    exactly one terminal state, and the counters follow. *)
Lemma body_classifies ov key (w w' : World S Counters) :
  counters_agree (locals w) (objects (history w)) ->
  body ov key {| backend := backend w;
                 history := EListed key :: history w;
                 locals := locals w |} = Done (Normal tt) w' ->
  exists st,
    terminal st = true /\
    objects (history w') = (key, st) :: objects (history w) /\
    counters_agree (locals w') (objects (history w')).
Proof.
  intros (Am & Ac & As & Ae). unfold body.
  destruct ov; run_object; intros E; try discriminate E;
    injection E as <-; cbn [history objects step_state locals].
  all: eexists; split; [|split]; [|reflexivity|]; [reflexivity|];
    unfold counters_agree; cbn [moved copied skipped errors];
    rewrite !count_cons; cbn [ObjectState_eqb]; lia.
Qed.

Lemma loop_classifies ov keys failing :
  forall (w w' : World S Counters),
    all_terminal (objects (history w)) = true ->
    counters_agree (locals w) (objects (history w)) ->
    loop ov keys failing w = Done (Normal tt) w' ->
    all_terminal (objects (history w')) = true /\
    counters_agree (locals w') (objects (history w')) /\
    listed_keys (history w') = (rev keys ++ listed_keys (history w))%list.
Proof.
  induction keys as [|key rest IH]; intros w w' T A E.
  - destruct failing; cbn in E; [discriminate E|].
    injection E as <-. auto.
  - rewrite for_each_object_cons in E.
    destruct (body_summaries ov key
                {| backend := backend w; history := EListed key :: history w;
                   locals := locals w |}) as (c & w1 & E1 & _).
    rewrite E1, gbind_done in E.
    destruct c as [[]| | |]; try discriminate E.
    destruct (body_classifies ov key w A E1) as (st & Tst & O1 & A1).
    destruct (IH w1 w') as (T' & A' & L'); auto.
    { rewrite O1. unfold all_terminal in *. cbn [forallb snd].
      now rewrite Tst, T. }
    repeat split; try apply A'; auto.
    rewrite L', <- (objects_keys (history w1)), O1. cbn [map fst rev].
    now rewrite objects_keys, <- app_assoc.
Qed.

Lemma run_cases ov (s : S) :
  (exists e w',
      move_minio_prefix client src_bucket src_prefix dest_bucket dest_prefix
                        ov (migration_world s) = Done (Raised e) w' /\
      forallb is_prelude_event (history w') = true) \/
  (exists w0 l s0,
      l = fst (list_objects client src_bucket (normalize_prefix src_prefix) s0) /\
      forallb is_prelude_event (history w0) = true /\
      locals w0 = {| moved := 0; copied := 0; skipped := 0; errors := 0 |} /\
      move_minio_prefix client src_bucket src_prefix dest_bucket dest_prefix
                        ov (migration_world s)
      = Py.gbind (for_each_object client src_bucket
                    (normalize_prefix src_prefix) dest_bucket
                    (normalize_prefix dest_prefix) ov (fst l) (snd l) w0)
                 (fun _ => finish_run)).
Proof.
  unfold move_minio_prefix, ensure_bucket, start_listing, Py.bind, call,
    assign, Py.modify, Py.ret, Py.raise, Py.get, print, log, migration_world.
  cbn [Py.gbind backend history locals].
  destruct (bucket_exists client src_bucket s) as [[[|]|e] s1];
    cbn [Py.gbind backend history locals negb].
  2,3: left; do 2 eexists; split; reflexivity.
  destruct (bucket_exists client dest_bucket s1) as [[[|]|e] s2];
    cbn [Py.gbind backend history locals negb].
  3: left; do 2 eexists; split; reflexivity.
  2: destruct (make_bucket client dest_bucket s2) as [[[]|e] s3];
    cbn [Py.gbind backend history locals negb].
  3: left; do 2 eexists; split; reflexivity.
  all: match goal with
       | |- context [list_objects ?c ?b ?p ?x] =>
           destruct (list_objects c b p x) as [l s4] eqn:El;
           right; eexists; exists l, x
       end;
    (split; [rewrite El; reflexivity|]);
    cbn [Py.gbind backend history locals negb];
    split; [|split]; [| |reflexivity]; reflexivity.
Qed.

End MigrationFacts.

(** C1: in every run of [move_minio_prefix], whatever the store answers,
    every [remove_object] is on the source bucket and is immediately
    preceded in the trace by the [copy_object] of that very source key to
    its destination key in the destination bucket, and that copy returned
    without error: copy strictly precedes delete for every key. *)
Theorem copy_precedes_delete :
  forall (S : Type) (client : Minio S)
         (src_bucket src_prefix dest_bucket dest_prefix : string)
         (overwrite : bool) (s : S),
  let dest_key_of k :=
    normalize_prefix dest_prefix ++ tail_of (normalize_prefix src_prefix) k in
  exists c w',
    move_minio_prefix client src_bucket src_prefix dest_bucket dest_prefix
                      overwrite (migration_world s) = Done c w' /\
    forall before b k r after,
      trace w' = (before ++ ECall (CRemoveObject b k) r :: after)%list ->
      b = src_bucket /\
      exists earlier,
        before
        = (earlier ++
           [ECall (CCopyObject dest_bucket (dest_key_of k) src_bucket k)
                  true])%list.
Proof.
  intros S client src_bucket src_prefix dest_bucket dest_prefix overwrite s
         dest_key_of.
  assert (G : exists c w',
             move_minio_prefix client src_bucket src_prefix dest_bucket
               dest_prefix overwrite (migration_world s) = Done c w' /\
             copy_before_delete src_bucket dest_bucket dest_key_of
                                (history w') = true).
  { destruct (run_cases client src_bucket src_prefix dest_bucket dest_prefix
                        overwrite s)
      as [(e & w' & E & P)|(w0 & l & s0 & _ & P & _ & E)].
    - exists (Raised e), w'. split; [exact E|]. now apply prelude_guard.
    - rewrite E.
      destruct (for_each_preserves client src_bucket
                  (normalize_prefix src_prefix) dest_bucket
                  (normalize_prefix dest_prefix)
                  (fun h => copy_before_delete src_bucket dest_bucket
                              dest_key_of h = true)
                  overwrite) with (keys := fst l) (failing := snd l) (w := w0)
        as (c & w1 & E1 & G1).
      + intros; assumption.
      + intros; assumption.
      + intros key w Gw. now apply body_guard.
      + now apply prelude_guard.
      + rewrite E1, gbind_done.
        destruct c as [[]| | |]; do 2 eexists; (split; [reflexivity|]);
          cbn [history copy_before_delete]; exact G1. }
  destruct G as (c & w' & E & G). exists c, w'. split; [exact E|].
  intros before b k r after T.
  assert (H : history w'
              = (rev after ++ ECall (CRemoveObject b k) r :: rev before)%list).
  { unfold trace in T. apply (f_equal (@rev Event)) in T.
    rewrite rev_involutive, rev_app_distr in T. cbn [rev] in T.
    rewrite <- app_assoc in T. exact T. }
  rewrite H in G. apply guard_sound in G.
  destruct G as (Hb & older' & Ho). split; [exact Hb|].
  exists (rev older').
  rewrite <- (rev_involutive before), Ho. reflexivity.
Qed.

Lemma objects_print l h : objects (EPrint l :: h) = objects h.
Proof.
  cbn [objects]. destruct (objects h) as [|[k s] rest]; [reflexivity|].
  destruct s; reflexivity.
Qed.

(** C2: in every run of [move_minio_prefix] that completes, the objects
    that reached a classification are exactly the objects the listing
    handed out (the keys the store listed under the normalised source
    prefix), each with one terminal state; [moved] counts Moved, [copied]
    counts Moved and DeleteFailed, [skipped] counts Skipped, [errors]
    counts CopyFailed and DeleteFailed; skipped + moved + copyFailed +
    deleteFailed is the number of listed objects; and the summary line
    printed last carries these counters. *)
Theorem counters_classify_every_object :
  forall (S : Type) (client : Minio S)
         (src_bucket src_prefix dest_bucket dest_prefix : string)
         (overwrite : bool) (s : S) (w' : World S Counters),
    move_minio_prefix client src_bucket src_prefix dest_bucket dest_prefix
                      overwrite (migration_world s) = Done (Normal tt) w' ->
    let cls := classification w' in
    let c := locals w' in
    (exists s0 s1,
        list_objects client src_bucket (normalize_prefix src_prefix) s0
        = ((listing w', None), s1)) /\
    map fst cls = listing w' /\
    Forall (fun p => terminal (snd p) = true) cls /\
    moved c = count Moved cls /\
    copied c = count Moved cls + count DeleteFailed cls /\
    skipped c = count Skipped cls /\
    errors c = count CopyFailed cls + count DeleteFailed cls /\
    skipped c + moved c + count CopyFailed cls + count DeleteFailed cls
    = length (listing w') /\
    hd_error (history w') = Some (EPrint (summary_line c)).
Proof.
  intros S client sb sp db dp ov s w' E cls c.
  destruct (run_cases client sb sp db dp ov s)
    as [(e & w1 & E1 & _)|(w0 & l & s0 & Hl & P & Z & E1)];
    rewrite E1 in E; [discriminate E|].
  destruct (for_each_preserves client sb (normalize_prefix sp) db
              (normalize_prefix dp) (fun _ => True) ov) with
      (keys := fst l) (failing := snd l) (w := w0) as (cl & wl & El & _);
    auto.
  { intros key w _.
    destruct (body_summaries client sb (normalize_prefix sp) db
                (normalize_prefix dp) ov key w) as (c1 & w1 & B & _).
    eauto. }
  rewrite El, gbind_done in E.
  destruct cl as [[]| | |]; try discriminate E.
  unfold finish_run in E. injection E as <-.
  pose proof (prelude_objects _ P) as O0.
  destruct (loop_classifies client sb (normalize_prefix sp) db
              (normalize_prefix dp) ov (fst l) (snd l) w0 (w' := wl))
    as (T & (Am & Ac & As & Ae) & L).
  { now rewrite O0. }
  { rewrite O0, Z. repeat split. }
  { exact El. }
  rewrite <- (objects_keys (history w0)), O0, app_nil_r in L. cbn [map] in L.
  assert (Lw : listing
                 {| backend := backend wl;
                    history := EPrint (summary_line (locals wl)) :: history wl;
                    locals := locals wl |} = fst l).
  { unfold listing. cbn [history listed_keys]. now rewrite L, rev_involutive. }
  assert (Ow : objects (EPrint (summary_line (locals wl)) :: history wl)
               = objects (history wl)) by apply objects_print.
  subst cls c. unfold classification. cbn [history locals]. rewrite Ow, Lw.
  rewrite !count_rev.
  split.
  { (* the listing the store gave *)
    destruct (list_objects client sb (normalize_prefix sp) s0)
      as [[keys failing] s1] eqn:Els.
    cbn [fst] in Hl. subst l. cbn [fst snd] in *.
    exists s0, s1. rewrite Els.
    destruct failing as [e|]; [|reflexivity].
    (* a listing that fails cannot let the loop complete *)
    exfalso. clear - El.
    revert w0 El. induction keys as [|key rest IH]; intros w0 El.
    - cbn in El. discriminate El.
    - rewrite for_each_object_cons in El.
      destruct (body_summaries client sb (normalize_prefix sp) db
                  (normalize_prefix dp) ov key
                  {| backend := backend w0;
                     history := EListed key :: history w0;
                     locals := locals w0 |}) as (c1 & w1 & B & _).
      rewrite B, gbind_done in El.
      destruct c1 as [[]| | |]; try discriminate El. eauto. }
  split.
  { rewrite map_rev, objects_keys, L. apply rev_involutive. }
  split.
  { apply Forall_forall. intros p Hp. apply in_rev in Hp.
    unfold all_terminal in T. rewrite forallb_forall in T. now apply T. }
  repeat split; auto.
  pose proof (terminal_counts _ T) as Tc.
  rewrite <- (length_map fst), objects_keys, L, length_rev in Tc.
  lia.
Qed.

(** The scenario of the specification, with the destination already
    holding [a.txt]: one object skipped, one moved. *)
Lemma counters_classify_every_object_witness :
  let run :=
    move_minio_prefix Mem.client "hello" "hello5/hello2" "hello2"
      "hello8/hello2" false
      (migration_world
         (Mem.store_object "hello2" "hello8/hello2/a.txt" [] scenario_store)) in
  let w' := world_of run in
  run = Done (Normal tt) w' /\
  classification w'
  = [("hello5/hello2/a.txt", Skipped); ("hello5/hello2/b/c.txt", Moved)] /\
  locals w' = {| moved := 1; copied := 1; skipped := 1; errors := 0 |} /\
  skipped (locals w') + moved (locals w')
  + count CopyFailed (classification w')
  + count DeleteFailed (classification w') = length (listing w').
Proof.
  intros run w'.
  assert (E : run = Done (Normal tt) w') by (vm_compute; reflexivity).
  split; [exact E|].
  split; [vm_compute; reflexivity|]. split; [vm_compute; reflexivity|].
  exact (proj1 (proj2 (proj2 (proj2 (proj2 (proj2 (proj2 (proj2
           (counters_classify_every_object Mem.client "hello" "hello5/hello2"
              "hello2" "hello8/hello2" false _ E))))))))).
Defined.

Section FailureClasses.
Variable S : Type.
Variable client : Minio S.
Variables src_bucket src_prefix dest_bucket dest_prefix : string.

Let body := process_object client src_bucket src_prefix dest_bucket dest_prefix.
Let loop := for_each_object client src_bucket src_prefix dest_bucket dest_prefix.
Let dest_key key := dest_prefix ++ tail_of src_prefix key.

(** A missing source bucket: [RuntimeError], and nothing but the
    existence check has happened. *)
Lemma missing_source_bucket_aborts ov (s s1 : S) :
  bucket_exists client src_bucket s = (Success false, s1) ->
  move_minio_prefix client src_bucket src_prefix dest_bucket dest_prefix ov
                    (migration_world s)
  = Done (Raised (RuntimeError
                    ("Source bucket does not exist: " ++ src_bucket)))
         {| backend := s1;
            history := [ECall (CBucketExists src_bucket) true];
            locals := locals (migration_world s) |}.
Proof.
  intros H.
  unfold move_minio_prefix, Py.bind, call, Py.raise, migration_world.
  cbn [Py.gbind backend history locals]. rewrite H. reflexivity.
Qed.

(** A probe that fails with anything but a not-found [S3Error] ends the
    loop at this object; the rest of the listing is not touched. *)
Lemma fatal_probe_aborts key rest failing (w : World S Counters) e s1 :
  stat_object client dest_bucket (dest_key key) (backend w) = (Failure e, s1) ->
  fatal_probe e = true ->
  loop false (key :: rest) failing w
  = Done (Raised e)
         {| backend := s1;
            history := ECall (CStatObject dest_bucket (dest_key key)) false
                       :: EListed key :: history w;
            locals := locals w |}.
Proof.
  intros H F. unfold loop. rewrite for_each_object_cons.
  unfold process_object, conflict_check, Py.bind, Py.try_except, call.
  cbn [Py.gbind Py.gexcept backend history locals negb].
  fold (dest_key key). rewrite H.
  cbn [Py.gbind Py.gexcept backend history locals negb].
  destruct e; try reflexivity.
  unfold fatal_probe in F. unfold not_found_code. rewrite F. reflexivity.
Qed.

(** The loop body ends normally, or with the exception of a fatal
    probe; a copy or a delete that fails never ends it otherwise. *)
Lemma body_aborts_only_on_probe ov key (w : World S Counters) :
  exists c w',
    body ov key w = Done c w' /\
    (c = Normal tt \/
     exists e, c = Raised e /\ ov = false /\
               fst (stat_object client dest_bucket (dest_key key) (backend w))
               = Failure e /\
               fatal_probe e = true).
Proof.
  unfold body, dest_key. destruct ov; run_object.
  all: do 2 eexists; (split; [reflexivity|]); try (left; reflexivity).
  all: right; eexists; repeat split; try rewrite Hstat; try reflexivity.
  unfold fatal_probe. unfold not_found_code in Hnf. now rewrite Hnf.
Qed.

(** A conflict check that lets the object through has changed no
    counter. *)
Lemma conflict_check_through ov key (w w1 : World S Counters) :
  conflict_check client dest_bucket (dest_key key) ov w = Done (Normal false) w1 ->
  locals w1 = locals w.
Proof.
  destruct ov; run_object; intros E; try discriminate E;
    injection E as <-; reflexivity.
Qed.

(** A copy that fails: the object is counted in [errors] only and the
    body ends normally. *)
Lemma copy_failure_counted ov key (w w1 : World S Counters) e s2 :
  conflict_check client dest_bucket (dest_key key) ov w = Done (Normal false) w1 ->
  copy_object client dest_bucket (dest_key key) src_bucket key (backend w1)
  = (Failure e, s2) ->
  exists w',
    body ov key w = Done (Normal tt) w' /\
    errors (locals w') = errors (locals w) + 1 /\
    moved (locals w') = moved (locals w) /\
    copied (locals w') = copied (locals w) /\
    skipped (locals w') = skipped (locals w) /\
    hd_error (history w') = Some (EPrint (LError key e)).
Proof.
  intros C H. pose proof (conflict_check_through _ _ _ C) as L.
  unfold body, process_object, Py.bind at 1. fold (dest_key key).
  rewrite C. cbn [Py.gbind].
  unfold Py.bind, Py.try_except, call, print, log, incr_copied, incr_moved,
    incr_errors, assign, Py.modify.
  cbn [Py.gbind Py.gexcept backend history locals]. rewrite H.
  cbn [Py.gbind Py.gexcept backend history locals].
  eexists. split; [reflexivity|].
  cbn [locals history errors moved copied skipped hd_error]. rewrite L.
  repeat split.
Qed.

(** A delete that fails after its copy: the object is counted in
    [copied] and in [errors], and the body ends normally. *)
Lemma delete_failure_counted ov key (w w1 : World S Counters) e s2 s3 :
  conflict_check client dest_bucket (dest_key key) ov w = Done (Normal false) w1 ->
  copy_object client dest_bucket (dest_key key) src_bucket key (backend w1)
  = (Success tt, s2) ->
  remove_object client src_bucket key s2 = (Failure e, s3) ->
  exists w',
    body ov key w = Done (Normal tt) w' /\
    errors (locals w') = errors (locals w) + 1 /\
    copied (locals w') = copied (locals w) + 1 /\
    moved (locals w') = moved (locals w) /\
    skipped (locals w') = skipped (locals w) /\
    hd_error (history w') = Some (EPrint (LError key e)).
Proof.
  intros C H R. pose proof (conflict_check_through _ _ _ C) as L.
  unfold body, process_object, Py.bind at 1. fold (dest_key key).
  rewrite C. cbn [Py.gbind].
  unfold Py.bind, Py.try_except, call, print, log, incr_copied, incr_moved,
    incr_errors, assign, Py.modify.
  cbn [Py.gbind Py.gexcept backend history locals]. rewrite H.
  cbn [Py.gbind Py.gexcept backend history locals]. rewrite R.
  cbn [Py.gbind Py.gexcept backend history locals].
  eexists. split; [reflexivity|].
  cbn [locals history errors moved copied skipped hd_error]. rewrite L.
  repeat split.
Qed.

(** A run prints its summary when, and only when, it ends normally. *)
Lemma summary_iff_completed ov (s : S) :
  exists c w',
    move_minio_prefix client src_bucket src_prefix dest_bucket dest_prefix ov
                      (migration_world s) = Done c w' /\
    summaries (history w') = match c with Normal _ => 1 | _ => 0 end.
Proof.
  destruct (run_cases client src_bucket src_prefix dest_bucket dest_prefix
                      ov s)
    as [(e & w' & E & P)|(w0 & l & s0 & _ & P & _ & E)].
  - exists (Raised e), w'. split; [exact E|]. now apply prelude_summaries.
  - rewrite E.
    destruct (for_each_preserves client src_bucket
                (normalize_prefix src_prefix) dest_bucket
                (normalize_prefix dest_prefix)
                (fun h => summaries h = 0) ov)
      with (keys := fst l) (failing := snd l) (w := w0)
      as (c & w1 & E1 & G1).
    + intros; assumption.
    + intros; assumption.
    + intros key w Gw.
      destruct (body_summaries client src_bucket (normalize_prefix src_prefix)
                  dest_bucket (normalize_prefix dest_prefix) ov key w)
        as (c & w1 & B & Sm).
      exists c, w1. split; [exact B|]. now rewrite Sm.
    + now apply prelude_summaries.
    + rewrite E1, gbind_done.
      destruct c as [[]| | |]; do 2 eexists; (split; [reflexivity|]);
        unfold summaries in *; cbn [history filter is_summary summary_line length];
        now rewrite ?G1.
Qed.

End FailureClasses.

Section RunShape.
Variable S : Type.
Variable client : Minio S.
Variables src_bucket src_prefix dest_bucket dest_prefix : string.
Variable ov : bool.

Let sp := normalize_prefix src_prefix.
Let dp := normalize_prefix dest_prefix.
Let run := move_minio_prefix client src_bucket src_prefix dest_bucket
                             dest_prefix ov.
Let loop := for_each_object client src_bucket sp dest_bucket dp ov.
Let body := process_object client src_bucket sp dest_bucket dp ov.

(** Once the source bucket is there, the destination bucket is ensured
    and the listing is created, the run is the loop over what the store
    lists, started in the world these statements left, followed by the
    summary line. *)
Lemma run_after_prelude (s s1 : S) (w2 : World S Counters) keys failing s3 :
  bucket_exists client src_bucket s = (Success true, s1) ->
  ensure_bucket client dest_bucket
                {| backend := s1;
                   history := [ECall (CBucketExists src_bucket) true];
                   locals := locals (migration_world s) |}
  = Done (Normal tt) w2 ->
  list_objects client src_bucket sp (backend w2) = ((keys, failing), s3) ->
  run (migration_world s)
  = Py.gbind (loop keys failing
                {| backend := s3;
                   history := ECall (CListObjects src_bucket sp) true
                              :: history w2;
                   locals := {| moved := 0; copied := 0; skipped := 0;
                                errors := 0 |} |})
             (fun _ => finish_run).
Proof.
  intros H1 H2 H3.
  unfold run, move_minio_prefix, start_listing, Py.bind, call, assign,
    Py.modify, Py.ret, Py.raise, Py.get, print, log, migration_world.
  unfold migration_world in H2.
  cbn [Py.gbind backend history locals negb] in *.
  rewrite H1. cbn [Py.gbind backend history locals negb].
  rewrite H2. cbn [Py.gbind backend history locals negb].
  fold sp. rewrite H3. reflexivity.
Qed.

(** The loop over a listing, split at any of its keys. *)
Lemma for_each_object_app before keys failing :
  forall w : World S Counters,
    loop (before ++ keys)%list failing w
    = Py.gbind (loop before None w) (fun _ => loop keys failing).
Proof.
  induction before as [|key before IH]; intros w; [reflexivity|].
  cbn [app]. unfold loop. rewrite !for_each_object_cons.
  destruct (body_aborts_only_on_probe client src_bucket sp dest_bucket dp ov
              key {| backend := backend w; history := EListed key :: history w;
                     locals := locals w |})
    as (c & w1 & E & _).
  rewrite E, !gbind_done.
  destruct c as [[]| | |]; [apply IH|reflexivity..].
Qed.

(** A probe that fails fatally, at whatever place of the listing, ends
    the run with the exception of the probe. *)
Lemma run_aborts_on_fatal_probe (s s1 : S) (w2 : World S Counters)
      before key rest failing s3 (w : World S Counters) e s4 :
  bucket_exists client src_bucket s = (Success true, s1) ->
  ensure_bucket client dest_bucket
                {| backend := s1;
                   history := [ECall (CBucketExists src_bucket) true];
                   locals := locals (migration_world s) |}
  = Done (Normal tt) w2 ->
  list_objects client src_bucket sp (backend w2)
  = ((before ++ key :: rest)%list, failing, s3) ->
  loop before None
       {| backend := s3;
          history := ECall (CListObjects src_bucket sp) true :: history w2;
          locals := {| moved := 0; copied := 0; skipped := 0; errors := 0 |} |}
  = Done (Normal tt) w ->
  ov = false ->
  stat_object client dest_bucket (dp ++ tail_of sp key) (backend w)
  = (Failure e, s4) ->
  fatal_probe e = true ->
  run (migration_world s)
  = Done (Raised e)
         {| backend := s4;
            history := ECall (CStatObject dest_bucket (dp ++ tail_of sp key))
                             false
                       :: EListed key :: history w;
            locals := locals w |}.
Proof.
  intros H1 H2 H3 Hb Hov Hp Hf.
  rewrite (run_after_prelude _ H1 H2 H3), for_each_object_app, Hb.
  cbn [Py.gbind]. unfold loop. rewrite Hov.
  rewrite (fatal_probe_aborts client src_bucket sp dest_bucket dp key rest
             failing w Hp Hf).
  reflexivity.
Qed.

(** An object whose processing ends normally, a failed copy or delete
    included, leaves the run going on with the keys after it. *)
Lemma run_goes_on (s s1 : S) (w2 : World S Counters)
      before key rest failing s3 (w w1 : World S Counters) :
  bucket_exists client src_bucket s = (Success true, s1) ->
  ensure_bucket client dest_bucket
                {| backend := s1;
                   history := [ECall (CBucketExists src_bucket) true];
                   locals := locals (migration_world s) |}
  = Done (Normal tt) w2 ->
  list_objects client src_bucket sp (backend w2)
  = ((before ++ key :: rest)%list, failing, s3) ->
  loop before None
       {| backend := s3;
          history := ECall (CListObjects src_bucket sp) true :: history w2;
          locals := {| moved := 0; copied := 0; skipped := 0; errors := 0 |} |}
  = Done (Normal tt) w ->
  body key {| backend := backend w; history := EListed key :: history w;
              locals := locals w |}
  = Done (Normal tt) w1 ->
  run (migration_world s)
  = Py.gbind (loop rest failing w1) (fun _ => finish_run).
Proof.
  intros H1 H2 H3 Hb Hk.
  rewrite (run_after_prelude _ H1 H2 H3), for_each_object_app, Hb.
  cbn [Py.gbind]. unfold loop. rewrite for_each_object_cons.
  unfold body in Hk. rewrite Hk. reflexivity.
Qed.

End RunShape.

(** C3: the failures of a migration fall into two classes.  Fatal: a
    missing source bucket raises before anything else happens; a
    destination probe that fails with anything but a not-found code ends
    the loop at that object, and with it the run, at whatever place of the
    listing the object stands, with the exception of the probe and without
    a summary line (a run prints its one summary line exactly when it ends
    normally).  Isolated: the loop body can only end by an exception
    through such a probe; a copy that fails, or a delete that fails after
    its copy, is counted in [errors], the body ends normally, and the
    loop, and with it the run, goes on with the next key.  The run is tied
    to the store: once the source bucket is found, the destination bucket
    ensured and the listing created, it is the loop over the keys the
    store lists, followed by the summary line. *)
Theorem migration_failure_classes :
  forall (S : Type) (client : Minio S)
         (src_bucket src_prefix dest_bucket dest_prefix : string)
         (overwrite : bool),
    let sp := normalize_prefix src_prefix in
    let dp := normalize_prefix dest_prefix in
    let run := move_minio_prefix client src_bucket src_prefix dest_bucket
                                 dest_prefix overwrite in
    let body := process_object client src_bucket sp dest_bucket dp overwrite in
    let loop := for_each_object client src_bucket sp dest_bucket dp in
    let probe key := stat_object client dest_bucket (dp ++ tail_of sp key) in
    let copy key :=
      copy_object client dest_bucket (dp ++ tail_of sp key) src_bucket key in
    let through key w w1 :=
      conflict_check client dest_bucket (dp ++ tail_of sp key) overwrite w
      = Done (Normal false) w1 in
    let listed key (w : World S Counters) :=
      {| backend := backend w; history := EListed key :: history w;
         locals := locals w |} in
    (* the statements before the loop have gone through: the source bucket
       is there, the destination bucket is ensured, the store lists [keys]
       (and then stops, or raises [failing]) *)
    let started s (w2 : World S Counters) keys failing s3 :=
      exists s1,
        bucket_exists client src_bucket s = (Success true, s1) /\
        ensure_bucket client dest_bucket
                      {| backend := s1;
                         history := [ECall (CBucketExists src_bucket) true];
                         locals := locals (migration_world s) |}
        = Done (Normal tt) w2 /\
        list_objects client src_bucket sp (backend w2) = (keys, failing, s3) in
    (* the world the loop starts in *)
    let at_loop (w2 : World S Counters) s3 :=
      {| backend := s3;
         history := ECall (CListObjects src_bucket sp) true :: history w2;
         locals := {| moved := 0; copied := 0; skipped := 0; errors := 0 |} |} in
    (* fatal: the source bucket is missing *)
    (forall s s1,
        bucket_exists client src_bucket s = (Success false, s1) ->
        exists w',
          run (migration_world s)
          = Done (Raised (RuntimeError
                            ("Source bucket does not exist: " ++ src_bucket)))
                 w' /\
          history w' = [ECall (CBucketExists src_bucket) true] /\
          summaries (history w') = 0) /\
    (* fatal: the destination probe ends the loop *)
    (forall key rest failing w e s1,
        probe key (backend w) = (Failure e, s1) ->
        fatal_probe e = true ->
        loop false (key :: rest) failing w
        = Done (Raised e)
               {| backend := s1;
                  history :=
                    ECall (CStatObject dest_bucket (dp ++ tail_of sp key)) false
                    :: EListed key :: history w;
                  locals := locals w |}) /\
    (* a run is the loop over the keys the store lists, followed by the
       summary line *)
    (forall s w2 keys failing s3,
        started s w2 keys failing s3 ->
        run (migration_world s)
        = Py.gbind (loop overwrite keys failing (at_loop w2 s3))
                   (fun _ => finish_run)) /\
    (* fatal: the destination probe ends the run, wherever the object
       stands in the listing, and no summary is printed *)
    (forall s w2 before key rest failing s3 w e s4,
        started s w2 (before ++ key :: rest)%list failing s3 ->
        loop overwrite before None (at_loop w2 s3) = Done (Normal tt) w ->
        overwrite = false ->
        probe key (backend w) = (Failure e, s4) ->
        fatal_probe e = true ->
        exists w',
          run (migration_world s) = Done (Raised e) w' /\
          backend w' = s4 /\
          history w'
          = ECall (CStatObject dest_bucket (dp ++ tail_of sp key)) false
            :: EListed key :: history w /\
          summaries (history w') = 0) /\
    (* the summary is printed exactly by the runs that end normally *)
    (forall s, exists c w',
        run (migration_world s) = Done c w' /\
        summaries (history w') = match c with Normal _ => 1 | _ => 0 end) /\
    (* isolated: only the probe can end the body by an exception *)
    (forall key w, exists c w',
        body key w = Done c w' /\
        (c = Normal tt \/
         exists e, c = Raised e /\ overwrite = false /\
                   fst (probe key (backend w)) = Failure e /\
                   fatal_probe e = true)) /\
    (* isolated: a copy that fails *)
    (forall key w w1 e s2,
        through key w w1 ->
        copy key (backend w1) = (Failure e, s2) ->
        exists w',
          body key w = Done (Normal tt) w' /\
          errors (locals w') = errors (locals w) + 1 /\
          moved (locals w') = moved (locals w) /\
          copied (locals w') = copied (locals w) /\
          skipped (locals w') = skipped (locals w) /\
          hd_error (history w') = Some (EPrint (LError key e))) /\
    (* isolated: a delete that fails *)
    (forall key w w1 e s2 s3,
        through key w w1 ->
        copy key (backend w1) = (Success tt, s2) ->
        remove_object client src_bucket key s2 = (Failure e, s3) ->
        exists w',
          body key w = Done (Normal tt) w' /\
          errors (locals w') = errors (locals w) + 1 /\
          copied (locals w') = copied (locals w) + 1 /\
          moved (locals w') = moved (locals w) /\
          skipped (locals w') = skipped (locals w) /\
          hd_error (history w') = Some (EPrint (LError key e))) /\
    (* the loop goes on with the next key *)
    (forall key rest failing w w1,
        body key (listed key w) = Done (Normal tt) w1 ->
        loop overwrite (key :: rest) failing w = loop overwrite rest failing w1) /\
    (* and so does the run: after an object whose body ended normally, a
       failed copy or delete included, it is the loop over the keys that
       follow, and then the summary line *)
    (forall s w2 before key rest failing s3 w w1,
        started s w2 (before ++ key :: rest)%list failing s3 ->
        loop overwrite before None (at_loop w2 s3) = Done (Normal tt) w ->
        body key (listed key w) = Done (Normal tt) w1 ->
        run (migration_world s)
        = Py.gbind (loop overwrite rest failing w1) (fun _ => finish_run)).
Proof.
  intros S client sb sp0 db dp0 ov sp dp run body loop probe copy through
         listed started at_loop.
  split.
  { intros s s1 H. eexists. split; [|split].
    - unfold run. rewrite (missing_source_bucket_aborts _ _ _ _ _ _ _ H).
      reflexivity.
    - reflexivity.
    - reflexivity. }
  split; [intros; now apply fatal_probe_aborts|].
  split.
  { intros s w2 keys failing s3 (s1 & H1 & H2 & H3).
    unfold run, loop, at_loop, sp, dp.
    eapply run_after_prelude; eassumption. }
  split.
  { intros s w2 before key rest failing s3 w e s4 (s1 & H1 & H2 & H3)
           Hb Hov Hp Hf.
    assert (E := @run_aborts_on_fatal_probe S client sb sp0 db dp0 ov s s1 w2
                   before key rest failing s3 w e s4 H1 H2 H3 Hb Hov Hp Hf).
    eexists. split; [exact E|]. split; [reflexivity|]. split; [reflexivity|].
    destruct (summary_iff_completed client sb sp0 db dp0 ov s)
      as (c & w' & E' & Sm).
    rewrite E in E'. injection E' as <- <-. exact Sm. }
  split; [intros; apply summary_iff_completed|].
  split; [intros; apply body_aborts_only_on_probe|].
  split; [intros; eapply copy_failure_counted; eassumption|].
  split; [intros; eapply delete_failure_counted; eassumption|].
  split.
  { intros key rest failing w w1 H.
    unfold loop. rewrite for_each_object_cons.
    unfold body, listed in H. now rewrite H. }
  intros s w2 before key rest failing s3 w w1 (s1 & H1 & H2 & H3) Hb Hk.
  exact (@run_goes_on S client sb sp0 db dp0 ov s s1 w2 before key rest
                      failing s3 w w1 H1 H2 H3 Hb Hk).
Qed.

(** The scenario store, with the source bucket missing, and with the
    probe, the copy and the delete refused in turn: the run with the probe
    refused raises at the first object and prints no summary; the run
    with the copy refused goes on to the second object. *)
Lemma migration_failure_classes_witness :
  let key := "hello5/hello2/a.txt" in
  let next := "hello5/hello2/b/c.txt" in
  let dest_key := "hello8/hello2/a.txt" in
  let run := move_minio_prefix Mem.client "hello" "hello5/hello2" "hello2"
                               "hello8/hello2" false in
  let body := process_object Mem.client "hello" "hello5/hello2/" "hello2"
                             "hello8/hello2/" false in
  let loop := for_each_object Mem.client "hello" "hello5/hello2/" "hello2"
                              "hello8/hello2/" false in
  let prelude := [ECall (CListObjects "hello" "hello5/hello2/") true;
                  ECall (CBucketExists "hello2") true;
                  ECall (CBucketExists "hello") true] in
  let w_stat := migration_world (refusing is_stat scenario_store) in
  let w_copy := migration_world (refusing is_copy scenario_store) in
  let w_remove := migration_world (refusing is_remove scenario_store) in
  (exists w',
      run (migration_world no_source_store)
      = Done (Raised (RuntimeError "Source bucket does not exist: hello")) w' /\
      history w' = [ECall (CBucketExists "hello") true] /\
      summaries (history w') = 0) /\
  (exists w',
      run w_stat = Done (Raised access_denied) w' /\
      backend w' = refusing is_stat scenario_store /\
      history w' = (ECall (CStatObject "hello2" dest_key) false
                    :: EListed key :: prelude)%list /\
      summaries (history w') = 0) /\
  (exists w', body key w_copy = Done (Normal tt) w' /\
              errors (locals w') = 1 /\ moved (locals w') = 0 /\
              copied (locals w') = 0 /\ skipped (locals w') = 0 /\
              hd_error (history w') = Some (EPrint (LError key access_denied))) /\
  (exists w', body key w_remove = Done (Normal tt) w' /\
              errors (locals w') = 1 /\ copied (locals w') = 1 /\
              moved (locals w') = 0 /\ skipped (locals w') = 0 /\
              hd_error (history w') = Some (EPrint (LError key access_denied))) /\
  (exists w1,
      run w_copy = Py.gbind (loop [next] None w1) (fun _ => finish_run) /\
      hd_error (history w1) = Some (EPrint (LError key access_denied)) /\
      errors (locals w1) = 1).
Proof.
  intros key next dest_key run body loop prelude w_stat w_copy w_remove.
  pose proof (migration_failure_classes Mem.client "hello" "hello5/hello2"
                "hello2" "hello8/hello2" false) as H.
  cbv zeta in H.
  destruct H as (H1 & _ & _ & H4 & _ & _ & H7 & H8 & _ & H10).
  split.
  { apply (H1 no_source_store no_source_store). reflexivity. }
  split.
  { apply (H4 (refusing is_stat scenario_store)
              {| backend := refusing is_stat scenario_store;
                 history := [ECall (CBucketExists "hello2") true;
                             ECall (CBucketExists "hello") true];
                 locals := locals w_stat |}
              [] key [next] None (refusing is_stat scenario_store)
              {| backend := refusing is_stat scenario_store;
                 history := prelude;
                 locals := locals w_stat |}
              access_denied (refusing is_stat scenario_store));
      try reflexivity.
    exists (refusing is_stat scenario_store). repeat split. }
  split.
  { apply (H7 key w_copy
              (world_of (conflict_check Mem.client "hello2" dest_key false w_copy))
              access_denied (refusing is_copy scenario_store));
      vm_compute; reflexivity. }
  split.
  { apply (H8 key w_remove
              (world_of (conflict_check Mem.client "hello2" dest_key false w_remove))
              access_denied
              (Mem.store_object "hello2" dest_key (Mem.bytes_of_string "A")
                                (refusing is_remove scenario_store))
              (Mem.store_object "hello2" dest_key (Mem.bytes_of_string "A")
                                (refusing is_remove scenario_store)));
      vm_compute; reflexivity. }
  exists (world_of
            (body key {| backend := refusing is_copy scenario_store;
                         history := (EListed key :: prelude)%list;
                         locals := locals w_copy |})).
  split; [|split; reflexivity].
  apply (H10 (refusing is_copy scenario_store)
             {| backend := refusing is_copy scenario_store;
                history := [ECall (CBucketExists "hello2") true;
                            ECall (CBucketExists "hello") true];
                locals := locals w_copy |}
             [] key [next] None (refusing is_copy scenario_store)
             {| backend := refusing is_copy scenario_store;
                history := prelude;
                locals := locals w_copy |});
    try reflexivity.
  exists (refusing is_copy scenario_store). repeat split.
Defined.

(** ** Transfer service *)

Ltac run_transfer :=
  unfold enter, set_object_name, set_response, close_and_release, effect,
    call, print, log, assign, read_local, Py.try_except, Py.try_finally,
    Py.modify, Py.ret, Py.raise, Py.return_Err, Py.return_, Py.bind;
  cbn [Py.gbind Py.gexcept Py.gfinally backend history locals negb
       object_name response].

Section StreamFacts.
Variable S : Type.
Variable client : Minio S.
Variable bucket_name : string.

(** The world in which the read loop starts. *)
Let opened (name : string) (resp : Response) (s1 : S)
    (w : World S TransferLocals) : World S TransferLocals :=
  {| backend := s1;
     history := ECall (CGetObject bucket_name name) true :: history w;
     locals := {| object_name := Some name; response := Some resp |} |}.

Lemma stream_file_opened directory filename (w : World S TransferLocals)
      resp s1 :
  get_object client bucket_name (_build_object_name directory filename)
             (backend w) = (Success resp, s1) ->
  stream_file client bucket_name directory filename w
  = guarded_reads resp
      (read_loop (rid resp) (reads resp)
                 (opened (_build_object_name directory filename) resp s1 w)).
Proof.
  intros H. unfold stream_file, guarded_reads. run_transfer.
  rewrite H. reflexivity.
Qed.

(** When the store fails to open the object, whatever the failure, the
    outer [finally] reads the unbound [response] and its
    [UnboundLocalError] replaces the [Err] value the [except] clause
    returned. *)
Lemma stream_file_open_failure directory filename (w : World S TransferLocals)
      e s1 :
  get_object client bucket_name (_build_object_name directory filename)
             (backend w) = (Failure e, s1) ->
  stream_file client bucket_name directory filename w
  = Done (Raised (UnboundLocalError "response"))
         {| backend := s1;
            history :=
              ECall (CGetObject bucket_name
                       (_build_object_name directory filename)) false
              :: history w;
            locals := {| object_name :=
                           Some (_build_object_name directory filename);
                         response := None |} |}.
Proof.
  intros H. unfold stream_file, stream_handlers, stream_finally. run_transfer.
  rewrite H. cbn [Py.gbind Py.gexcept Py.gfinally].
  destruct e as [c t| | | | |]; cbn [Py.gexcept Py.gfinally Py.gbind];
    try reflexivity.
  destruct (String.eqb c "NoSuchKey"); reflexivity.
Qed.

Lemma abandon_world_step {W A} n chunk (w : W) (k : signal -> W -> Gen W A) :
  snd (fst (abandon_after (Datatypes.S n) (Yield chunk w k)))
  = snd (fst (abandon_after n (k Next w))).
Proof.
  cbn [abandon_after].
  destruct (abandon_after n (k Next w)) as [[c w'] chunks]. reflexivity.
Qed.

Lemma drain_world_step {W A} chunk (w : W) (k : signal -> W -> Gen W A) :
  snd (fst (drain (Yield chunk w k))) = snd (fst (drain (k Next w))).
Proof.
  cbn [drain]. destruct (drain (k Next w)) as [[c w'] chunks]. reflexivity.
Qed.

Lemma calls_cons p e h :
  calls p (e :: h) = (if is_call p e then 1 else 0) + calls p h.
Proof. unfold calls. cbn [filter]. destruct (is_call p e); reflexivity. Qed.

(** Run the two [finally] clauses and the [except] clauses around a read
    loop that has finished. *)
Ltac finish_reads Hr Ht :=
  unfold guarded_reads, stream_finally, stream_handlers;
  run_transfer;
  repeat (first
    [ rewrite Hr | rewrite Ht
    | match goal with
      | |- context [match ?e with S3Error _ _ => _ | _ => _ end] => destruct e
      | |- context [if String.eqb ?c "NoSuchKey" then _ else _] =>
          destruct (String.eqb c "NoSuchKey")
      | |- context [match object_name ?l with _ => _ end] =>
          destruct (object_name l)
      end ];
    run_transfer).

Section CloseCount.
Variable resp : Response.
Variable p : Call -> bool.
Hypothesis p_read : forall n, p (CRead (rid resp) n) = false.

(** How often [p] holds of the pair [close(); release_conn()]. *)
Let pair_count : nat :=
  (if p (CClose (rid resp)) then 1 else 0)
  + (if p (CReleaseConn (rid resp)) then 1 else 0).

Ltac count_pairs :=
  cbn [abandon_after drain fst snd history];
  rewrite !calls_cons; cbn [is_call]; rewrite ?p_read;
  unfold pair_count; lia.

(** Once the response is there and is truthy, the pair runs twice,
    whenever the consumer stops asking. *)
Lemma guarded_reads_abandoned script :
  resp_truthy resp = true ->
  forall (w : World S TransferLocals),
    response (locals w) = Some resp ->
    forall n,
      calls p (history (snd (fst (abandon_after n
                 (guarded_reads resp (read_loop (rid resp) script w))))))
      = 2 * pair_count + calls p (history w).
Proof.
  intros Ht. induction script as [|[chunk|e] rest IH]; intros w Hr n.
  - cbn [read_loop]. finish_reads Hr Ht. destruct n; count_pairs.
  - destruct chunk as [|b chunk].
    + cbn [read_loop]. finish_reads Hr Ht. destruct n; count_pairs.
    + cbn [read_loop]. unfold guarded_reads, Py.yield_. run_transfer.
      destruct n.
      * cbn [abandon_after]. finish_reads Hr Ht. count_pairs.
      * rewrite abandon_world_step.
        etransitivity.
        { refine (IH {| backend := backend w;
                        history := ECall (CRead (rid resp) chunk_size) true
                                   :: history w;
                        locals := locals w |} Hr n). }
        cbn [history]. rewrite calls_cons. cbn [is_call].
        now rewrite p_read.
  - cbn [read_loop]. finish_reads Hr Ht.
    all: destruct n; count_pairs.
Qed.

(** The same when the consumer reads to the end. *)
Lemma guarded_reads_drained script :
  resp_truthy resp = true ->
  forall (w : World S TransferLocals),
    response (locals w) = Some resp ->
    calls p (history (snd (fst (drain
               (guarded_reads resp (read_loop (rid resp) script w))))))
    = 2 * pair_count + calls p (history w).
Proof.
  intros Ht. induction script as [|[chunk|e] rest IH]; intros w Hr.
  - cbn [read_loop]. finish_reads Hr Ht. count_pairs.
  - destruct chunk as [|b chunk].
    + cbn [read_loop]. finish_reads Hr Ht. count_pairs.
    + cbn [read_loop]. unfold guarded_reads, Py.yield_. run_transfer.
      rewrite drain_world_step.
      etransitivity.
      { refine (IH {| backend := backend w;
                      history := ECall (CRead (rid resp) chunk_size) true
                                 :: history w;
                      locals := locals w |} Hr). }
      cbn [history]. rewrite calls_cons. cbn [is_call].
      now rewrite p_read.
  - cbn [read_loop]. finish_reads Hr Ht.
    all: count_pairs.
Qed.

End CloseCount.

End StreamFacts.

(** C4: [upload_stream] called with an empty file name fails in the
    validation step: the caller gets an exception, the store is not
    called ([put_object] in particular) and is left as it was, so no key
    is created; the only thing that happens besides is the closing of the
    input stream by the [finally] clause.  The exception that reaches the
    caller is the [UnboundLocalError] of the [except] clause, which
    formats [object_name] before it is bound. *)
Theorem upload_stream_empty_filename :
  forall (S : Type) (client : Minio S) (bucket_name : string)
         (data : BinaryIO) (directory : string) (content_type : option string)
         (part_size : N) (w : World S TransferLocals),
  exists w',
    upload_stream client bucket_name data directory "" content_type part_size w
    = Done (Raised (UnboundLocalError "object_name")) w' /\
    backend w' = backend w /\
    calls is_network (history w') = calls is_network (history w) /\
    history w'
    = ((if closable data
        then [ECall CDataClose
                (match close_fails data with None => true | Some _ => false end)]
        else []) ++ history w)%list.
Proof.
  intros. unfold upload_stream, data_close. run_transfer.
  destruct (closable data); [destruct (close_fails data)|]; run_transfer;
    eexists; (split; [reflexivity|]); repeat split.
Qed.

(** C5 (what the code does): when [get_object] fails to open the object,
    because the store reports the key absent or for any other reason, the
    first [next()] on the generator raises [UnboundLocalError]: the
    [except] clause has built its [Err] with code NOT_FOUND or
    STREAM_FAILED (or has failed to build the one with code UNKNOWN), and
    the outer [finally] clause then reads [response], which was never
    bound, so that its exception replaces whatever the [except] clause
    ended with.  No chunk is produced and no value, of any code, comes
    back from the generator, whatever the consumer does. *)
Theorem stream_file_open_failure_is_lost :
  forall (S : Type) (client : Minio S) (bucket_name directory filename : string)
         (w : World S TransferLocals) (e : exn) (s1 : S),
    let name := _build_object_name directory filename in
    get_object client bucket_name name (backend w) = (Failure e, s1) ->
    let g := stream_file client bucket_name directory filename w in
    (exists w',
        g = Done (Raised (UnboundLocalError "response")) w' /\
        backend w' = s1 /\
        history w' = ECall (CGetObject bucket_name name) false :: history w) /\
    fst (fst (drain g)) = Raised (UnboundLocalError "response") /\
    snd (drain g) = [] /\
    forall v, ~ may_return g v.
Proof.
  intros S client b d f w e s1 name H g. subst g name.
  rewrite (stream_file_open_failure _ _ _ _ _ H).
  split; [eexists; repeat split|].
  split; [reflexivity|]. split; [reflexivity|].
  intros v Hv. inversion Hv.
Qed.

(** A key that is not in the store of the scenario: the store reports
    [NoSuchKey], the generator raises [UnboundLocalError] and returns no
    value with code NOT_FOUND. *)
Lemma stream_file_open_failure_is_lost_witness :
  let g := stream_file Mem.client "hello" "dir" "missing.txt"
                       (transfer_world scenario_store) in
  Mem.get_object_of "hello" "dir/missing.txt" scenario_store
  = Failure (Mem.no_such_key "dir/missing.txt") /\
  fst (fst (drain g)) = Raised (UnboundLocalError "response") /\
  forall v, may_return g v -> error_code v <> Some NOT_FOUND.
Proof.
  intros g.
  pose proof (stream_file_open_failure_is_lost Mem.client "hello" "dir"
                "missing.txt" (transfer_world scenario_store)
                (e := Mem.no_such_key "dir/missing.txt")
                (s1 := scenario_store) eq_refl)
    as (_ & Hd & _ & Hn).
  split; [reflexivity|]. split; [exact Hd|].
  intros v Hv. destruct (Hn v Hv).
Defined.

(** C6 (what the code does): once [get_object] has returned a truthy
    response, [close()] and [release_conn()] are each called exactly twice
    on it, whether the consumer reads to the end or stops after any number
    of chunks, and whether or not a [read] fails on the way. *)
Theorem stream_file_releases_twice :
  forall (S : Type) (client : Minio S) (bucket_name directory filename : string)
         (w : World S TransferLocals) (resp : Response) (s1 : S),
    get_object client bucket_name (_build_object_name directory filename)
               (backend w) = (Success resp, s1) ->
    resp_truthy resp = true ->
    let g := stream_file client bucket_name directory filename w in
    let released w' := calls (is_release (rid resp)) (history w') in
    let closed w' := calls (is_close (rid resp)) (history w') in
    (released (snd (fst (drain g))) = 2 + released w /\
     closed (snd (fst (drain g))) = 2 + closed w) /\
    forall n,
      released (snd (fst (abandon_after n g))) = 2 + released w /\
      closed (snd (fst (abandon_after n g))) = 2 + closed w.
Proof.
  intros S client b d f w resp s1 H Ht g released closed.
  unfold g, released, closed.
  rewrite (stream_file_opened _ _ _ _ _ H).
  assert (Pr : forall n, is_release (rid resp) (CRead (rid resp) n) = false)
    by reflexivity.
  assert (Pc : forall n, is_close (rid resp) (CRead (rid resp) n) = false)
    by reflexivity.
  split; [split|intros n; split].
  - rewrite (guarded_reads_drained _ Pr (reads resp) Ht); [|reflexivity].
    cbn [history is_release is_close]. rewrite calls_cons, Nat.eqb_refl.
    reflexivity.
  - rewrite (guarded_reads_drained _ Pc (reads resp) Ht); [|reflexivity].
    cbn [history is_release is_close]. rewrite calls_cons, Nat.eqb_refl.
    reflexivity.
  - rewrite (guarded_reads_abandoned _ Pr (reads resp) Ht); [|reflexivity].
    cbn [history is_release is_close]. rewrite calls_cons, Nat.eqb_refl.
    reflexivity.
  - rewrite (guarded_reads_abandoned _ Pc (reads resp) Ht); [|reflexivity].
    cbn [history is_release is_close]. rewrite calls_cons, Nat.eqb_refl.
    reflexivity.
Qed.

(** An object of the scenario, read to the end. *)
Lemma stream_file_releases_twice_witness :
  let g := stream_file Mem.client "hello" "hello5/hello2" "a.txt"
                       (transfer_world scenario_store) in
  Mem.get_object_of "hello" "hello5/hello2/a.txt" scenario_store
  = Success (Mem.response_for (Mem.bytes_of_string "A") scenario_store) /\
  calls (is_release 0) (history (snd (fst (drain g)))) = 2 /\
  calls (is_close 0) (history (snd (fst (drain g)))) = 2 /\
  calls (is_release 0) (history (snd (fst (abandon_after 0 g)))) = 2.
Proof.
  intros g.
  pose proof (stream_file_releases_twice Mem.client "hello" "hello5/hello2"
                "a.txt" (transfer_world scenario_store)
                (resp := Mem.response_for (Mem.bytes_of_string "A")
                                          scenario_store)
                (s1 := Mem.opened scenario_store) eq_refl eq_refl)
    as [[Dr Dc] A].
  split; [reflexivity|].
  split; [exact Dr|]. split; [exact Dc|]. exact (proj1 (A 0)).
Defined.

(** C7, as the specification states it, fails: the outcome of a deletion
    that succeeded is the plain boolean [True], not a [Result]. *)
Lemma delete_file_not_a_result_counterexample :
  let g := delete_file Mem.client "hello" "hello5/hello2" "a.txt"
                       (transfer_world scenario_store) in
  (exists w', g = Done (Returned (VBool true)) w') /\
  ~ (exists r w', g = Done (Returned (VResult r)) w').
Proof.
  intros g. split.
  - eexists. vm_compute. reflexivity.
  - intros (r & w' & H). vm_compute in H. discriminate H.
Qed.

(** C7 (amended): the outcomes Deleted and NotFound of [delete_file] are
    plain booleans, not [Result] values: when the store deletes the object
    the call returns [True], and when the store reports [NoSuchKey] it
    returns [False], an outcome and not an error, with the store as
    [remove_object] left it.  Any other failure of the store is reported
    neither as Deleted nor as NotFound: the call returns no boolean. *)
Theorem delete_file_outcomes :
  forall (S : Type) (client : Minio S) (bucket_name directory filename : string)
         (w : World S TransferLocals),
    let name := _build_object_name directory filename in
    let answer := remove_object client bucket_name name (backend w) in
    exists c w',
      delete_file client bucket_name directory filename w = Done c w' /\
      backend w' = snd answer /\
      history w' = ECall (CRemoveObject bucket_name name)
                         (match fst answer with
                          | Success _ => true
                          | Failure _ => false
                          end) :: history w /\
      match fst answer with
      | Success _ =>
          c = Returned (VBool true) /\
          delete_outcome (VBool true) = Some Deleted /\
          is_result (VBool true) = false
      | Failure (S3Error code _) =>
          if String.eqb code "NoSuchKey"
          then c = Returned (VBool false) /\
               delete_outcome (VBool false) = Some NotFound /\
               is_result (VBool false) = false
          else forall b, c <> Returned (VBool b)
      | Failure _ => forall b, c <> Returned (VBool b)
      end.
Proof.
  intros S client b d f w name answer. subst answer name.
  unfold delete_file. run_transfer.
  destruct (remove_object client b (_build_object_name d f) (backend w))
    as [[[]|e] s1]; run_transfer; cbn [fst snd].
  - do 2 eexists. repeat split.
  - destruct e as [c t| | | | |];
      [destruct (String.eqb c "NoSuchKey") eqn:Ec|..];
      cbn [Py.gexcept]; rewrite ?Ec; run_transfer;
      do 2 eexists; (split; [reflexivity|]); (split; [reflexivity|]);
      (split; [reflexivity|]);
      try (intros v Hv; discriminate Hv).
    repeat split.
Qed.

(** ** The codes the operations produce *)

(** Split on whatever the computation in the goal still waits for: an
    answer of the store, the class of an exception, a local variable. *)
Ltac split_cases :=
  unfold guarded_reads, stream_finally, stream_handlers, data_close;
  run_transfer;
  repeat (match goal with
          | |- context [is_S3Error ?e] => is_var e; destruct e
          | |- context [match ?e with S3Error _ _ => _ | _ => _ end] =>
              is_var e; destruct e
          | |- context [String.eqb ?c "NoSuchKey"] =>
              destruct (String.eqb c "NoSuchKey")
          | |- context [bucket_exists ?c ?b ?x] =>
              destruct (bucket_exists c b x) as [[[|]|?] ?]
          | |- context [make_bucket ?c ?b ?x] =>
              destruct (make_bucket c b x) as [[[]|?] ?]
          | |- context [put_object ?c ?b ?k ?d ?t ?n ?x] =>
              destruct (put_object c b k d t n x) as [[[]|?] ?]
          | |- context [remove_object ?c ?b ?k ?x] =>
              destruct (remove_object c b k x) as [[[]|?] ?]
          | |- context [presigned_url ?c ?m ?b ?k ?n ?x] =>
              destruct (presigned_url c m b k n x) as [[?|?] ?]
          | |- context [closable ?d] => destruct (closable d)
          | |- context [close_fails ?d] => destruct (close_fails d)
          | |- context [PyStr.truthy ?f] => is_var f; destruct f
          | |- context [response ?l] => destruct (response l)
          | |- context [object_name ?l] => destruct (object_name l)
          | |- context [resp_truthy ?r] => destruct (resp_truthy r)
          end; cbn [is_S3Error PyStr.truthy negb]; run_transfer).

(** What a finished computation can have returned. *)
Ltac returned_value :=
  let Hv := fresh "Hv" in
  intros Hv; inversion Hv; subst; cbn [error_code error code Err];
  try discriminate.

Section Codes.
Variable S : Type.
Variable client : Minio S.
Variable bucket_name : string.

Lemma ensure_bucket_exists_codes (w : World S TransferLocals) v :
  may_return (_ensure_bucket_exists client bucket_name w) v ->
  error_code v = Some BUCKET_ACCESS.
Proof.
  unfold _ensure_bucket_exists. split_cases; returned_value; auto.
Qed.

Lemma upload_stream_codes data directory filename content_type part_size
      (w : World S TransferLocals) v :
  may_return (upload_stream client bucket_name data directory filename
                            content_type part_size w) v ->
  error_code v = None \/ error_code v = Some UPLOAD_FAILED
  \/ error_code v = Some UNKNOWN.
Proof.
  unfold upload_stream. split_cases; returned_value; auto.
Qed.

Lemma delete_file_codes directory filename (w : World S TransferLocals) v :
  may_return (delete_file client bucket_name directory filename w) v ->
  error_code v = None.
Proof.
  unfold delete_file. split_cases; returned_value; auto.
Qed.

Lemma generate_presigned_url_codes directory filename expiry method
      (w : World S TransferLocals) v :
  may_return (generate_presigned_url client bucket_name directory filename
                                     expiry method w) v ->
  error_code v = None \/ error_code v = Some PRESIGN_FAILED.
Proof.
  unfold generate_presigned_url. split_cases; returned_value; auto.
Qed.

Lemma guarded_reads_codes (resp : Response) script :
  forall (w : World S TransferLocals) v,
    may_return (guarded_reads resp (read_loop (rid resp) script w)) v ->
    error_code v = Some NOT_FOUND \/ error_code v = Some STREAM_FAILED.
Proof.
  induction script as [|[chunk|e] rest IH]; intros w v.
  - cbn [read_loop]. split_cases; returned_value; auto.
  - destruct chunk as [|b chunk].
    + cbn [read_loop]. split_cases; returned_value; auto.
    + cbn [read_loop]. unfold guarded_reads, Py.yield_. run_transfer.
      intros Hv. inversion Hv as [|chunk' w0 k s w' v' Hk]; subst.
      destruct s.
      * exact (IH w' v Hk).
      * revert Hk. split_cases; returned_value; auto.
  - cbn [read_loop]. split_cases; returned_value; auto.
Qed.

Lemma stream_file_codes directory filename (w : World S TransferLocals) v :
  may_return (stream_file client bucket_name directory filename w) v ->
  error_code v = Some NOT_FOUND \/ error_code v = Some STREAM_FAILED.
Proof.
  destruct (get_object client bucket_name
              (_build_object_name directory filename) (backend w))
    as [[resp|e] s1] eqn:H.
  - rewrite (stream_file_opened _ _ _ _ _ H). apply guarded_reads_codes.
  - rewrite (stream_file_open_failure _ _ _ _ _ H). intros Hv. inversion Hv.
Qed.

End Codes.

Section MigrationReturns.
Variable S : Type.
Variable client : Minio S.
Variables src_bucket src_prefix dest_bucket dest_prefix : string.

(** The loop ends normally or by an exception; it has no [return]. *)
Lemma for_each_object_completion sp dp ov keys failing :
  forall (w : World S Counters),
  exists c w',
    for_each_object client src_bucket sp dest_bucket dp
                    ov keys failing w = Done c w' /\
    (c = Normal tt \/ exists e, c = Raised e).
Proof.
  induction keys as [|key rest IH]; intros w.
  - destruct failing; do 2 eexists; (split; [reflexivity|]); eauto.
  - rewrite for_each_object_cons.
    destruct (body_aborts_only_on_probe client src_bucket sp
                dest_bucket dp ov key
                {| backend := backend w; history := EListed key :: history w;
                   locals := locals w |})
      as (c & w1 & E & [->|(e & -> & _)]);
      rewrite E; cbn [Py.gbind]; [apply IH|].
    do 2 eexists. split; [reflexivity|]. eauto.
Qed.

Lemma move_minio_prefix_returns_nothing ov (s : S) v :
  ~ may_return (move_minio_prefix client src_bucket src_prefix dest_bucket
                                  dest_prefix ov (migration_world s)) v.
Proof.
  destruct (run_cases client src_bucket src_prefix dest_bucket dest_prefix
                      ov s)
    as [(e & w' & E & _)|(w0 & l & s0 & _ & _ & _ & E)]; rewrite E.
  - intros Hv. inversion Hv.
  - destruct (for_each_object_completion
                (normalize_prefix src_prefix) (normalize_prefix dest_prefix)
                ov (fst l) (snd l) w0)
      as (c & w1 & E1 & [->|(e & ->)]); rewrite E1; cbn [Py.gbind];
      intros Hv; inversion Hv.
Qed.

End MigrationReturns.

(** How [delete_file] ends when the store refuses the deletion. *)
Lemma delete_file_on_failure (S : Type) (client : Minio S)
      (bucket_name directory filename : string) (w : World S TransferLocals)
      (e : exn) (s1 : S) :
  remove_object client bucket_name (_build_object_name directory filename)
                (backend w) = (Failure e, s1) ->
  exists w',
    delete_file client bucket_name directory filename w
    = Done (match e with
            | S3Error c _ =>
                if String.eqb c "NoSuchKey" then Returned (VBool false)
                else Raised (ValidationError "message")
            | _ => Raised (ValidationError "message")
            end) w' /\
    backend w' = s1.
Proof.
  intros H. unfold delete_file. run_transfer. rewrite H. run_transfer.
  destruct e as [c t| | | | |]; [destruct (String.eqb c "NoSuchKey")|..];
    eexists; split; reflexivity.
Qed.

(** C10 (what the code does): no operation produces an [Error] whose code
    is DELETE_FAILED.  Whatever the store answers and whatever the
    consumer of the stream does, a value returned by
    [_ensure_bucket_exists], [upload_stream], [stream_file], [delete_file]
    or [generate_presigned_url] never carries that code, and
    [move_minio_prefix] returns no value at all.  [delete_file] answers a
    [NoSuchKey] of the store with the plain boolean [False]; for every
    other failure of the deletion it calls [Err] with code UNKNOWN and the
    exception object as the message, which the [Error] model refuses: the
    call raises [ValidationError] and no [Error], of any code, reaches the
    caller. *)
Theorem delete_failed_never_produced :
  forall (S : Type) (client : Minio S) (bucket_name : string),
    (forall w v,
        may_return (_ensure_bucket_exists client bucket_name w) v ->
        error_code v <> Some DELETE_FAILED) /\
    (forall data directory filename content_type part_size w v,
        may_return (upload_stream client bucket_name data directory filename
                                  content_type part_size w) v ->
        error_code v <> Some DELETE_FAILED) /\
    (forall directory filename w v,
        may_return (stream_file client bucket_name directory filename w) v ->
        error_code v <> Some DELETE_FAILED) /\
    (forall directory filename w v,
        may_return (delete_file client bucket_name directory filename w) v ->
        error_code v <> Some DELETE_FAILED) /\
    (forall directory filename expiry method w v,
        may_return (generate_presigned_url client bucket_name directory
                                           filename expiry method w) v ->
        error_code v <> Some DELETE_FAILED) /\
    (forall src_bucket src_prefix dest_bucket dest_prefix overwrite s v,
        ~ may_return (move_minio_prefix client src_bucket src_prefix
                        dest_bucket dest_prefix overwrite (migration_world s))
                     v) /\
    (forall directory filename w e s1,
        remove_object client bucket_name
                      (_build_object_name directory filename) (backend w)
        = (Failure e, s1) ->
        exists c w',
          delete_file client bucket_name directory filename w = Done c w' /\
          match e with
          | S3Error code _ =>
              if String.eqb code "NoSuchKey" then c = Returned (VBool false)
              else c = Raised (ValidationError "message")
          | _ => c = Raised (ValidationError "message")
          end).
Proof.
  intros S client b.
  split.
  { intros w v H. apply ensure_bucket_exists_codes in H.
    rewrite H; discriminate. }
  split.
  { intros data d f ct ps w v H. apply upload_stream_codes in H.
    destruct H as [H|[H|H]]; rewrite H; discriminate. }
  split.
  { intros d f w v H. apply stream_file_codes in H.
    destruct H as [H|H]; rewrite H; discriminate. }
  split.
  { intros d f w v H. apply delete_file_codes in H.
    rewrite H; discriminate. }
  split.
  { intros d f ex m w v H. apply generate_presigned_url_codes in H.
    destruct H as [H|H]; rewrite H; discriminate. }
  split.
  { intros. apply move_minio_prefix_returns_nothing. }
  intros d f w e s1 H.
  destruct (delete_file_on_failure _ _ _ _ _ H) as (w' & E & _).
  do 2 eexists. split; [exact E|].
  destruct e as [c t| | | | |]; [destruct (String.eqb c "NoSuchKey")|..];
    reflexivity.
Qed.

(** A deletion the store refuses with [AccessDenied]: the call raises
    [ValidationError], and no [Error] with code UNKNOWN comes back. *)
Lemma delete_failed_never_produced_witness :
  let w := transfer_world (refusing is_remove scenario_store) in
  let g := delete_file Mem.client "hello" "hello5/hello2" "a.txt" w in
  fst (remove_object Mem.client "hello" "hello5/hello2/a.txt" (backend w))
  = Failure access_denied /\
  fst (fst (drain g)) = Raised (ValidationError "message") /\
  forall v, may_return g v -> error_code v <> Some UNKNOWN.
Proof.
  intros w g.
  destruct (proj2 (proj2 (proj2 (proj2 (proj2 (proj2
              (delete_failed_never_produced Mem.client "hello"))))))
              "hello5/hello2" "a.txt" w access_denied
              (refusing is_remove scenario_store) eq_refl)
    as (c & w' & E & Hc).
  cbn in Hc. subst c.
  split; [reflexivity|].
  unfold g. rewrite E. split; [reflexivity|].
  intros v Hv. inversion Hv.
Defined.

(** ** The scenarios of the specification, run on the in-memory store *)

Example scenario_moves_everything :
  let w' := world_of
              (move_minio_prefix Mem.client "hello" "hello5/hello2" "hello2"
                 "hello8/hello2" false (migration_world scenario_store)) in
  locals w' = {| moved := 2; copied := 2; skipped := 0; errors := 0 |} /\
  Mem.keys_of "hello" (backend w') = [] /\
  Mem.keys_of "hello2" (backend w')
  = ["hello8/hello2/a.txt"; "hello8/hello2/b/c.txt"].
Proof. vm_compute. repeat split. Qed.

Example scenario_skips_existing :
  let w' := world_of
              (move_minio_prefix Mem.client "hello" "hello5/hello2" "hello2"
                 "hello8/hello2" false
                 (migration_world
                    (Mem.store_object "hello2" "hello8/hello2/a.txt" []
                                      scenario_store))) in
  locals w' = {| moved := 1; copied := 1; skipped := 1; errors := 0 |} /\
  Mem.keys_of "hello" (backend w') = ["hello5/hello2/a.txt"] /\
  classification w'
  = [("hello5/hello2/a.txt", Skipped); ("hello5/hello2/b/c.txt", Moved)].
Proof. vm_compute. repeat split. Qed.

(** A read that fails in the middle of the stream with an [S3Error]: the
    consumer of a [for] loop gets the first chunk and then the end of the
    sequence; the [Err] value travels as the return value of the
    generator.  When the failure is not an [S3Error] the consumer gets the
    first chunk and then the [ValidationError] of the [except] clause. *)
Example stream_file_read_failure :
  let store e :=
    {| Mem.buckets := Mem.buckets scenario_store;
       Mem.contents := Mem.contents scenario_store;
       Mem.faults := Mem.no_faults;
       Mem.delivery := fun c => [ReadBytes c; ReadFails e];
       Mem.next_rid := 0 |} in
  let r := drain (stream_file Mem.client "hello" "hello5/hello2" "a.txt"
                              (transfer_world (store access_denied))) in
  let r' := drain (stream_file Mem.client "hello" "hello5/hello2" "a.txt"
                               (transfer_world
                                  (store (OtherError "connection reset")))) in
  fst (fst r)
  = Returned (VResult (Err STREAM_FAILED
                         "Failed to open stream: Access Denied.")) /\
  snd r = [Mem.bytes_of_string "A"] /\
  calls (is_release 0) (history (snd (fst r))) = 2 /\
  fst (fst r') = Raised (ValidationError "message") /\
  snd r' = [Mem.bytes_of_string "A"] /\
  calls (is_release 0) (history (snd (fst r'))) = 2.
Proof. vm_compute. repeat split. Qed.

(** Deleting twice: [True], then [False]. *)
Example delete_file_twice :
  let first := delete_file Mem.client "hello" "hello5/hello2" "a.txt"
                           (transfer_world scenario_store) in
  let second := delete_file Mem.client "hello" "hello5/hello2" "a.txt"
                            (world_of first) in
  fst (fst (drain first)) = Returned (VBool true) /\
  fst (fst (drain second)) = Returned (VBool false).
Proof. vm_compute. split; reflexivity. Qed.

(** ** Key normalisation on a few inputs *)

Example build_object_name_nested :
  _build_object_name "//a/b//" "c.txt" = "a/b/c.txt".
Proof. reflexivity. Qed.

Example build_object_name_only_separators :
  _build_object_name "///" "c.txt" = "c.txt".
Proof. reflexivity. Qed.

Example normalize_prefix_scenario :
  normalize_prefix "hello5/hello2" = "hello5/hello2/".
Proof. reflexivity. Qed.

Example tail_of_scenario :
  tail_of "hello5/hello2/" "hello5/hello2/b/c.txt" = "b/c.txt" /\
  tail_of "hello5/hello2/" "other/key" = "other/key".
Proof. split; reflexivity. Qed.

(** ** The transfer service on the in-memory store *)

Example upload_stream_stores_object :
  let data := {| payload := Mem.bytes_of_string "B"; closable := true;
                 close_fails := None |} in
  let g := upload_stream Mem.client "hello" data "/dir/" "b.txt" None
                         default_part_size (transfer_world scenario_store) in
  fst (fst (drain g)) = Returned (VStr "dir/b.txt") /\
  Mem.lookup "hello" "dir/b.txt" (backend (world_of g))
  = Some (Mem.bytes_of_string "B") /\
  trace (world_of g)
  = [ECall (CPutObject "hello" "dir/b.txt" "application/octet-stream"
                       default_part_size) true;
     ECall CDataClose true].
Proof. vm_compute. repeat split. Qed.

Example upload_stream_empty_filename_on_store :
  let data := {| payload := Mem.bytes_of_string "B"; closable := true;
                 close_fails := None |} in
  let g := upload_stream Mem.client "hello" data "/dir/" "" None
                         default_part_size (transfer_world scenario_store) in
  fst (fst (drain g)) = Raised (UnboundLocalError "object_name") /\
  Mem.keys_of "hello" (backend (world_of g))
  = Mem.keys_of "hello" scenario_store /\
  trace (world_of g) = [ECall CDataClose true].
Proof. vm_compute. repeat split. Qed.

Example generate_presigned_url_on_store :
  fst (fst (drain (generate_presigned_url Mem.client "hello" "dir" "b.txt"
                     default_expiry_seconds "GET"
                     (transfer_world scenario_store))))
  = Returned (VStr "http://localhost:9000/hello/dir/b.txt").
Proof. vm_compute. reflexivity. Qed.

(** ** How [stream_file] hands out a failure *)

Section StreamFailure.
Variable S : Type.
Variable client : Minio S.
Variable bucket_name : string.

Lemma drain_completion_step {W A} chunk (w : W) (k : signal -> W -> Gen W A) :
  fst (fst (drain (Yield chunk w k))) = fst (fst (drain (k Next w))).
Proof.
  cbn [drain]. destruct (drain (k Next w)) as [[c w'] chunks]. reflexivity.
Qed.

Lemma drain_chunks_step {W A} chunk (w : W) (k : signal -> W -> Gen W A) :
  snd (drain (Yield chunk w k)) = chunk :: snd (drain (k Next w)).
Proof.
  cbn [drain]. destruct (drain (k Next w)) as [[c w'] chunks]. reflexivity.
Qed.

(** A [read] that fails after some chunks: the consumer has the chunks,
    and the generator ends the way the [except] clauses end. *)
Lemma guarded_reads_failure (resp : Response) name e rest chunks :
  resp_truthy resp = true ->
  Forall (fun c => c <> []) chunks ->
  forall (w : World S TransferLocals),
    object_name (locals w) = Some name ->
    response (locals w) = Some resp ->
    let r := drain (guarded_reads resp
                      (read_loop (rid resp)
                         (map ReadBytes chunks ++ ReadFails e :: rest)%list w)) in
    fst (fst r) = stream_failure name e /\
    snd r = chunks.
Proof.
  intros Ht Hc. induction Hc as [|chunk chunks Hne _ IH]; intros w Hn Hr.
  - cbn [map app read_loop].
    unfold guarded_reads, stream_finally, stream_handlers, stream_failure.
    run_transfer.
    destruct e as [c t| | | | |]; [destruct (String.eqb c "NoSuchKey")|..];
      run_transfer; rewrite ?Hn, ?Hr; run_transfer; rewrite ?Hr, ?Ht;
      run_transfer; rewrite ?Hr, ?Ht; run_transfer; split; reflexivity.
  - destruct chunk as [|b chunk]; [congruence|].
    cbn [map app read_loop]. unfold guarded_reads, Py.yield_. run_transfer.
    rewrite drain_completion_step, drain_chunks_step.
    destruct (IH {| backend := backend w;
                    history := ECall (CRead (rid resp) chunk_size) true
                               :: history w;
                    locals := locals w |} Hn Hr) as [Ic Is].
    split; [exact Ic|]. f_equal. exact Is.
Qed.

End StreamFailure.

(** * Further properties of the code *)

(** ** Destination keys *)

Section KeyFacts.

Lemma prefix_app (p t : string) : String.prefix p (p ++ t) = true.
Proof.
  induction p as [|c p IH]; [destruct t; reflexivity|].
  cbn [append String.prefix]. destruct (ascii_dec c c); [exact IH|congruence].
Qed.

Lemma drop_app (p t : string) : PyStr.drop (String.length p) (p ++ t) = t.
Proof. induction p as [|c p IH]; [reflexivity|exact IH]. Qed.

Lemma prefix_split (p : string) :
  forall key, String.prefix p key = true ->
              p ++ PyStr.drop (String.length p) key = key.
Proof.
  induction p as [|c p IH]; intros key H; [reflexivity|].
  destruct key as [|c' key]; [discriminate H|].
  cbn [String.prefix] in H. destruct (ascii_dec c c') as [->|]; [|discriminate H].
  cbn [append String.length PyStr.drop]. now rewrite IH.
Qed.

Lemma append_inj_l (p a b : string) : p ++ a = p ++ b -> a = b.
Proof.
  induction p as [|c p IH]; [trivial|].
  cbn [append]. intros H. injection H as H. auto.
Qed.

Lemma tail_of_app (p t : string) : tail_of p (p ++ t) = t.
Proof.
  unfold tail_of, PyStr.startswith. rewrite prefix_app, andb_true_r.
  destruct p; [reflexivity|]. cbn [PyStr.truthy]. apply drop_app.
Qed.

Lemma tail_of_split (p key : string) :
  PyStr.startswith key p = true -> p ++ tail_of p key = key.
Proof.
  unfold tail_of. intros H. rewrite H, andb_true_r.
  destruct p; [reflexivity|]. cbn [PyStr.truthy].
  now apply prefix_split.
Qed.

Lemma dest_key_same_key (src_prefix dest_prefix k1 k2 : string) :
  PyStr.startswith k1 src_prefix = true ->
  PyStr.startswith k2 src_prefix = true ->
  dest_prefix ++ tail_of src_prefix k1 = dest_prefix ++ tail_of src_prefix k2 ->
  k1 = k2.
Proof.
  intros H1 H2 E. apply append_inj_l in E.
  rewrite <- (tail_of_split _ _ H1), <- (tail_of_split _ _ H2). now rewrite E.
Qed.

End KeyFacts.

(** X1: the destination key re-roots the source key.  A key made of the
    source prefix and a rest has that rest as its tail, so its destination
    key is the normalised destination prefix followed by the rest; a key
    that starts with the prefix is the prefix followed by its tail; and a
    key that does not start with the prefix is kept whole. *)
Theorem dest_key_reroots :
  (forall src_prefix dest_prefix rest,
      normalize_prefix dest_prefix
      ++ tail_of (normalize_prefix src_prefix)
                 (normalize_prefix src_prefix ++ rest)
      = normalize_prefix dest_prefix ++ rest) /\
  (forall p key,
      PyStr.startswith key p = true -> p ++ tail_of p key = key) /\
  (forall p key,
      PyStr.startswith key p = false -> tail_of p key = key).
Proof.
  split; [intros; now rewrite tail_of_app|].
  split; [exact tail_of_split|].
  intros p key H. unfold tail_of. rewrite H. now rewrite andb_false_r.
Qed.

Lemma dest_key_reroots_witness :
  PyStr.startswith "hello5/hello2/b/c.txt" "hello5/hello2/" = true /\
  "hello5/hello2/" ++ tail_of "hello5/hello2/" "hello5/hello2/b/c.txt"
  = "hello5/hello2/b/c.txt" /\
  PyStr.startswith "other/key" "hello5/hello2/" = false /\
  tail_of "hello5/hello2/" "other/key" = "other/key".
Proof.
  split; [reflexivity|].
  split; [exact (proj1 (proj2 dest_key_reroots) "hello5/hello2/"
                       "hello5/hello2/b/c.txt" eq_refl)|].
  split; [reflexivity|].
  exact (proj2 (proj2 dest_key_reroots) "hello5/hello2/" "other/key" eq_refl).
Defined.

(** X2: two keys that both start with the source prefix and get the same
    destination key are the same key: within one run no two objects under
    the prefix are copied to the same destination. *)
Theorem dest_key_injective :
  forall src_prefix dest_prefix k1 k2,
    PyStr.startswith k1 src_prefix = true ->
    PyStr.startswith k2 src_prefix = true ->
    dest_prefix ++ tail_of src_prefix k1 = dest_prefix ++ tail_of src_prefix k2 ->
    k1 = k2.
Proof.
  intros sp dp k1 k2 H1 H2 E. exact (dest_key_same_key _ _ _ _ H1 H2 E).
Qed.

Lemma dest_key_injective_witness :
  "hello5/hello2/a.txt" = "hello5/hello2/a.txt".
Proof.
  exact (dest_key_injective "hello5/hello2/" "hello8/hello2/"
           "hello5/hello2/a.txt" "hello5/hello2/a.txt"
           eq_refl eq_refl eq_refl).
Defined.

(** ** Object names *)

Section StripFacts.

Lemma rstrip_app_sep (s : string) : PyStr.rstrip (s ++ "/") = PyStr.rstrip s.
Proof.
  induction s as [|c s IH]; [reflexivity|].
  cbn [append PyStr.rstrip]. now rewrite IH.
Qed.

Lemma strip_app_sep (s : string) : PyStr.strip (s ++ "/") = PyStr.strip s.
Proof.
  unfold PyStr.strip. induction s as [|c s IH]; [reflexivity|].
  cbn [append PyStr.lstrip]. destruct (PyStr.is_sep c); [exact IH|].
  exact (rstrip_app_sep (String c s)).
Qed.

Lemma strip_sep_app (s : string) : PyStr.strip ("/" ++ s) = PyStr.strip s.
Proof. reflexivity. Qed.

Lemma rstrip_no_leading_fixed (s : string) :
  PyStr.leading_sep s = false -> PyStr.lstrip s = s.
Proof. destruct s as [|c s]; [reflexivity|]. cbn. now intros ->. Qed.

Lemma rstrip_cons (c : ascii) (s : string) :
  PyStr.rstrip (String c s)
  = match PyStr.rstrip s with
    | EmptyString => if PyStr.is_sep c then EmptyString else String c EmptyString
    | r => String c r
    end.
Proof. reflexivity. Qed.

Lemma rstrip_idempotent (s : string) :
  PyStr.rstrip (PyStr.rstrip s) = PyStr.rstrip s.
Proof.
  induction s as [|c s IH]; [reflexivity|].
  rewrite rstrip_cons. destruct (PyStr.rstrip s) as [|c' r] eqn:E.
  - destruct (PyStr.is_sep c) eqn:Ec; [reflexivity|].
    rewrite rstrip_cons. cbn [PyStr.rstrip]. now rewrite Ec.
  - rewrite (rstrip_cons c (String c' r)), IH. reflexivity.
Qed.

Lemma strip_idempotent (s : string) : PyStr.strip (PyStr.strip s) = PyStr.strip s.
Proof.
  unfold PyStr.strip at 1.
  rewrite (rstrip_no_leading_fixed _ (strip_no_leading_sep s)).
  apply rstrip_idempotent.
Qed.

End StripFacts.

(** X3: the object name does not depend on separators around the
    directory: a directory with one more leading or trailing separator,
    and the directory already stripped, all give the same key; so "dir",
    "/dir", "dir/" and "/dir/" name the same object. *)
Theorem build_object_name_ignores_outer_separators :
  forall directory filename,
    _build_object_name ("/" ++ directory) filename
    = _build_object_name directory filename /\
    _build_object_name (directory ++ "/") filename
    = _build_object_name directory filename /\
    _build_object_name (PyStr.strip directory) filename
    = _build_object_name directory filename.
Proof.
  intros d f. unfold _build_object_name.
  rewrite strip_sep_app, strip_app_sep, strip_idempotent. repeat split.
Qed.

(** ** Bucket bootstrap *)

Ltac count_calls :=
  cbn [history backend locals fst snd];
  rewrite ?calls_cons; cbn [is_call is_make_bucket is_data_close is_network];
  try lia.

(** X4: [_ensure_bucket_exists] asks whether the bucket exists and calls
    [make_bucket] exactly when the answer is no.  When both calls return
    it returns nothing; when either call fails with an [S3Error] it
    returns a failed [Result] BUCKET_ACCESS with the text of the
    exception; when either call fails with any other exception it raises
    [ValidationError], because [Err] is then called with the exception
    object as the message. *)
Theorem ensure_bucket_exists_reports :
  forall (S : Type) (client : Minio S) (bucket_name : string)
         (w : World S TransferLocals),
    let asked := bucket_exists client bucket_name (backend w) in
    let made := make_bucket client bucket_name (snd asked) in
    let report (e : exn) : completion unit :=
      if is_S3Error e
      then Returned (VResult (Err BUCKET_ACCESS (str_of_exn e)))
      else Raised (ValidationError "message") in
    exists c w',
      _ensure_bucket_exists client bucket_name w = Done c w' /\
      calls is_make_bucket (history w')
      = calls is_make_bucket (history w)
        + (match fst asked with Success false => 1 | _ => 0 end) /\
      match fst asked with
      | Success true => c = Normal tt /\ backend w' = snd asked
      | Success false =>
          backend w' = snd made /\
          match fst made with
          | Success _ => c = Normal tt
          | Failure e => c = report e
          end
      | Failure e => c = report e /\ backend w' = snd asked
      end.
Proof.
  intros S client b w asked made report. subst asked made report.
  unfold _ensure_bucket_exists. run_transfer.
  destruct (bucket_exists client b (backend w)) as [[[|]|e] s1];
    run_transfer; cbn [fst snd].
  - do 2 eexists. split; [reflexivity|]. split; [count_calls|]. split; reflexivity.
  - destruct (make_bucket client b s1) as [[[]|e] s2]; run_transfer;
      cbn [fst snd].
    + do 2 eexists. split; [reflexivity|]. split; [count_calls|].
      split; reflexivity.
    + destruct (is_S3Error e); cbn [Py.gexcept];
        do 2 eexists; (split; [reflexivity|]); (split; [count_calls|]);
        split; reflexivity.
  - destruct (is_S3Error e); cbn [Py.gexcept];
      do 2 eexists; (split; [reflexivity|]); (split; [count_calls|]);
      split; reflexivity.
Qed.

(** X5: constructing the service runs the bucket bootstrap and does not
    look at what it returns.  [__init__] ends normally, with the caller's
    local variables as they were, when the calls to the store return and
    also when one of them fails with an [S3Error]: the failed [Result] of
    the bootstrap is dropped.  When one of them fails with any other
    exception the [ValidationError] of the bootstrap comes out of the
    constructor. *)
Theorem init_bootstrap_outcome :
  forall (S : Type) (client : Minio S) (settings : MinIOSettings)
         (w : World S TransferLocals),
    let asked := bucket_exists client (minio_bucket_name settings) (backend w) in
    let made := make_bucket client (minio_bucket_name settings) (snd asked) in
    let after (e : exn) : completion unit :=
      if is_S3Error e then Normal tt else Raised (ValidationError "message") in
    exists c w',
      __init__ client settings w = Done c w' /\
      locals w' = locals w /\
      calls is_make_bucket (history w')
      = calls is_make_bucket (history w)
        + (match fst asked with Success false => 1 | _ => 0 end) /\
      c = match fst asked with
          | Success true => Normal tt
          | Success false =>
              match fst made with
              | Success _ => Normal tt
              | Failure e => after e
              end
          | Failure e => after e
          end.
Proof.
  intros S client settings w asked made after. subst asked made after.
  unfold __init__, _ensure_bucket_exists. run_transfer.
  destruct (bucket_exists client (minio_bucket_name settings) (backend w))
    as [[[|]|e] s1]; run_transfer; cbn [fst snd invoke Py.gbind];
    unfold back_in; run_transfer.
  - do 2 eexists. split; [reflexivity|]. split; [reflexivity|].
    split; [count_calls|reflexivity].
  - destruct (make_bucket client (minio_bucket_name settings) s1)
      as [[[]|e] s2]; run_transfer; cbn [fst snd invoke Py.gbind];
      unfold back_in; run_transfer.
    + do 2 eexists. split; [reflexivity|]. split; [reflexivity|].
      split; [count_calls|reflexivity].
    + destruct (is_S3Error e); cbn [Py.gexcept invoke Py.gbind];
        run_transfer; cbn [invoke Py.gbind]; unfold back_in; run_transfer;
        do 2 eexists; (split; [reflexivity|]); (split; [reflexivity|]);
        (split; [count_calls|reflexivity]).
  - destruct (is_S3Error e); cbn [Py.gexcept invoke Py.gbind];
      run_transfer; cbn [invoke Py.gbind]; unfold back_in; run_transfer;
      do 2 eexists; (split; [reflexivity|]); (split; [reflexivity|]);
      (split; [count_calls|reflexivity]).
Qed.

(** X6: [ensure_bucket] of the migration creates the bucket exactly when
    the store says it does not exist, and, unlike the bootstrap of the
    service, lets an exception of either call through to its caller. *)
Theorem ensure_bucket_creates_when_absent :
  forall (S : Type) (client : Minio S) (bucket : string)
         (w : World S Counters),
    let asked := bucket_exists client bucket (backend w) in
    let made := make_bucket client bucket (snd asked) in
    exists c w',
      ensure_bucket client bucket w = Done c w' /\
      locals w' = locals w /\
      calls is_make_bucket (history w')
      = calls is_make_bucket (history w)
        + (match fst asked with Success false => 1 | _ => 0 end) /\
      match fst asked with
      | Success true => c = Normal tt /\ backend w' = snd asked
      | Success false =>
          backend w' = snd made /\
          match fst made with
          | Success _ => c = Normal tt
          | Failure e => c = Raised e
          end
      | Failure e => c = Raised e /\ backend w' = snd asked
      end.
Proof.
  intros S client b w asked made. subst asked made.
  unfold ensure_bucket. run_transfer.
  destruct (bucket_exists client b (backend w)) as [[[|]|e] s1];
    run_transfer; cbn [fst snd].
  - do 2 eexists. split; [reflexivity|]. split; [reflexivity|].
    split; [count_calls|]. split; reflexivity.
  - destruct (make_bucket client b s1) as [[[]|e] s2]; run_transfer;
      cbn [fst snd];
      do 2 eexists; (split; [reflexivity|]); (split; [reflexivity|]);
      (split; [count_calls|]); split; reflexivity.
  - do 2 eexists. split; [reflexivity|]. split; [reflexivity|].
    split; [count_calls|]. split; reflexivity.
Qed.

(** ** Upload *)

(** X7: with a file name that is not empty [upload_stream] never raises.
    It makes one call to the store, [put_object] on the bucket of the
    service with the key built from directory and file name and the
    content type [application/octet-stream] when none (or an empty one) is
    given, and returns the key when the call returned, a failed [Result]
    UPLOAD_FAILED with the text of an [S3Error], and a failed [Result]
    UNKNOWN naming the key for any other exception. *)
Theorem upload_stream_outcomes :
  forall (S : Type) (client : Minio S) (bucket_name : string)
         (data : BinaryIO) (directory filename : string)
         (content_type : option string) (part_size : N)
         (w : World S TransferLocals),
    PyStr.truthy filename = true ->
    let name := _build_object_name directory filename in
    let ctype := content_type_or_default content_type in
    let answer := put_object client bucket_name name (payload data) ctype
                             part_size (backend w) in
    exists v w',
      upload_stream client bucket_name data directory filename content_type
                    part_size w = Done (Returned v) w' /\
      backend w' = snd answer /\
      store_calls (history w')
      = ECall (CPutObject bucket_name name ctype part_size)
              (match fst answer with Success _ => true | Failure _ => false end)
        :: store_calls (history w) /\
      v = match fst answer with
          | Success _ => VStr name
          | Failure e =>
              if is_S3Error e
              then VResult (Err UPLOAD_FAILED (str_of_exn e))
              else VResult (Err UNKNOWN
                              ("Upload error for '" ++ name ++ "': "
                               ++ str_of_exn e))
          end.
Proof.
  intros S client b data d f ct ps w Hf name ctype answer.
  subst name ctype answer. unfold content_type_or_default.
  destruct f as [|a f]; [discriminate Hf|].
  unfold upload_stream, data_close. run_transfer.
  cbn [PyStr.truthy negb]. run_transfer.
  match goal with
  | |- context [put_object ?c ?b0 ?k ?p ?t ?n ?x] =>
      destruct (put_object c b0 k p t n x) as [[[]|e] s1]
  end;
    run_transfer; cbn [fst snd];
    [|destruct (is_S3Error e); cbn [Py.gexcept Py.gfinally]; run_transfer];
    (destruct (closable data); [destruct (close_fails data)|]); run_transfer;
    do 2 eexists; (split; [reflexivity|]); (split; [reflexivity|]);
    split; reflexivity.
Qed.

Lemma upload_stream_outcomes_witness :
  let data := {| payload := Mem.bytes_of_string "B"; closable := true;
                 close_fails := None |} in
  PyStr.truthy "b.txt" = true /\
  exists w',
    upload_stream Mem.client "hello" data "/dir/" "b.txt" (Some "")
                  default_part_size (transfer_world scenario_store)
    = Done (Returned (VStr "dir/b.txt")) w' /\
    store_calls (history w')
    = [ECall (CPutObject "hello" "dir/b.txt" "application/octet-stream"
                         default_part_size) true].
Proof.
  intros data. split; [reflexivity|].
  destruct (upload_stream_outcomes Mem.client "hello" data "/dir/" "b.txt"
              (Some "") default_part_size (transfer_world scenario_store)
              eq_refl) as (v & w' & E & _ & C & V).
  exists w'. split; [rewrite E, V; reflexivity|exact C].
Defined.

(** X8: [upload_stream] closes the input stream exactly once when the
    stream can be closed, and never otherwise, on every path: empty file
    name, a call to the store that returned, one that raised.  What
    [close()] itself does is swallowed: two streams with the same bytes
    give the same outcome, whether or not their [close()] raises. *)
Theorem upload_stream_closes_once :
  forall (S : Type) (client : Minio S) (bucket_name : string)
         (data : BinaryIO) (directory filename : string)
         (content_type : option string) (part_size : N)
         (w : World S TransferLocals),
    let g := upload_stream client bucket_name data directory filename
                           content_type part_size w in
    calls is_data_close (history (world_of g))
    = calls is_data_close (history w) + (if closable data then 1 else 0) /\
    forall data',
      payload data' = payload data ->
      fst (fst (drain (upload_stream client bucket_name data' directory
                         filename content_type part_size w)))
      = fst (fst (drain g)) /\
      backend (world_of (upload_stream client bucket_name data' directory
                           filename content_type part_size w))
      = backend (world_of g).
Proof.
  intros S client b data d f ct ps w g. subst g. split.
  - unfold upload_stream, data_close. run_transfer.
    destruct f as [|a f]; cbn [PyStr.truthy negb]; run_transfer;
      cbn [is_S3Error]; unfold unbound; run_transfer.
    + destruct (closable data); [destruct (close_fails data)|]; run_transfer;
        cbn [world_of]; count_calls.
    + match goal with
      | |- context [put_object ?c ?b0 ?k ?p ?t ?n ?x] =>
          destruct (put_object c b0 k p t n x) as [[[]|e] s1]
      end; run_transfer;
        [|destruct (is_S3Error e); cbn [Py.gexcept Py.gfinally]; run_transfer];
        (destruct (closable data); [destruct (close_fails data)|]);
        run_transfer; cbn [world_of]; count_calls.
  - intros data' Hp.
    unfold upload_stream, data_close. run_transfer. rewrite Hp.
    destruct f as [|a f]; cbn [PyStr.truthy negb]; run_transfer;
      cbn [is_S3Error]; unfold unbound; run_transfer.
    + destruct (closable data); [destruct (close_fails data)|];
        (destruct (closable data'); [destruct (close_fails data')|]);
        run_transfer; split; reflexivity.
    + match goal with
      | |- context [put_object ?c ?b0 ?k ?p ?t ?n ?x] =>
          destruct (put_object c b0 k p t n x) as [[[]|e] s1]
      end; run_transfer;
        [|destruct (is_S3Error e); cbn [Py.gexcept Py.gfinally]; run_transfer];
        (destruct (closable data); [destruct (close_fails data)|]);
        (destruct (closable data'); [destruct (close_fails data')|]);
        run_transfer; split; reflexivity.
Qed.

(** ** Download *)

(** Run the [except] and [finally] clauses around a read loop that has
    finished, with the local variables known. *)
Ltac settle_reads Hr :=
  unfold guarded_reads, stream_finally, stream_handlers;
  run_transfer;
  repeat (first
    [ rewrite Hr
    | match goal with
      | |- context [if resp_truthy ?r then _ else _] => destruct (resp_truthy r)
      end ];
    run_transfer).

Section StreamDelivery.
Variable S : Type.
Variable resp : Response.

Lemma abandon_completion_step {W A} n chunk (w : W)
      (k : signal -> W -> Gen W A) :
  fst (fst (abandon_after (Datatypes.S n) (Yield chunk w k)))
  = fst (fst (abandon_after n (k Next w))).
Proof.
  cbn [abandon_after].
  destruct (abandon_after n (k Next w)) as [[c w'] chunks]. reflexivity.
Qed.

Lemma abandon_chunks_step {W A} n chunk (w : W)
      (k : signal -> W -> Gen W A) :
  snd (abandon_after (Datatypes.S n) (Yield chunk w k))
  = chunk :: snd (abandon_after n (k Next w)).
Proof.
  cbn [abandon_after].
  destruct (abandon_after n (k Next w)) as [[c w'] chunks]. reflexivity.
Qed.

(** The world after one more [read] that returned. *)
Let after_read (w : World S TransferLocals) : World S TransferLocals :=
  {| backend := backend w;
     history := ECall (CRead (rid resp) chunk_size) true :: history w;
     locals := locals w |}.

(** Chunks, then the end of the data or an empty chunk: the consumer
    that reads to the end has all the chunks, and the generator ends
    normally after one more [read]. *)
Lemma guarded_reads_delivers chunks ending :
  Forall (fun c => c <> []) chunks ->
  ending = [] \/ (exists rest, ending = ReadBytes [] :: rest) ->
  forall (w : World S TransferLocals),
    response (locals w) = Some resp ->
    let r := drain (guarded_reads resp
                      (read_loop (rid resp)
                                 (map ReadBytes chunks ++ ending)%list w)) in
    fst (fst r) = Normal tt /\
    snd r = chunks /\
    calls is_read (history (snd (fst r)))
    = calls is_read (history w) + length chunks + 1.
Proof.
  intros Hc He. induction Hc as [|chunk chunks Hne _ IH]; intros w Hr.
  - cbn [map app length].
    destruct He as [->|[rest ->]]; cbn [read_loop]; settle_reads Hr;
      cbn [drain fst snd history]; rewrite !calls_cons;
      cbn [is_call is_read]; repeat split; lia.
  - destruct chunk as [|b chunk]; [congruence|].
    cbn [map app read_loop length]. unfold guarded_reads, Py.yield_.
    run_transfer.
    rewrite drain_completion_step, drain_chunks_step, drain_world_step.
    destruct (IH (after_read w) Hr) as (Ic & Is & In).
    split; [exact Ic|]. split; [f_equal; exact Is|].
    etransitivity; [exact In|].
    unfold after_read. cbn [history]. rewrite calls_cons.
    cbn [is_call is_read]. lia.
Qed.

(** A consumer that stops while chunks are left has the chunks it asked
    for, and closing the generator ends it quietly. *)
Lemma guarded_reads_abandons chunks rest :
  Forall (fun c => c <> []) chunks ->
  forall n (w : World S TransferLocals),
    n < length chunks ->
    response (locals w) = Some resp ->
    let r := abandon_after n
               (guarded_reads resp
                  (read_loop (rid resp)
                             (map ReadBytes chunks ++ rest)%list w)) in
    fst (fst r) = Closed /\ snd r = firstn (Datatypes.S n) chunks.
Proof.
  intros Hc. induction Hc as [|chunk chunks Hne _ IH]; intros n w Hn Hr.
  - cbn [length] in Hn. lia.
  - destruct chunk as [|b chunk]; [congruence|].
    cbn [map app read_loop]. unfold guarded_reads, Py.yield_. run_transfer.
    destruct n as [|n].
    + cbn [abandon_after]. settle_reads Hr; split; reflexivity.
    + rewrite abandon_completion_step, abandon_chunks_step.
      cbn [length] in Hn.
      destruct (IH n (after_read w)) as (Ic & Is); [lia|exact Hr|].
      split; [exact Ic|]. cbn [firstn]. f_equal. exact Is.
Qed.

(** Nothing in or around the read loop goes to the store, whatever the
    response gives and whenever the consumer stops. *)
Lemma guarded_reads_quiet script :
  forall (w : World S TransferLocals),
    (let w' := snd (fst (drain (guarded_reads resp
                                  (read_loop (rid resp) script w)))) in
     backend w' = backend w /\
     store_calls (history w') = store_calls (history w)) /\
    forall n,
      let w' := snd (fst (abandon_after n
                            (guarded_reads resp
                               (read_loop (rid resp) script w)))) in
      backend w' = backend w /\
      store_calls (history w') = store_calls (history w).
Proof.
  induction script as [|[chunk|e] rest IH]; intros w.
  - cbn [read_loop]. split; [|intros n; destruct n]; split_cases;
      split; reflexivity.
  - destruct chunk as [|b chunk].
    + cbn [read_loop]. split; [|intros n; destruct n]; split_cases;
        split; reflexivity.
    + cbn [read_loop]. unfold guarded_reads, Py.yield_. run_transfer.
      split.
      * rewrite drain_world_step. exact (proj1 (IH (after_read w))).
      * intros n. destruct n as [|n].
        -- cbn [abandon_after]. split_cases; split; reflexivity.
        -- rewrite abandon_world_step.
           exact (proj2 (IH (after_read w)) n).
  - cbn [read_loop]. split; [|intros n; destruct n]; split_cases;
      split; reflexivity.
Qed.

End StreamDelivery.

(** X9: when the object opens and its response gives chunks that are not
    empty and then ends (or gives an empty chunk), the consumer that
    reads [stream_file] to the end receives exactly those chunks, in
    order, the generator ends normally, and it has called [read] once per
    chunk and once more; what the response would give after an empty
    chunk is never read. *)
Theorem stream_file_delivers_chunks :
  forall (S : Type) (client : Minio S) (bucket_name directory filename : string)
         (w : World S TransferLocals) (resp : Response) (s1 : S)
         (chunks : list bytes) (ending : list ReadResult),
    get_object client bucket_name (_build_object_name directory filename)
               (backend w) = (Success resp, s1) ->
    reads resp = (map ReadBytes chunks ++ ending)%list ->
    Forall (fun c => c <> []) chunks ->
    ending = [] \/ (exists rest, ending = ReadBytes [] :: rest) ->
    let r := drain (stream_file client bucket_name directory filename w) in
    fst (fst r) = Normal tt /\
    snd r = chunks /\
    calls is_read (history (snd (fst r)))
    = calls is_read (history w) + length chunks + 1.
Proof.
  intros S client b d f w resp s1 chunks ending H Hreads Hc He r. subst r.
  rewrite (stream_file_opened _ _ _ _ _ H), Hreads.
  destruct (@guarded_reads_delivers S resp chunks ending Hc He
              {| backend := s1;
                 history := ECall (CGetObject b (_build_object_name d f)) true
                            :: history w;
                 locals := {| object_name := Some (_build_object_name d f);
                              response := Some resp |} |} eq_refl)
    as (Ic & Is & In).
  split; [exact Ic|]. split; [exact Is|].
  etransitivity; [exact In|]. cbn [history]. rewrite calls_cons. reflexivity.
Qed.

Lemma stream_file_delivers_chunks_witness :
  let g := stream_file Mem.client "hello" "hello5/hello2" "a.txt"
                       (transfer_world two_chunk_store) in
  fst (fst (drain g)) = Normal tt /\
  snd (drain g) = [Mem.bytes_of_string "A"; Mem.bytes_of_string "A"] /\
  calls is_read (history (snd (fst (drain g)))) = 3.
Proof.
  intros g.
  apply (stream_file_delivers_chunks Mem.client "hello" "hello5/hello2"
           "a.txt" (transfer_world two_chunk_store)
           (resp := Mem.response_for (Mem.bytes_of_string "A") two_chunk_store)
           (s1 := Mem.opened two_chunk_store)
           (chunks := [Mem.bytes_of_string "A"; Mem.bytes_of_string "A"])
           (ending := [ReadBytes []; ReadBytes (Mem.bytes_of_string "A")])).
  - reflexivity.
  - reflexivity.
  - repeat constructor; discriminate.
  - right. eexists. reflexivity.
Defined.

(** X10: a consumer that stops early, after asking for [n] more chunks
    while at least that many are left, has received the first [n + 1]
    chunks, and [close()] on the generator ends it without an exception:
    the generator does not yield again and no [Err] is produced. *)
Theorem stream_file_early_close :
  forall (S : Type) (client : Minio S) (bucket_name directory filename : string)
         (w : World S TransferLocals) (resp : Response) (s1 : S)
         (chunks : list bytes) (rest : list ReadResult) (n : nat),
    get_object client bucket_name (_build_object_name directory filename)
               (backend w) = (Success resp, s1) ->
    reads resp = (map ReadBytes chunks ++ rest)%list ->
    Forall (fun c => c <> []) chunks ->
    n < length chunks ->
    let r := abandon_after n
               (stream_file client bucket_name directory filename w) in
    fst (fst r) = Closed /\ snd r = firstn (Datatypes.S n) chunks.
Proof.
  intros S client b d f w resp s1 chunks rest n H Hreads Hc Hn r. subst r.
  rewrite (stream_file_opened _ _ _ _ _ H), Hreads.
  exact (@guarded_reads_abandons S resp chunks rest Hc n
           {| backend := s1;
              history := ECall (CGetObject b (_build_object_name d f)) true
                         :: history w;
              locals := {| object_name := Some (_build_object_name d f);
                           response := Some resp |} |} Hn eq_refl).
Qed.

Lemma stream_file_early_close_witness :
  let g := stream_file Mem.client "hello" "hello5/hello2" "a.txt"
                       (transfer_world two_chunk_store) in
  fst (fst (abandon_after 0 g)) = Closed /\
  snd (abandon_after 0 g) = [Mem.bytes_of_string "A"].
Proof.
  intros g.
  apply stream_file_early_close
    with (resp := Mem.response_for (Mem.bytes_of_string "A") two_chunk_store)
         (s1 := Mem.opened two_chunk_store)
         (chunks := [Mem.bytes_of_string "A"; Mem.bytes_of_string "A"])
         (rest := [ReadBytes []; ReadBytes (Mem.bytes_of_string "A")]).
  - reflexivity.
  - reflexivity.
  - repeat constructor; discriminate.
  - cbn. lia.
Defined.

(** X11: [stream_file] goes to the store once, for [get_object] on the
    bucket of the service and the key built from directory and file name,
    and leaves the store in the state that call left it in: whether the
    object opened or not, whatever its response gives, and whether the
    consumer reads to the end or stops after any number of chunks. *)
Theorem stream_file_one_store_call :
  forall (S : Type) (client : Minio S) (bucket_name directory filename : string)
         (w : World S TransferLocals),
    let name := _build_object_name directory filename in
    let answer := get_object client bucket_name name (backend w) in
    let g := stream_file client bucket_name directory filename w in
    let expected (w' : World S TransferLocals) :=
      backend w' = snd answer /\
      store_calls (history w')
      = ECall (CGetObject bucket_name name)
              (match fst answer with Success _ => true | Failure _ => false end)
        :: store_calls (history w) in
    expected (snd (fst (drain g))) /\
    forall n, expected (snd (fst (abandon_after n g))).
Proof.
  intros S client b d f w name answer g expected.
  subst name answer g expected.
  destruct (get_object client b (_build_object_name d f) (backend w))
    as [[resp|e] s1] eqn:H; cbn [fst snd].
  - rewrite (stream_file_opened _ _ _ _ _ H).
    destruct (@guarded_reads_quiet S resp (reads resp)
                {| backend := s1;
                   history := ECall (CGetObject b (_build_object_name d f)) true
                              :: history w;
                   locals := {| object_name := Some (_build_object_name d f);
                                response := Some resp |} |}) as [D A].
    split; [exact D|]. intros n. exact (A n).
  - rewrite (stream_file_open_failure _ _ _ _ _ H).
    split; [|intros n; destruct n]; split; reflexivity.
Qed.

(** X20: a [read] that fails once the object is open.  The consumer has
    received the chunks read before the failure; the generator then ends
    the way its [except] clauses end: for an [S3Error] it returns a failed
    [Result], NOT_FOUND naming the key when the code is [NoSuchKey] and
    STREAM_FAILED with the text of the error otherwise, as the return
    value of the generator and not as a chunk; for any other exception it
    raises [ValidationError], because [Err] is then called with the
    exception object as the message. *)
Theorem stream_file_read_failure_outcome :
  forall (S : Type) (client : Minio S) (bucket_name directory filename : string)
         (w : World S TransferLocals) (resp : Response) (s1 : S)
         (chunks : list bytes) (e : exn) (rest : list ReadResult),
    let name := _build_object_name directory filename in
    let g := stream_file client bucket_name directory filename w in
    get_object client bucket_name name (backend w) = (Success resp, s1) ->
    resp_truthy resp = true ->
    reads resp = (map ReadBytes chunks ++ ReadFails e :: rest)%list ->
    Forall (fun c => c <> []) chunks ->
    snd (drain g) = chunks /\
    fst (fst (drain g)) = stream_failure name e /\
    stream_failure name e
    = match e with
      | S3Error c _ =>
          Returned
            (VResult
               (if String.eqb c "NoSuchKey"
                then Err NOT_FOUND ("Object not found: '" ++ name ++ "'")
                else Err STREAM_FAILED
                         ("Failed to open stream: " ++ str_of_exn e)))
      | _ => Raised (ValidationError "message")
      end.
Proof.
  intros S client b d f w resp s1 chunks e rest name g H Ht Hreads Hc.
  unfold g. rewrite (stream_file_opened _ _ _ _ _ H), Hreads.
  destruct (@guarded_reads_failure S resp name e rest chunks Ht Hc
              {| backend := s1;
                 history := ECall (CGetObject b name) true :: history w;
                 locals := {| object_name := Some name;
                              response := Some resp |} |}
              eq_refl eq_refl)
    as [Ic Is].
  split; [exact Is|]. split; [exact Ic|].
  unfold stream_failure.
  destruct e as [c t| | | | |]; [destruct (String.eqb c "NoSuchKey")|..];
    reflexivity.
Qed.

(** A response that gives one chunk and then fails with [NoSuchKey]. *)
Lemma stream_file_read_failure_outcome_witness :
  let store :=
    {| Mem.buckets := Mem.buckets scenario_store;
       Mem.contents := Mem.contents scenario_store;
       Mem.faults := Mem.no_faults;
       Mem.delivery :=
         fun c => [ReadBytes c; ReadFails (Mem.no_such_key "hello5/hello2/a.txt")];
       Mem.next_rid := 0 |} in
  let g := stream_file Mem.client "hello" "hello5/hello2" "a.txt"
                       (transfer_world store) in
  Mem.get_object_of "hello" "hello5/hello2/a.txt" store
  = Success (Mem.response_for (Mem.bytes_of_string "A") store) /\
  fst (fst (drain g))
  = Returned (VResult (Err NOT_FOUND "Object not found: 'hello5/hello2/a.txt'")) /\
  snd (drain g) = [Mem.bytes_of_string "A"].
Proof.
  intros store g.
  pose proof (@stream_file_read_failure_outcome _ Mem.client "hello"
                "hello5/hello2" "a.txt" (transfer_world store)
                (Mem.response_for (Mem.bytes_of_string "A") store)
                (Mem.opened store) [Mem.bytes_of_string "A"]
                (Mem.no_such_key "hello5/hello2/a.txt") []
                eq_refl eq_refl eq_refl) as H.
  destruct H as (Hs & Hc & _).
  { constructor; [discriminate|constructor]. }
  split; [reflexivity|]. split; [exact Hc|exact Hs].
Defined.

(** ** Presigned URLs, deletion, and the shape of every failure *)

(** X12: [generate_presigned_url] makes one call to the store,
    [presigned_url] with the given method and expiry on the bucket of the
    service and the key built from directory and file name.  It returns
    the URL of the store when the call returned and a failed [Result]
    PRESIGN_FAILED naming the key for an [S3Error]; for any other
    exception it raises [ValidationError], because [Err] is then called
    with the exception object as the message. *)
Theorem generate_presigned_url_outcomes :
  forall (S : Type) (client : Minio S) (bucket_name directory filename : string)
         (expiry : N) (method : string) (w : World S TransferLocals),
    let name := _build_object_name directory filename in
    let answer := presigned_url client method bucket_name name expiry
                                (backend w) in
    exists c w',
      generate_presigned_url client bucket_name directory filename expiry
                             method w = Done c w' /\
      backend w' = snd answer /\
      store_calls (history w')
      = ECall (CPresignedUrl method bucket_name name expiry)
              (match fst answer with Success _ => true | Failure _ => false end)
        :: store_calls (history w) /\
      c = match fst answer with
          | Success url => Returned (VStr url)
          | Failure e =>
              if is_S3Error e
              then Returned (VResult (Err PRESIGN_FAILED
                                        ("Failed to presign '" ++ name ++ "': "
                                         ++ str_of_exn e)))
              else Raised (ValidationError "message")
          end.
Proof.
  intros S client b d f ex m w name answer. subst name answer.
  unfold generate_presigned_url. run_transfer.
  destruct (presigned_url client m b (_build_object_name d f) ex (backend w))
    as [[url|e] s1]; run_transfer; cbn [fst snd];
    [|destruct (is_S3Error e); cbn [Py.gexcept]; run_transfer];
    do 2 eexists; (split; [reflexivity|]); (split; [reflexivity|]);
    split; reflexivity.
Qed.

(** X13: [delete_file] goes to the store once, for [remove_object] on the
    bucket of the service and the key built from directory and file name;
    it asks nothing before (no existence check) and nothing after. *)
Theorem delete_file_one_store_call :
  forall (S : Type) (client : Minio S) (bucket_name directory filename : string)
         (w : World S TransferLocals),
    let name := _build_object_name directory filename in
    let answer := remove_object client bucket_name name (backend w) in
    let w' := world_of (delete_file client bucket_name directory filename w) in
    history w'
    = ECall (CRemoveObject bucket_name name)
            (match fst answer with Success _ => true | Failure _ => false end)
      :: history w /\
    backend w' = snd answer.
Proof.
  intros S client b d f w name answer w'. subst name answer w'.
  unfold delete_file. run_transfer.
  destruct (remove_object client b (_build_object_name d f) (backend w))
    as [[[]|e] s1]; run_transfer; cbn [fst snd];
    [|destruct e as [c t| | | | |];
      [destruct (String.eqb c "NoSuchKey")|..]; cbn [Py.gexcept]];
    split; reflexivity.
Qed.

Section Envelopes.
Variable S : Type.
Variable client : Minio S.
Variable bucket_name : string.

Ltac envelope :=
  let Hv := fresh "Hv" in
  intros Hv; inversion Hv; subst; cbn [failure_envelope]; auto;
  unfold Err; cbn [ok value error retryable]; repeat split; eauto.

Lemma guarded_reads_envelope (resp : Response) script :
  forall (w : World S TransferLocals) v,
    may_return (guarded_reads resp (read_loop (rid resp) script w)) v ->
    failure_envelope v.
Proof.
  induction script as [|[chunk|e] rest IH]; intros w v.
  - cbn [read_loop]. split_cases; envelope.
  - destruct chunk as [|b chunk].
    + cbn [read_loop]. split_cases; envelope.
    + cbn [read_loop]. unfold guarded_reads, Py.yield_. run_transfer.
      intros Hv. inversion Hv as [|chunk' w0 k s w' v' Hk]; subst.
      destruct s.
      * exact (IH w' v Hk).
      * revert Hk. split_cases; envelope.
  - cbn [read_loop]. split_cases; envelope.
Qed.

Lemma stream_file_envelope directory filename (w : World S TransferLocals) v :
  may_return (stream_file client bucket_name directory filename w) v ->
  failure_envelope v.
Proof.
  destruct (get_object client bucket_name
              (_build_object_name directory filename) (backend w))
    as [[resp|e] s1] eqn:H.
  - rewrite (stream_file_opened _ _ _ _ _ H). apply guarded_reads_envelope.
  - rewrite (stream_file_open_failure _ _ _ _ _ H). intros Hv. inversion Hv.
Qed.

Lemma other_operations_envelope (w : World S TransferLocals) v :
  (may_return (_ensure_bucket_exists client bucket_name w) v ->
   failure_envelope v) /\
  (forall data directory filename content_type part_size,
      may_return (upload_stream client bucket_name data directory filename
                                content_type part_size w) v ->
      failure_envelope v) /\
  (forall directory filename,
      may_return (delete_file client bucket_name directory filename w) v ->
      failure_envelope v) /\
  (forall directory filename expiry method,
      may_return (generate_presigned_url client bucket_name directory
                                         filename expiry method w) v ->
      failure_envelope v).
Proof.
  split; [unfold _ensure_bucket_exists; split_cases; envelope|].
  split; [intros data d f ct ps; unfold upload_stream; split_cases; envelope|].
  split; [intros d f; unfold delete_file; split_cases; envelope|].
  intros d f ex m. unfold generate_presigned_url. split_cases; envelope.
Qed.

End Envelopes.

(** X14: every [Result] that an operation of the service returns is a
    failure as [Err] builds it: [ok] is false, there is no value, and the
    error is not retryable.  No operation ever returns a successful
    [Result] (a success is the bare key, URL or boolean) and none ever
    marks an error retryable, whatever the store answers and whatever the
    consumer of a stream does.  ([delete_file] returns booleans only.) *)
Theorem results_are_plain_failures :
  forall (S : Type) (client : Minio S) (bucket_name : string)
         (w : World S TransferLocals) (v : value_),
    (may_return (_ensure_bucket_exists client bucket_name w) v ->
     failure_envelope v) /\
    (forall data directory filename content_type part_size,
        may_return (upload_stream client bucket_name data directory filename
                                  content_type part_size w) v ->
        failure_envelope v) /\
    (forall directory filename,
        may_return (stream_file client bucket_name directory filename w) v ->
        failure_envelope v) /\
    (forall directory filename,
        may_return (delete_file client bucket_name directory filename w) v ->
        failure_envelope v) /\
    (forall directory filename expiry method,
        may_return (generate_presigned_url client bucket_name directory
                                           filename expiry method w) v ->
        failure_envelope v).
Proof.
  intros S client b w v.
  destruct (other_operations_envelope client b w v) as (H1 & H2 & H3 & H4).
  split; [exact H1|]. split; [exact H2|].
  split; [intros d f; apply stream_file_envelope|].
  split; [exact H3|exact H4].
Qed.

(** An upload the store refuses: the failed [Result] UPLOAD_FAILED. *)
Lemma results_are_plain_failures_witness :
  let w := transfer_world (refusing is_put scenario_store) in
  let data := {| payload := Mem.bytes_of_string "B"; closable := true;
                 close_fails := None |} in
  let v := VResult (Err UPLOAD_FAILED "Access Denied.") in
  may_return (upload_stream Mem.client "hello" data "dir" "b.txt" None
                            default_part_size w) v /\
  failure_envelope v.
Proof.
  intros w data v.
  assert (R : may_return
                (upload_stream Mem.client "hello" data "dir" "b.txt" None
                               default_part_size w) v)
    by (vm_compute; constructor).
  split; [exact R|].
  exact (proj1 (proj2 (results_are_plain_failures Mem.client "hello" w v))
           data "dir" "b.txt" None default_part_size R).
Defined.

(** ** The migration: probes, copies and deletes *)

Section ProbeFacts.




Lemma prelude_no_transfer h :
  forallb is_prelude_event h = true ->
  calls is_stat h = 0 /\ calls is_copy h = 0 /\ calls is_remove h = 0
  /\ listed_keys h = [].
Proof.
  induction h as [|e h IH]; [repeat split|].
  cbn [forallb]. intros H. apply andb_true_iff in H. destruct H as [He Hh].
  destruct (IH Hh) as (A & B & C & D).
  destruct e as [[] r| |]; try discriminate He;
    rewrite !calls_cons; cbn [is_call is_stat is_copy is_remove listed_keys];
    auto.
Qed.

End ProbeFacts.

Section TransferCalls.
Variable S : Type.
Variable client : Minio S.
Variables src_bucket src_prefix dest_bucket dest_prefix : string.


Lemma body_never_probes key (w : World S Counters) :
  exists c w',
    process_object client src_bucket src_prefix dest_bucket dest_prefix
                   true key w = Done c w' /\
    calls is_stat (history w') = calls is_stat (history w).
Proof.
  run_object.
  all: do 2 eexists; split; [reflexivity|];
    cbn [history]; rewrite !calls_cons; reflexivity.
Qed.

(** One object costs at most one probe, one copy and one delete, and a
    delete only with a copy. *)
Lemma body_call_budget ov key (w : World S Counters) :
  exists c w',
    process_object client src_bucket src_prefix dest_bucket dest_prefix
                   ov key w = Done c w' /\
    listed_keys (history w') = listed_keys (history w) /\
    calls is_stat (history w') <= calls is_stat (history w) + 1 /\
    calls is_copy (history w') <= calls is_copy (history w) + 1 /\
    calls is_remove (history w') + calls is_copy (history w)
    <= calls is_remove (history w) + calls is_copy (history w').
Proof.
  destruct ov; run_object.
  all: do 2 eexists; split; [reflexivity|];
    cbn [history listed_keys]; rewrite !calls_cons;
    cbn [is_call is_stat is_copy is_remove]; repeat split; lia.
Qed.

Lemma loop_call_budget ov keys failing :
  forall (w : World S Counters),
  exists c w',
    for_each_object client src_bucket src_prefix dest_bucket dest_prefix
                    ov keys failing w = Done c w' /\
    calls is_stat (history w') + length (listed_keys (history w))
    <= calls is_stat (history w) + length (listed_keys (history w')) /\
    calls is_copy (history w') + length (listed_keys (history w))
    <= calls is_copy (history w) + length (listed_keys (history w')) /\
    calls is_remove (history w') + calls is_copy (history w)
    <= calls is_remove (history w) + calls is_copy (history w').
Proof.
  induction keys as [|key rest IH]; intros w.
  - destruct failing; do 2 eexists; (split; [reflexivity|]);
      cbn [history listed_keys]; rewrite ?calls_cons;
      cbn [is_call is_stat is_copy is_remove]; repeat split; lia.
  - rewrite for_each_object_cons.
    destruct (body_call_budget ov key
                {| backend := backend w; history := EListed key :: history w;
                   locals := locals w |}) as (c & w1 & E & L & A & B & C).
    cbn [history listed_keys] in L, A, B, C.
    repeat rewrite calls_cons in A. repeat rewrite calls_cons in B.
    repeat rewrite calls_cons in C.
    cbn [is_call is_stat is_copy is_remove] in A, B, C.
    rewrite E, gbind_done.
    destruct c as [[]| | |].
    1: { destruct (IH w1) as (c' & w' & E' & A' & B' & C').
         exists c', w'. split; [exact E'|]. rewrite L in A', B'.
         cbn [length] in A', B'. repeat split; lia. }
    all: do 2 eexists; (split; [reflexivity|]); rewrite L; cbn [length];
      repeat split; lia.
Qed.

End TransferCalls.

(** X15: with [overwrite=True] the migration never probes the
    destination: no [stat_object] call is made in the whole run, whatever
    the store holds or answers. *)
Theorem overwrite_never_probes :
  forall (S : Type) (client : Minio S)
         (src_bucket src_prefix dest_bucket dest_prefix : string) (s : S),
  exists c w',
    move_minio_prefix client src_bucket src_prefix dest_bucket dest_prefix
                      true (migration_world s) = Done c w' /\
    calls is_stat (history w') = 0.
Proof.
  intros S client sb sp db dp s.
  destruct (run_cases client sb sp db dp true s)
    as [(e & w' & E & P)|(w0 & l & s0 & _ & P & _ & E)].
  - exists (Raised e), w'. split; [exact E|]. now apply prelude_no_transfer.
  - rewrite E.
    destruct (for_each_preserves client sb (normalize_prefix sp) db
                (normalize_prefix dp) (fun h => calls is_stat h = 0) true)
      with (keys := fst l) (failing := snd l) (w := w0)
      as (c & w1 & E1 & G1).
    + intros k h H. rewrite calls_cons. exact H.
    + intros b p h H. rewrite calls_cons. exact H.
    + intros key w Gw.
      destruct (body_never_probes client sb (normalize_prefix sp) db
                  (normalize_prefix dp) key w) as (c & w1 & B & Sm).
      exists c, w1. split; [exact B|]. now rewrite Sm.
    + now apply prelude_no_transfer.
    + rewrite E1, gbind_done.
      destruct c as [[]| | |]; do 2 eexists; (split; [reflexivity|]);
        cbn [history]; rewrite ?calls_cons; exact G1.
Qed.


(** X17: a run spends at most one probe, one copy and one delete on each
    object the listing hands out, and never deletes more often than it
    copies: nothing is retried.  With an empty listing the store is
    neither probed nor written. *)
Theorem one_attempt_per_object :
  forall (S : Type) (client : Minio S)
         (src_bucket src_prefix dest_bucket dest_prefix : string)
         (overwrite : bool) (s : S),
  exists c w',
    move_minio_prefix client src_bucket src_prefix dest_bucket dest_prefix
                      overwrite (migration_world s) = Done c w' /\
    calls is_stat (history w') <= length (listing w') /\
    calls is_copy (history w') <= length (listing w') /\
    calls is_remove (history w') <= calls is_copy (history w').
Proof.
  intros S client sb sp db dp ov s.
  destruct (run_cases client sb sp db dp ov s)
    as [(e & w' & E & P)|(w0 & l & s0 & _ & P & _ & E)].
  - exists (Raised e), w'. split; [exact E|].
    destruct (prelude_no_transfer _ P) as (A & B & C & D).
    rewrite A, B, C. repeat split; lia.
  - rewrite E.
    destruct (loop_call_budget client sb (normalize_prefix sp) db
                (normalize_prefix dp) ov (fst l) (snd l) w0)
      as (c & w1 & E1 & A1 & B1 & C1).
    destruct (prelude_no_transfer _ P) as (A & B & C & D).
    rewrite A, B, C, D in *. cbn [length] in A1, B1.
    rewrite E1, gbind_done.
    destruct c as [[]| | |]; do 2 eexists; (split; [reflexivity|]);
      unfold listing; cbn [history listed_keys]; rewrite ?calls_cons;
      cbn [is_call]; rewrite length_rev; repeat split; lia.
Qed.

(** ** Nothing is lost *)

Section DataSafety.
Variable S : Type.
Variable client : Minio S.
Variable content : S -> string -> string -> option bytes.
Hypothesis contract : StoreContract client content.
Variables src_bucket src_prefix dest_bucket dest_prefix : string.
Hypothesis distinct : src_bucket <> dest_bucket.
Variable start : S.

Let dest_key (key : string) : string := dest_prefix ++ tail_of src_prefix key.
Let safe : S -> Prop :=
  nothing_lost content src_bucket src_prefix dest_bucket dest_prefix start.

(** The copy of [key] has returned: its destination holds what the source
    held at the start. *)
Let copied_safe (key : string) (s : S) : Prop :=
  safe s /\
  content s dest_bucket (dest_key key) = content start src_bucket key /\
  content start src_bucket key <> None.

Lemma safe_start : safe start.
Proof. split; intros; auto. Qed.

Lemma safe_unchanged s s' :
  (forall b k, content s' b k = content s b k) -> safe s -> safe s'.
Proof.
  intros U [A B]. split.
  - intros k v H. rewrite !U. exact (A k v H).
  - intros k. rewrite U. exact (B k).
Qed.

Lemma safe_stat b k s r s' :
  stat_object client b k s = (r, s') -> safe s -> safe s'.
Proof.
  intros H. apply safe_unchanged. intros b' k'.
  pose proof (asks_stat_object contract b k s b' k') as U.
  now rewrite H in U.
Qed.

Lemma safe_copy_raised key s e s' :
  copy_object client dest_bucket (dest_key key) src_bucket key s
  = (Failure e, s') ->
  safe s -> safe s'.
Proof.
  intros H. apply safe_unchanged. exact (copy_raised contract _ _ _ _ _ H).
Qed.

Lemma safe_copy_returned key s s' :
  PyStr.startswith key src_prefix = true ->
  copy_object client dest_bucket (dest_key key) src_bucket key s
  = (Success tt, s') ->
  safe s -> copied_safe key s'.
Proof.
  intros Hk H [A B].
  destruct (copy_returned contract _ _ _ _ _ H) as (Src & Dst & Oth).
  assert (Same : content s src_bucket key = content start src_bucket key).
  { destruct (B key) as [E|E]; [exact E|congruence]. }
  split; [split|split].
  - intros k v Hs. destruct (A k v Hs) as [L|[Pk R]].
    + left. rewrite Oth; [exact L|left; exact distinct].
    + right. split; [exact Pk|].
      destruct (string_dec k key) as [->|Ne].
      * fold (dest_key key). rewrite Dst, Same. exact Hs.
      * rewrite Oth; [exact R|]. right. intros E. apply Ne.
        exact (dest_key_same_key _ _ _ _ Pk Hk E).
  - intros k. rewrite Oth; [exact (B k)|left; exact distinct].
  - now rewrite Dst.
  - now rewrite <- Same.
Qed.

Lemma safe_remove_raised key s e s' :
  remove_object client src_bucket key s = (Failure e, s') ->
  copied_safe key s -> safe s'.
Proof.
  intros H [Hs _]. revert Hs. apply safe_unchanged.
  exact (remove_raised contract _ _ _ H).
Qed.

Lemma safe_remove_returned key s s' :
  PyStr.startswith key src_prefix = true ->
  remove_object client src_bucket key s = (Success tt, s') ->
  copied_safe key s -> safe s'.
Proof.
  intros Hk H ([A B] & Dst & Src).
  destruct (remove_returned contract _ _ _ H) as (Gone & Oth).
  assert (Dn : dest_bucket <> src_bucket) by congruence.
  split.
  - intros k v Hs. destruct (string_dec k key) as [->|Ne].
    + right. split; [exact Hk|]. fold (dest_key key).
      rewrite Oth; [|left; exact Dn]. now rewrite Dst.
    + destruct (A k v Hs) as [L|[Pk R]].
      * left. rewrite Oth; [exact L|right; exact Ne].
      * right. split; [exact Pk|]. rewrite Oth; [exact R|left; exact Dn].
  - intros k. destruct (string_dec k key) as [->|Ne].
    + right. exact Gone.
    + rewrite Oth; [exact (B k)|right; exact Ne].
Qed.

Lemma body_safe ov key (w : World S Counters) :
  PyStr.startswith key src_prefix = true ->
  safe (backend w) ->
  exists c w',
    process_object client src_bucket src_prefix dest_bucket dest_prefix
                   ov key w = Done c w' /\
    safe (backend w').
Proof.
  intros Hk Hs. destruct ov; run_object.
  all: do 2 eexists; (split; [reflexivity|]); cbn [backend].
  all: eauto 6 using safe_stat, safe_copy_raised, safe_copy_returned,
         safe_remove_raised, safe_remove_returned.
Qed.

Lemma loop_safe ov keys failing :
  Forall (fun key => PyStr.startswith key src_prefix = true) keys ->
  forall (w : World S Counters),
    safe (backend w) ->
    exists c w',
      for_each_object client src_bucket src_prefix dest_bucket dest_prefix
                      ov keys failing w = Done c w' /\
      safe (backend w').
Proof.
  intros Hkeys. induction Hkeys as [|key rest Hk _ IH]; intros w Hs.
  - destruct failing; do 2 eexists; (split; [reflexivity|]); exact Hs.
  - rewrite for_each_object_cons.
    destruct (body_safe ov key
                {| backend := backend w; history := EListed key :: history w;
                   locals := locals w |} Hk Hs) as (c & w1 & E & H1).
    rewrite E, gbind_done. destruct c as [[]| | |]; eauto.
Qed.

End DataSafety.

Section RunSafety.
Variable S : Type.
Variable client : Minio S.
Variable content : S -> string -> string -> option bytes.
Hypothesis contract : StoreContract client content.
Variables src_bucket src_prefix dest_bucket dest_prefix : string.

(** The statements before the loop leave what the store holds as it
    was, and the keys they get from the listing start with the normalised
    source prefix. *)
Lemma run_cases_content ov (s : S) :
  (exists e w',
      move_minio_prefix client src_bucket src_prefix dest_bucket dest_prefix
                        ov (migration_world s) = Done (Raised e) w' /\
      forall b k, content (backend w') b k = content s b k) \/
  (exists w0 keys failing,
      Forall (fun key =>
                PyStr.startswith key (normalize_prefix src_prefix) = true)
             keys /\
      (forall b k, content (backend w0) b k = content s b k) /\
      move_minio_prefix client src_bucket src_prefix dest_bucket dest_prefix
                        ov (migration_world s)
      = Py.gbind (for_each_object client src_bucket
                    (normalize_prefix src_prefix) dest_bucket
                    (normalize_prefix dest_prefix) ov keys failing w0)
                 (fun _ => finish_run)).
Proof.
  unfold move_minio_prefix, ensure_bucket, start_listing, Py.bind, call,
    assign, Py.modify, Py.ret, Py.raise, Py.get, print, log, migration_world.
  cbn [Py.gbind backend history locals].
  pose proof (asks_bucket_exists contract src_bucket s) as U1.
  destruct (bucket_exists client src_bucket s) as [[[|]|e] s1];
    cbn [snd] in U1; cbn [Py.gbind backend history locals negb].
  2,3: left; do 2 eexists; split; [reflexivity|exact U1].
  pose proof (asks_bucket_exists contract dest_bucket s1) as U2.
  destruct (bucket_exists client dest_bucket s1) as [[[|]|e] s2];
    cbn [snd] in U2; cbn [Py.gbind backend history locals negb].
  3: { left. do 2 eexists. split; [reflexivity|].
       intros b k. cbn [backend]. now rewrite U2. }
  2: { pose proof (asks_make_bucket contract dest_bucket s2) as U3.
       destruct (make_bucket client dest_bucket s2) as [[[]|e] s3];
         cbn [snd] in U3; cbn [Py.gbind backend history locals negb].
       2: { left. do 2 eexists. split; [reflexivity|].
            intros b k. cbn [backend]. now rewrite U3, U2. }
       pose proof (asks_list_objects contract src_bucket
                     (normalize_prefix src_prefix) s3) as U4.
       pose proof (lists_under_prefix contract src_bucket
                     (normalize_prefix src_prefix) s3) as P4.
       destruct (list_objects client src_bucket (normalize_prefix src_prefix)
                              s3) as [[keys failing] s4];
         cbn [fst snd] in U4, P4; cbn [Py.gbind backend history locals fst snd].
       right. eexists _, keys, failing. split; [exact P4|].
       split; [|reflexivity].
       intros b k. cbn [backend]. now rewrite U4, U3, U2. }
  pose proof (asks_list_objects contract src_bucket
                (normalize_prefix src_prefix) s2) as U4.
  pose proof (lists_under_prefix contract src_bucket
                (normalize_prefix src_prefix) s2) as P4.
  destruct (list_objects client src_bucket (normalize_prefix src_prefix) s2)
    as [[keys failing] s4];
    cbn [fst snd] in U4, P4; cbn [Py.gbind backend history locals fst snd].
  right. eexists _, keys, failing. split; [exact P4|].
  split; [|reflexivity].
  intros b k. cbn [backend]. now rewrite U4, U2.
Qed.

End RunSafety.

(** X18: between two different buckets a migration loses nothing.  On a
    store that keeps its contract (questions change nothing, a listing
    hands out keys under its prefix, a copy that returns has written its
    source to its destination and nothing else, a delete that returns has
    removed its key and nothing else, a call that raises has changed
    nothing), however the run ends, normally or by an exception, with or
    without overwriting: every object the source bucket held at the start
    is either still in the source bucket or at its destination key in the
    destination bucket, with the same bytes. *)
Theorem migration_loses_nothing :
  forall (S : Type) (client : Minio S)
         (content : S -> string -> string -> option bytes)
         (src_bucket src_prefix dest_bucket dest_prefix : string)
         (overwrite : bool) (s : S),
    StoreContract client content ->
    src_bucket <> dest_bucket ->
    exists c w',
      move_minio_prefix client src_bucket src_prefix dest_bucket dest_prefix
                        overwrite (migration_world s) = Done c w' /\
      forall k v,
        content s src_bucket k = Some v ->
        content (backend w') src_bucket k = Some v \/
        content (backend w') dest_bucket
                (normalize_prefix dest_prefix
                 ++ tail_of (normalize_prefix src_prefix) k) = Some v.
Proof.
  intros S client content sb sp db dp ov s contract distinct.
  assert (G : exists c w',
             move_minio_prefix client sb sp db dp ov (migration_world s)
             = Done c w' /\
             nothing_lost content sb (normalize_prefix sp) db
                          (normalize_prefix dp) s (backend w')).
  { destruct (run_cases_content contract sb sp db dp ov s)
      as [(e & w' & E & U)|(w0 & keys & failing & Pk & U & E)].
    - exists (Raised e), w'. split; [exact E|].
      apply (safe_unchanged (s := s)); [exact U|apply safe_start].
    - rewrite E.
      destruct (loop_safe contract distinct (start := s)
                  (src_prefix := normalize_prefix sp)
                  (dest_prefix := normalize_prefix dp) ov failing Pk w0)
        as (c & w1 & E1 & H1).
      { apply (safe_unchanged (s := s)); [exact U|apply safe_start]. }
      rewrite E1, gbind_done.
      destruct c as [[]| | |]; do 2 eexists; (split; [reflexivity|]);
        exact H1. }
  destruct G as (c & w' & E & [A _]). exists c, w'. split; [exact E|].
  intros k v H. destruct (A k v H) as [L|[_ R]]; auto.
Qed.

(** ** The in-memory store keeps the contract *)

Section MemFacts.

Lemma same_true b k b' k' (c : bytes) :
  Mem.same b k (b', k', c) = true <-> b = b' /\ k = k'.
Proof.
  unfold Mem.same. rewrite andb_true_iff, !String.eqb_eq. tauto.
Qed.

Lemma find_app {A} (f : A -> bool) l l' :
  find f (l ++ l')%list
  = match find f l with Some x => Some x | None => find f l' end.
Proof.
  induction l as [|x l IH]; [reflexivity|].
  cbn [app find]. destruct (f x); [reflexivity|exact IH].
Qed.

Lemma find_filter_out b k l :
  find (Mem.same b k) (filter (fun o => negb (Mem.same b k o)) l) = None.
Proof.
  induction l as [|o l IH]; [reflexivity|].
  cbn [filter]. destruct (Mem.same b k o) eqn:E; cbn [negb]; [exact IH|].
  cbn [find]. now rewrite E.
Qed.

Lemma find_filter_other b k b' k' l :
  b' <> b \/ k' <> k ->
  find (Mem.same b' k') (filter (fun o => negb (Mem.same b k o)) l)
  = find (Mem.same b' k') l.
Proof.
  intros Ne. induction l as [|[[b0 k0] c0] l IH]; [reflexivity|].
  cbn [filter find].
  destruct (Mem.same b k (b0, k0, c0)) eqn:E; cbn [negb].
  - apply same_true in E. destruct E as [-> ->].
    destruct (Mem.same b' k' (b0, k0, c0)) eqn:E'; [|exact IH].
    apply same_true in E'. destruct E' as [-> ->]. tauto.
  - cbn [find]. destruct (Mem.same b' k' (b0, k0, c0)); [reflexivity|exact IH].
Qed.

Lemma lookup_store_same b k c s :
  Mem.lookup b k (Mem.store_object b k c s) = Some c.
Proof.
  unfold Mem.lookup, Mem.store_object, Mem.with_contents. cbn [Mem.contents].
  rewrite find_app, find_filter_out. cbn [find].
  unfold Mem.same. now rewrite !String.eqb_refl.
Qed.

Lemma lookup_store_other b k c s b' k' :
  b' <> b \/ k' <> k ->
  Mem.lookup b' k' (Mem.store_object b k c s) = Mem.lookup b' k' s.
Proof.
  intros Ne.
  unfold Mem.lookup, Mem.store_object, Mem.with_contents. cbn [Mem.contents].
  rewrite find_app, (find_filter_other _ Ne).
  destruct (find (Mem.same b' k') (Mem.contents s)); [reflexivity|].
  cbn [find]. destruct (Mem.same b' k' (b, k, c)) eqn:E; [|reflexivity].
  apply same_true in E. destruct E as [-> ->]. tauto.
Qed.

Lemma lookup_drop_same b k s :
  Mem.lookup b k (Mem.drop_object b k s) = None.
Proof.
  unfold Mem.lookup, Mem.drop_object, Mem.with_contents. cbn [Mem.contents].
  now rewrite find_filter_out.
Qed.

Lemma lookup_drop_other b k s b' k' :
  b' <> b \/ k' <> k ->
  Mem.lookup b' k' (Mem.drop_object b k s) = Mem.lookup b' k' s.
Proof.
  intros Ne.
  unfold Mem.lookup, Mem.drop_object, Mem.with_contents. cbn [Mem.contents].
  now rewrite (find_filter_other _ Ne).
Qed.

Lemma keys_under_prefix b p s :
  Forall (fun key => PyStr.startswith key p = true) (Mem.keys_under b p s).
Proof.
  apply Forall_forall. intros key H. unfold Mem.keys_under in H.
  apply in_map_iff in H. destruct H as (o & <- & Ho).
  apply filter_In in Ho. destruct Ho as [_ Ho].
  apply andb_true_iff in Ho. exact (proj2 Ho).
Qed.

(** The in-memory store, with any plan of refused calls, keeps the
    contract of the migration. *)
Lemma mem_contract :
  StoreContract Mem.client (fun s b k => Mem.lookup b k s).
Proof.
  constructor; cbn [Mem.client bucket_exists make_bucket list_objects
                    stat_object copy_object remove_object];
    unfold Mem.guarded.
  - intros b s b' k. destruct (Mem.faults s _); reflexivity.
  - intros b s b' k. destruct (Mem.faults s _); reflexivity.
  - intros b p s b' k. destruct (Mem.faults s _); reflexivity.
  - intros b p s. destruct (Mem.faults s _); cbn [fst];
      [constructor|apply keys_under_prefix].
  - intros b k s b' k'.
    destruct (Mem.faults s _); [reflexivity|].
    destruct (Mem.lookup b k s); reflexivity.
  - intros db dk sb sk s s'.
    destruct (Mem.faults s _); [discriminate|].
    destruct (Mem.lookup sb sk s) as [c|] eqn:L; [|discriminate].
    intros H. injection H as <-. split; [discriminate|].
    split; [apply lookup_store_same|].
    intros b k Ne. now apply lookup_store_other.
  - intros db dk sb sk s e s'.
    destruct (Mem.faults s _); [intros H; injection H as _ <-; reflexivity|].
    destruct (Mem.lookup sb sk s); [discriminate|].
    intros H. injection H as _ <-. reflexivity.
  - intros b k s s'.
    destruct (Mem.faults s _); [discriminate|].
    destruct (Mem.lookup b k s); [|discriminate].
    intros H. injection H as <-. split; [apply lookup_drop_same|].
    intros b' k' Ne. now apply lookup_drop_other.
  - intros b k s e s'.
    destruct (Mem.faults s _); [intros H; injection H as _ <-; reflexivity|].
    destruct (Mem.lookup b k s); [discriminate|].
    intros H. injection H as _ <-. reflexivity.
Qed.

End MemFacts.

(** The scenario store with every delete refused: the objects are at
    their destination and still in the source. *)
Lemma migration_loses_nothing_witness :
  let s := refusing is_remove scenario_store in
  let content := fun s b k => Mem.lookup b k s in
  content s "hello" "hello5/hello2/a.txt" = Some (Mem.bytes_of_string "A") /\
  exists c w',
    move_minio_prefix Mem.client "hello" "hello5/hello2" "hello2"
                      "hello8/hello2" false (migration_world s) = Done c w' /\
    (content (backend w') "hello" "hello5/hello2/a.txt"
     = Some (Mem.bytes_of_string "A") \/
     content (backend w') "hello2" "hello8/hello2/a.txt"
     = Some (Mem.bytes_of_string "A")).
Proof.
  intros s content. split; [reflexivity|].
  assert (D : "hello" <> "hello2") by discriminate.
  destruct (@migration_loses_nothing _ Mem.client content "hello"
              "hello5/hello2" "hello2" "hello8/hello2" false s mem_contract D)
    as (c & w' & E & H).
  exists c, w'. split; [exact E|].
  exact (H "hello5/hello2/a.txt" (Mem.bytes_of_string "A") eq_refl).
Defined.

(** ** Upload, then download *)

(** An upload whose [put_object] returned: the key comes back and the
    store is in the state the call left. *)
Lemma upload_stream_returns_key (S : Type) (client : Minio S)
      (bucket_name : string) (data : BinaryIO) (directory filename : string)
      (content_type : option string) (part_size : N)
      (w : World S TransferLocals) (s1 : S) :
  PyStr.truthy filename = true ->
  put_object client bucket_name (_build_object_name directory filename)
             (payload data) (content_type_or_default content_type) part_size
             (backend w) = (Success tt, s1) ->
  exists w1,
    upload_stream client bucket_name data directory filename content_type
                  part_size w
    = Done (Returned (VStr (_build_object_name directory filename))) w1 /\
    backend w1 = s1.
Proof.
  intros Hf Hput. destruct filename as [|a f]; [discriminate Hf|].
  unfold upload_stream, data_close. run_transfer.
  cbn [PyStr.truthy negb]. run_transfer.
  unfold content_type_or_default in Hput. rewrite Hput. run_transfer.
  destruct (closable data); [destruct (close_fails data)|]; run_transfer;
    eexists; split; reflexivity.
Qed.

(** X19: an upload followed by a download of the same directory and file
    name reads back what the store has for the uploaded key.  When
    [put_object] returns and the [get_object] that follows on the same
    bucket and key gives a response with chunks that are not empty,
    [upload_stream] returns the key and [stream_file], run in the world
    the upload left, hands the consumer exactly those chunks and ends
    normally. *)
Theorem upload_then_stream :
  forall (S : Type) (client : Minio S) (bucket_name : string)
         (data : BinaryIO) (directory filename : string)
         (content_type : option string) (part_size : N)
         (w : World S TransferLocals) (s1 s2 : S) (resp : Response)
         (chunks : list bytes),
    PyStr.truthy filename = true ->
    let name := _build_object_name directory filename in
    put_object client bucket_name name (payload data)
               (content_type_or_default content_type) part_size (backend w)
    = (Success tt, s1) ->
    get_object client bucket_name name s1 = (Success resp, s2) ->
    reads resp = map ReadBytes chunks ->
    Forall (fun c => c <> []) chunks ->
    let up := upload_stream client bucket_name data directory filename
                            content_type part_size w in
    let down := stream_file client bucket_name directory filename
                            (world_of up) in
    fst (fst (drain up)) = Returned (VStr name) /\
    fst (fst (drain down)) = Normal tt /\
    snd (drain down) = chunks /\
    backend (snd (fst (drain down))) = s2.
Proof.
  intros S client b data d f ct ps w s1 s2 resp chunks Hf name Hput Hget
         Hreads Hc up down.
  destruct (upload_stream_returns_key client b data d f ct ps w Hf Hput)
    as (w1 & E & B).
  subst up down. rewrite E. cbn [drain fst snd world_of].
  split; [reflexivity|].
  assert (Hget' : get_object client b (_build_object_name d f) (backend w1)
                  = (Success resp, s2)) by (rewrite B; exact Hget).
  assert (Hreads' : reads resp = (map ReadBytes chunks ++ [])%list)
    by (rewrite app_nil_r; exact Hreads).
  rewrite (stream_file_opened _ _ _ _ _ Hget'), Hreads'.
  destruct (@guarded_reads_delivers S resp chunks [] Hc (or_introl eq_refl)
              {| backend := s2;
                 history := ECall (CGetObject b (_build_object_name d f)) true
                            :: history w1;
                 locals := {| object_name := Some (_build_object_name d f);
                              response := Some resp |} |} eq_refl)
    as (Ic & Is & _).
  split; [exact Ic|]. split; [exact Is|].
  exact (proj1 (proj1 (@guarded_reads_quiet S resp
                         (map ReadBytes chunks ++ [])%list _))).
Qed.

Lemma upload_then_stream_witness :
  let data := {| payload := Mem.bytes_of_string "B"; closable := true;
                 close_fails := None |} in
  let up := upload_stream Mem.client "hello" data "/dir/" "b.txt" None
                          default_part_size (transfer_world scenario_store) in
  let down := stream_file Mem.client "hello" "dir" "b.txt" (world_of up) in
  fst (fst (drain up)) = Returned (VStr "dir/b.txt") /\
  fst (fst (drain down)) = Normal tt /\
  snd (drain down) = [Mem.bytes_of_string "B"].
Proof.
  intros data up down.
  destruct (@upload_then_stream _ Mem.client "hello" data "/dir/" "b.txt"
              None default_part_size (transfer_world scenario_store)
              (Mem.store_object "hello" "dir/b.txt" (Mem.bytes_of_string "B")
                                scenario_store)
              (Mem.opened
                 (Mem.store_object "hello" "dir/b.txt"
                                   (Mem.bytes_of_string "B") scenario_store))
              (Mem.response_for (Mem.bytes_of_string "B") scenario_store)
              [Mem.bytes_of_string "B"]
              eq_refl eq_refl eq_refl eq_refl)
    as (U & C & Ch & _).
  { repeat constructor; discriminate. }
  split; [exact U|]. split; [exact C|exact Ch].
Defined.

(** Where the two buckets and the two prefixes are the same and
    [overwrite] is set, a store that lets an object be copied onto itself
    loses it: the run copies the object to its own key and then deletes
    it. *)
Example same_place_with_overwrite :
  let w' := world_of
              (move_minio_prefix Mem.client "hello" "hello5/hello2" "hello"
                 "hello5/hello2" true (migration_world scenario_store)) in
  locals w' = {| moved := 2; copied := 2; skipped := 0; errors := 0 |} /\
  Mem.keys_of "hello" (backend w') = [].
Proof. vm_compute. split; reflexivity. Qed.
